(** * Whisper transcriber bot: access control, mention resolution,
      ASR gateway and subtitle serialisation

    A shallow embedding of [src/chutes_handler.py] (the functions
    [transcribe_with_chutes], [format_timestamp], [save_chutes_outputs])
    and of the access-control and mention rules exercised by the test
    suites, followed by the properties stated about them.

    Python values are modelled as the interpreter has them:
    - [str] is a sequence of Unicode code points ([pystr]);
    - [float] is IEEE-754 binary64 with round-to-nearest-even written out
      over exact integers ([F64]);
    - [int] is [Z]; a JSON document is the tree [json] with [dict] as a
      finite map;
    - a raised exception is the [Raise] branch of [res]. *)

From Stdlib Require Import ZArith Lia Bool String Ascii List.
From Stdlib Require Import Floats.SpecFloat.
From stdpp Require Import base option list gmap.

Open Scope Z_scope.

(* ================================================================== *)
(** * Exceptions and results *)

Inductive exn :=
  | ValueError
  | OverflowError
  | ZeroDivisionError
  | TypeError
  | KeyError
  | AttributeError
  | UnicodeEncodeError
  | OSError
  | ClientError
  | JSONDecodeError
  | CancelledError
  | KeyboardInterrupt.

(** Whether the class of the exception derives from [Exception]:
    [asyncio.CancelledError] (Python 3.8 and later) and
    [KeyboardInterrupt] derive from [BaseException] only, and
    [except Exception] lets them pass. *)
Definition is_exception (e : exn) : bool :=
  match e with
  | CancelledError | KeyboardInterrupt => false
  | _ => true
  end.

Inductive res (A : Type) :=
  | Ok (a : A)
  | Raise (e : exn).
Arguments Ok {A} a.
Arguments Raise {A} e.

Definition rbind {A B} (m : res A) (k : A -> res B) : res B :=
  match m with
  | Ok a => k a
  | Raise e => Raise e
  end.

Declare Scope res_scope.
Delimit Scope res_scope with res.
Notation "'let*' x ':=' m 'in' k" := (rbind m (fun x => k))
  (at level 10, x pattern, m at level 100, k at level 200) : res_scope.
Open Scope res_scope.

(* ================================================================== *)
(** * Python [str]: sequences of code points *)

Definition pystr := list N.

(** A literal of the program text (ASCII) as a [str]. *)
Definition py (s : string) : pystr :=
  map N_of_ascii (list_ascii_of_string s).

Module PyStr.

(** [str.isspace] on one code point: the characters CPython's
    [_PyUnicode_IsWhitespace] accepts. *)
Definition is_space (c : N) : bool :=
  ((9 <=? c) && (c <=? 13) || (28 <=? c) && (c <=? 32)
   || (c =? 133) || (c =? 160) || (c =? 5760)
   || (8192 <=? c) && (c <=? 8202)
   || (c =? 8232) || (c =? 8233) || (c =? 8239) || (c =? 8287)
   || (c =? 12288))%N.

Fixpoint lstrip (s : pystr) : pystr :=
  match s with
  | c :: s' => if is_space c then lstrip s' else s
  | [] => []
  end.

Definition rstrip (s : pystr) : pystr := rev (lstrip (rev s)).

(** [s.strip()] *)
Definition strip (s : pystr) : pystr := rstrip (lstrip s).

Fixpoint starts_with (p s : pystr) : bool :=
  match p, s with
  | [], _ => true
  | a :: p', b :: s' => (a =? b)%N && starts_with p' s'
  | _ :: _, [] => false
  end.

(** [p in s] *)
Fixpoint contains (p s : pystr) : bool :=
  starts_with p s ||
  match s with
  | [] => false
  | _ :: s' => contains p s'
  end.

Definition eqb (a b : pystr) : bool := bool_decide (a = b).

(** [s[i:j]] for non-negative [i], [j]. *)
Definition slice (s : pystr) (i j : nat) : pystr := take (j - i) (drop i s).

(** [s.split(sep)] for a one-character separator. *)
Fixpoint split_on (sep : N) (s : pystr) : list pystr :=
  match s with
  | [] => [[]]
  | c :: s' =>
      if (c =? sep)%N then [] :: split_on sep s'
      else match split_on sep s' with
           | w :: ws => (c :: w) :: ws
           | [] => [[c]]
           end
  end.

Definition digit (d : Z) : N := (48 + Z.to_N d)%N.

Fixpoint dec (fuel : nat) (n : Z) : pystr :=
  match fuel with
  | O => []
  | S f => if n <? 10 then [digit n] else dec f (n / 10) ++ [digit (n mod 10)]
  end.

(** Decimal digits of a non-negative integer. *)
Definition of_nonneg (n : Z) : pystr := dec (S (Z.to_nat (Z.log2 n))) n.

(** [str(n)] for an [int]. *)
Definition of_int (n : Z) : pystr :=
  if n <? 0 then 45%N :: of_nonneg (- n) else of_nonneg n.

(** [format(n, "0w")]: sign first, then zeros up to the width [w].  An
    [int] of any size is printed: the limit that CPython 3.11 and later
    put on the digits of the conversion is not modelled (see
    [Timestamp.printable]). *)
Definition zfill (w : nat) (n : Z) : pystr :=
  if n <? 0 then
    let d := of_nonneg (- n) in
    45%N :: repeat 48%N (w - 1 - length d) ++ d
  else
    let d := of_nonneg n in
    repeat 48%N (w - length d) ++ d.

(** [sep.join(toks)] for a one-character separator. *)
Fixpoint join (sep : N) (toks : list pystr) : pystr :=
  match toks with
  | [] => []
  | [t] => t
  | t :: rest => t ++ sep :: join sep rest
  end.

Definition is_digit (c : N) : bool := ((48 <=? c) && (c <=? 57))%N.

Fixpoint digits_val (acc : Z) (s : pystr) : option Z :=
  match s with
  | [] => Some acc
  | c :: s' =>
      if is_digit c then digits_val (acc * 10 + (Z.of_N c - 48)) s' else None
  end.

(** The number a non-empty string of decimal digits denotes. *)
Definition to_nat (s : pystr) : option Z :=
  match s with
  | [] => None
  | _ => digits_val 0 s
  end.

(** A code point the UTF-8 codec refuses (a lone surrogate). *)
Definition is_surrogate (c : N) : bool := ((55296 <=? c) && (c <=? 57343))%N.

Definition encodable (s : pystr) : bool := forallb (fun c => negb (is_surrogate c)) s.

End PyStr.

(* ================================================================== *)
(** * Python [float]: IEEE-754 binary64

    A finite double is an integer number of units of [2^-1074], the least
    positive double; [Fin n] is the value [n * 2^-1074].  The two zeros
    are one value here: in the code below every float ends in [int()],
    which maps both to [0]. *)

Module F64.

Inductive t :=
  | Fin (n : Z)
  | Inf (neg : bool)
  | NaN.

#[global] Instance t_eq_dec : EqDecision t.
Proof. solve_decision. Defined.

(** [1.0] in units. *)
Definition one : Z := 2 ^ 1074.

(** [2^1024] in units, the least magnitude that is out of range. *)
Definition top : Z := 2 ^ 2098.

Definition bits (n : Z) : Z := if n =? 0 then 0 else Z.log2 n + 1.

(** Nearest integer to [a/d], ties to the even one. *)
Definition rne (a d : Z) : Z :=
  let q := a / d in
  let r := a mod d in
  if (d <? 2 * r) || ((2 * r =? d) && Z.odd q) then q + 1 else q.

(** Nearest double (in units) to the non-negative rational [a/b] units:
    a significand of at most 53 bits, no exponent below [2^-1074]. *)
Definition round_pos (a b : Z) : Z :=
  let sh := Z.max 0 (bits (a / b) - 53) in
  rne a (b * 2 ^ sh) * 2 ^ sh.

(** The double nearest to [a/b] units, for [0 < b]. *)
Definition round (a b : Z) : t :=
  let r := round_pos (Z.abs a) b in
  if top <=? r then Inf (a <? 0) else Fin (Z.sgn a * r).

(** A number of units that is a double. *)
Definition representable (n : Z) : bool :=
  (Z.abs n <? top) && (Z.abs n mod 2 ^ Z.max 0 (bits (Z.abs n) - 53) =? 0).

(** The same as a proposition, for a non-negative number of units,
    without the range. *)
Definition dbl (n : Z) : Prop :=
  0 <= n /\ n mod 2 ^ Z.max 0 (bits n - 53) = 0.

(** Three doubles used as bounds: [2^1023], the double after it, and
    [2^-53] (the spacing of the doubles just below [1.0]). *)
Definition big1 : Z := 2 ^ 2097.
Definition big2 : Z := 2 ^ 2097 + 2 ^ 2045.
Definition grain : Z := 2 ^ 1021.

Definition is_neg (x : t) : bool :=
  match x with Fin n => n <? 0 | Inf s => s | NaN => false end.

Definition add (x y : t) : t :=
  match x, y with
  | NaN, _ | _, NaN => NaN
  | Inf s, Inf s' => if Bool.eqb s s' then Inf s else NaN
  | Inf s, Fin _ | Fin _, Inf s => Inf s
  | Fin a, Fin b => round (a + b) 1
  end.

Definition opp (x : t) : t :=
  match x with Fin n => Fin (- n) | Inf s => Inf (negb s) | NaN => NaN end.

Definition sub (x y : t) : t := add x (opp y).

Definition mul (x y : t) : t :=
  match x, y with
  | NaN, _ | _, NaN => NaN
  | Inf s, Inf s' => Inf (xorb s s')
  | Inf s, Fin b => if b =? 0 then NaN else Inf (xorb s (b <? 0))
  | Fin a, Inf s => if a =? 0 then NaN else Inf (xorb s (a <? 0))
  | Fin a, Fin b => round (a * b) one
  end.

(** [x / y] in C, for a divisor that is not zero. *)
Definition div (x y : t) : t :=
  match x, y with
  | NaN, _ | _, NaN => NaN
  | Inf _, Inf _ => NaN
  | Inf s, Fin b => Inf (xorb s (b <? 0))
  | Fin _, Inf _ => Fin 0
  | Fin a, Fin b => round (Z.sgn b * a * one) (Z.abs b)
  end.

(** C's [fmod]: exact, with the sign of the dividend. *)
Definition fmod (x y : t) : t :=
  match x, y with
  | NaN, _ | _, NaN => NaN
  | Inf _, _ => NaN
  | Fin a, Inf _ => Fin a
  | Fin a, Fin b => if b =? 0 then NaN else Fin (Z.rem a b)
  end.

Definition floor (x : t) : t :=
  match x with Fin a => Fin (a / one * one) | _ => x end.

(** [x != 0] *)
Definition nonzero (x : t) : bool :=
  match x with Fin a => negb (a =? 0) | _ => true end.

(** [x > y] *)
Definition gt (x y : t) : bool :=
  match x, y with
  | NaN, _ | _, NaN => false
  | Fin a, Fin b => b <? a
  | Inf s, Inf s' => negb s && s'
  | Inf s, Fin _ => negb s
  | Fin _, Inf s => s
  end.

(** [float(n)] for an [int]. *)
Definition of_int (n : Z) : res t :=
  match round (n * one) 1 with
  | Fin a => Ok (Fin a)
  | _ => Raise OverflowError
  end.

(** [int(x)]: truncation toward zero. *)
Definition to_int (x : t) : res Z :=
  match x with
  | Fin a => Ok (Z.quot a one)
  | Inf _ => Raise OverflowError
  | NaN => Raise ValueError
  end.

(** The float a decimal literal [m * 10^e] denotes (what [json] and
    [float()] read): the correctly rounded double. *)
Definition of_decimal (m e : Z) : t :=
  if 0 <=? e then round (m * 10 ^ e * one) 1 else round (m * one) (10 ^ (- e)).

Definition half : t := Fin (2 ^ 1073).
Definition f1 : t := Fin one.

(** CPython's [_float_div_mod], the quotient part: [x // y] for floats. *)
Definition floordiv (x y : t) : res t :=
  if negb (nonzero y) then Raise ZeroDivisionError else
  let m := fmod x y in
  let d := div (sub x m) y in
  let d := if nonzero m && negb (Bool.eqb (is_neg y) (is_neg m))
           then sub d f1 else d in
  if nonzero d then
    let fl := floor d in
    Ok (if gt (sub d fl) half then add fl f1 else fl)
  else Ok (Fin 0).

(** CPython's [float_rem]: [x % y] for floats. *)
Definition rem (x y : t) : res t :=
  if negb (nonzero y) then Raise ZeroDivisionError else
  let m := fmod x y in
  if nonzero m then
    Ok (if negb (Bool.eqb (is_neg y) (is_neg m)) then add m y else m)
  else Ok (Fin 0).

(** The same value in the Standard Library's binary64 format, for a
    non-negative number of units. *)
Definition to_spec (n : Z) : spec_float :=
  match n with
  | Zpos p => S754_finite false p (-1074)
  | Z0 => S754_zero false
  | Zneg p => S754_finite true p (-1074)
  end.

Definition of_spec (x : spec_float) : t :=
  match x with
  | S754_zero _ => Fin 0
  | S754_infinity s => Inf s
  | S754_nan => NaN
  | S754_finite s m e =>
      let v := Zpos m * 2 ^ (e + 1074) in
      Fin (if s then - v else v)
  end.

(** Agreement of one operation with the Standard Library's IEEE-754
    specification ([prec = 53], [emax = 1024]) on two finite doubles. *)
Definition agrees (op : t -> t -> t) (sf : spec_float -> spec_float -> spec_float)
    (a b : Z) : bool :=
  bool_decide (of_spec (sf (to_spec a) (to_spec b)) = op (Fin a) (Fin b)).

(** The units of the double a decimal literal denotes. *)
Definition lit (m e : Z) : Z :=
  match of_decimal m e with Fin n => n | _ => 0 end.

End F64.

(* ================================================================== *)
(** * Python numbers and arithmetic between [int] and [float] *)

Inductive pynum :=
  | PInt (z : Z)
  | PFloat (x : F64.t).

Module PyNum.

Definition to_float (a : pynum) : res F64.t :=
  match a with
  | PInt z => F64.of_int z
  | PFloat x => Ok x
  end.

(** [a // b] *)
Definition floordiv (a b : pynum) : res pynum :=
  match a, b with
  | PInt x, PInt y =>
      if y =? 0 then Raise ZeroDivisionError else Ok (PInt (x / y))
  | _, _ =>
      let* x := to_float a in
      let* y := to_float b in
      let* q := F64.floordiv x y in
      Ok (PFloat q)
  end.

(** [a % b] *)
Definition rem (a b : pynum) : res pynum :=
  match a, b with
  | PInt x, PInt y =>
      if y =? 0 then Raise ZeroDivisionError else Ok (PInt (x mod y))
  | _, _ =>
      let* x := to_float a in
      let* y := to_float b in
      let* r := F64.rem x y in
      Ok (PFloat r)
  end.

(** [a - b] *)
Definition sub (a b : pynum) : res pynum :=
  match a, b with
  | PInt x, PInt y => Ok (PInt (x - y))
  | _, _ =>
      let* x := to_float a in
      let* y := to_float b in
      Ok (PFloat (F64.sub x y))
  end.

(** [a * b] *)
Definition mul (a b : pynum) : res pynum :=
  match a, b with
  | PInt x, PInt y => Ok (PInt (x * y))
  | _, _ =>
      let* x := to_float a in
      let* y := to_float b in
      Ok (PFloat (F64.mul x y))
  end.

(** [int(a)] *)
Definition to_int (a : pynum) : res Z :=
  match a with
  | PInt z => Ok z
  | PFloat x => F64.to_int x
  end.

(** [a > b]: an [int] and a [float] are compared by value. *)
Definition gt (a b : pynum) : bool :=
  match a, b with
  | PInt x, PInt y => y <? x
  | PFloat x, PFloat y => F64.gt x y
  | PInt x, PFloat y => F64.gt (F64.Fin (x * F64.one)) y
  | PFloat x, PInt y => F64.gt x (F64.Fin (y * F64.one))
  end.

End PyNum.

(* ================================================================== *)
(** * [format_timestamp] (chutes_handler.py, lines 64-72) *)

Definition format_timestamp (seconds : pynum) (separator : pystr) : res pystr :=
  let* h := PyNum.floordiv seconds (PInt 3600) in
  let* hours := PyNum.to_int h in
  let* r := PyNum.rem seconds (PInt 3600) in
  let* m := PyNum.floordiv r (PInt 60) in
  let* minutes := PyNum.to_int m in
  let* s := PyNum.rem seconds (PInt 60) in
  let* secs := PyNum.to_int s in
  let* i := PyNum.to_int seconds in
  let* f := PyNum.sub seconds (PInt i) in
  let* ms := PyNum.mul f (PInt 1000) in
  let* millis := PyNum.to_int ms in
  Ok (PyStr.zfill 2 hours ++ py ":" ++ PyStr.zfill 2 minutes ++ py ":"
      ++ PyStr.zfill 2 secs ++ separator ++ PyStr.zfill 3 millis).

Module Timestamp.

(** The string the last line of [format_timestamp] builds. *)
Definition render (h m s ms : Z) (sep : pystr) : pystr :=
  PyStr.zfill 2 h ++ py ":" ++ PyStr.zfill 2 m ++ py ":"
  ++ PyStr.zfill 2 s ++ sep ++ PyStr.zfill 3 ms.

(** A non-negative number of seconds: an [int], or a finite [float]. *)
Definition seconds_ok (x : pynum) : bool :=
  match x with
  | PInt z => 0 <=? z
  | PFloat (F64.Fin n) => (0 <=? n) && F64.representable n
  | PFloat _ => false
  end.

(** A number of seconds of either sign: an [int], or a [float] that is
    a finite double. *)
Definition finite (x : pynum) : bool :=
  match x with
  | PInt _ => true
  | PFloat (F64.Fin n) => F64.representable n
  | PFloat _ => false
  end.

(** The decimal digits an [int] may have to be converted to a string
    ([sys.int_info.default_max_str_digits], CPython 3.11 and later);
    [PyStr.zfill] prints an [int] of any size and does not model the
    [ValueError] of a longer one. *)
Definition max_str_digits : Z := 4300.

(** The hours of [x] are within that limit.  The hours of a [float]
    have 305 digits at most. *)
Definition printable (x : pynum) : bool :=
  match x with
  | PInt z => Z.abs (z / 3600) <? 10 ^ max_str_digits
  | PFloat _ => true
  end.

(** A number whose [float], if it is finite, is one of the doubles. *)
Definition is_double (x : pynum) : bool :=
  match x with
  | PFloat (F64.Fin n) => F64.representable n
  | _ => true
  end.

(** The exact value of a number, in units of [2^-1074] seconds. *)
Definition units (x : pynum) : Z :=
  match x with
  | PInt z => z * F64.one
  | PFloat (F64.Fin n) => n
  | PFloat _ => 0
  end.

(** Reading [HH:MM:SS<sep>mmm] back: the milliseconds it denotes.  The
    hours are any non-empty run of digits, the minutes and the seconds
    two digits, the milliseconds three. *)
Definition parse_timestamp (sep : N) (s : pystr) : option Z :=
  match PyStr.split_on 58%N s with
  | [hh; mm; rest] =>
      match PyStr.split_on sep rest with
      | [ss; mmm] =>
          if (length mm =? 2)%nat && (length ss =? 2)%nat && (length mmm =? 3)%nat then
            h ← PyStr.to_nat hh; m ← PyStr.to_nat mm;
            s ← PyStr.to_nat ss; ms ← PyStr.to_nat mmm;
            Some (((h * 60 + m) * 60 + s) * 1000 + ms)
          else None
      | _ => None
      end
  | _ => None
  end.

(** The milliseconds field of a non-negative number of seconds: the
    truncated binary64 product of the fractional second with 1000
    (line 71); an [int] has no fractional second. *)
Definition millis (x : pynum) : Z :=
  match x with
  | PFloat (F64.Fin n) =>
      match F64.mul (F64.Fin (n mod F64.one)) (F64.Fin (1000 * F64.one)) with
      | F64.Fin p => p / F64.one
      | _ => 0
      end
  | _ => 0
  end.

(** The round trip of one value to millisecond precision: the string
    reads back to a number of milliseconds less than one millisecond
    away from the value. *)
Definition round_trips (x : pynum) (sep : N) : Prop :=
  exists s t, format_timestamp x [sep] = Ok s /\ parse_timestamp sep s = Some t
              /\ Z.abs (1000 * units x - t * F64.one) < F64.one.

End Timestamp.

(* ================================================================== *)
(** * JSON documents as Python values *)

#[warnings="-register-all"]
Inductive json :=
  | JNull
  | JBool (b : bool)
  | JNum (n : pynum)
  | JStr (s : pystr)
  | JArr (l : list json)
  | JObj (m : gmap pystr json).

Module Json.

(** [bool(v)] *)
Definition truthy (v : json) : bool :=
  match v with
  | JNull => false
  | JBool b => b
  | JNum (PInt z) => negb (z =? 0)
  | JNum (PFloat x) => F64.nonzero x
  | JStr s => negb (bool_decide (s = []))
  | JArr l => negb (bool_decide (l = []))
  | JObj m => negb (bool_decide (size m = 0%nat))
  end.

(** [v.get(k, d)] *)
Definition get (v : json) (k : pystr) (d : json) : res json :=
  match v with
  | JObj m => Ok (default d (m !! k))
  | _ => Raise AttributeError
  end.

(** [v[k]] for a [str] key *)
Definition getitem (v : json) (k : pystr) : res json :=
  match v with
  | JObj m => match m !! k with Some x => Ok x | None => Raise KeyError end
  | _ => Raise TypeError
  end.

(** The items [for x in v] visits. *)
Definition iter (v : json) : res (list json) :=
  match v with
  | JArr l => Ok l
  | JStr s => Ok (map (fun c => JStr [c]) s)
  | JObj m => Ok (map (fun kv => JStr (fst kv)) (map_to_list m))
  | _ => Raise TypeError
  end.

(** A value used as a number ([bool] is an [int]). *)
Definition as_num (v : json) : res pynum :=
  match v with
  | JNum n => Ok n
  | JBool b => Ok (PInt (if b then 1 else 0))
  | _ => Raise TypeError
  end.

(** [v.strip()] *)
Definition strip (v : json) : res pystr :=
  match v with
  | JStr s => Ok (PyStr.strip s)
  | _ => Raise AttributeError
  end.

End Json.

(* ================================================================== *)
(** * Effects: an event log next to the result *)

Definition io (E A : Type) : Type := list E * res A.

Module IO.

Definition ret {E A} (a : A) : io E A := ([], Ok a).

Definition lift {E A} (r : res A) : io E A := ([], r).

Definition emit {E} (e : E) : io E unit := ([e], Ok tt).

Definition bind {E A B} (m : io E A) (k : A -> io E B) : io E B :=
  match m with
  | (tr, Ok a) => let (tr', r) := k a in (tr ++ tr', r)
  | (tr, Raise e) => (tr, Raise e)
  end.

(** [try: m except Exception: h] *)
Definition catch {E A} (m : io E A) (h : exn -> io E A) : io E A :=
  match m with
  | (tr, Ok a) => (tr, Ok a)
  | (tr, Raise e) =>
      if is_exception e then let (tr', r) := h e in (tr ++ tr', r)
      else (tr, Raise e)
  end.

End IO.

Declare Scope io_scope.
Delimit Scope io_scope with io.
Notation "'do' x '<-' m ';' k" := (IO.bind m (fun x => k))
  (at level 10, x pattern, m at level 100, k at level 200) : io_scope.
Notation "m ';;' k" := (IO.bind m (fun _ => k))
  (at level 100, k at level 200, right associativity) : io_scope.

(* ================================================================== *)
(** * [save_chutes_outputs] (chutes_handler.py, lines 74-111) *)

Inductive fs_event :=
  | EvOpen (path : pystr)
  | EvWrite (path : pystr) (chunk : pystr).

Module Out.

(** [os.path.join(a, b)] (posixpath) *)
Definition path_join (a b : pystr) : pystr :=
  if PyStr.starts_with (py "/") b then b
  else if bool_decide (a = []) || PyStr.starts_with (py "/") (rev a) then a ++ b
  else a ++ py "/" ++ b.

(** A code point the file system encoding (UTF-8 with the
    [surrogateescape] handler, as on POSIX) refuses: a surrogate outside
    U+DC80..U+DCFF. *)
Definition fs_refused (c : N) : bool :=
  (PyStr.is_surrogate c && negb ((56448 <=? c) && (c <=? 56575)))%N.

(** The exception of an [open] that fails: the path is first encoded
    for the file system ([UnicodeEncodeError]), then checked for a NUL
    ([ValueError: embedded null byte]); only then is the operating
    system asked, whose refusals are all of class [OSError]. *)
Definition open_error (path : pystr) : exn :=
  if existsb fs_refused path then UnicodeEncodeError
  else if existsb (N.eqb 0) path then ValueError
  else OSError.

Section WithFileSystem.

(** Whether [open(path, 'w')] succeeds. *)
Variable writable : pystr -> bool.

(** [open(path, 'w', encoding='utf-8')]; a failure is the exception
    of [open_error]. *)
Definition open_w (path : pystr) : io fs_event unit :=
  if writable path then IO.emit (EvOpen path)
  else IO.lift (Raise (open_error path)).

(** [f.write(s)] on a text file opened with [encoding='utf-8'] *)
Definition write (path : pystr) (s : pystr) : io fs_event unit :=
  if PyStr.encodable s then IO.emit (EvWrite path s)
  else IO.lift (Raise UnicodeEncodeError).

(** [f.write(v)] for a value that may not be a [str] *)
Definition write_value (path : pystr) (v : json) : io fs_event unit :=
  match v with
  | JStr s => write path s
  | _ => IO.lift (Raise TypeError)
  end.

(** The three reads of one loop body (lines 94-96 and 105-107). *)
Definition segment_fields (sep : pystr) (segment : json)
  : res (pystr * pystr * pystr) :=
  let* a := Json.getitem segment (py "start") in
  let* a := Json.as_num a in
  let* start := format_timestamp a sep in
  let* b := Json.getitem segment (py "end") in
  let* b := Json.as_num b in
  let* end_ := format_timestamp b sep in
  let* t := Json.getitem segment (py "text") in
  let* text := Json.strip t in
  Ok (start, end_, text).

Definition nl : pystr := [10%N].

Definition srt_chunk (i : Z) (f : pystr * pystr * pystr) : pystr :=
  let '(start, end_, text) := f in
  PyStr.of_int i ++ nl ++ start ++ py " --> " ++ end_ ++ nl ++ text ++ nl ++ nl.

Definition vtt_chunk (f : pystr * pystr * pystr) : pystr :=
  let '(start, end_, text) := f in
  start ++ py " --> " ++ end_ ++ nl ++ text ++ nl ++ nl.

(** [for i, segment in enumerate(segments, start=i): ...] (lines 93-97) *)
Fixpoint srt_loop (path : pystr) (i : Z) (segments : list json) : io fs_event unit :=
  match segments with
  | [] => IO.ret tt
  | segment :: rest =>
      (do f <- IO.lift (segment_fields (py ",") segment);
       write path (srt_chunk i f) ;;
       srt_loop path (i + 1) rest)%io
  end.

(** [for segment in segments: ...] (lines 104-108) *)
Fixpoint vtt_loop (path : pystr) (segments : list json) : io fs_event unit :=
  match segments with
  | [] => IO.ret tt
  | segment :: rest =>
      (do f <- IO.lift (segment_fields (py ".") segment);
       write path (vtt_chunk f) ;;
       vtt_loop path rest)%io
  end.

(** The block under [# Save TXT] (lines 83-86). *)
Definition save_txt (text : json) (output_dir base_filename : pystr)
    (created_files : gmap pystr pystr) : io fs_event (gmap pystr pystr) :=
  (let txt_path := path_join output_dir (base_filename ++ py ".txt") in
   open_w txt_path ;;
   write_value txt_path text ;;
   IO.ret (<[py "txt" := txt_path]> created_files))%io.

(** The block under [# Save SRT] (lines 91-98). *)
Definition save_srt (segments : json) (output_dir base_filename : pystr)
    (created_files : gmap pystr pystr) : io fs_event (gmap pystr pystr) :=
  (let srt_path := path_join output_dir (base_filename ++ py ".srt") in
   open_w srt_path ;;
   do items <- IO.lift (Json.iter segments);
   srt_loop srt_path 1 items ;;
   IO.ret (<[py "srt" := srt_path]> created_files))%io.

(** The block under [# Save VTT] (lines 101-109). *)
Definition save_vtt (segments : json) (output_dir base_filename : pystr)
    (created_files : gmap pystr pystr) : io fs_event (gmap pystr pystr) :=
  (let vtt_path := path_join output_dir (base_filename ++ py ".vtt") in
   open_w vtt_path ;;
   write vtt_path (py "WEBVTT" ++ nl ++ nl) ;;
   do items <- IO.lift (Json.iter segments);
   vtt_loop vtt_path items ;;
   IO.ret (<[py "vtt" := vtt_path]> created_files))%io.

Definition save_chutes_outputs (result : json) (output_dir base_filename : pystr)
  : io fs_event (gmap pystr pystr) :=
  (let created_files : gmap pystr pystr := ∅ in
   do text <- IO.lift (Json.get result (py "text") (JStr []));
   do created_files <-
     (if Json.truthy text
      then save_txt text output_dir base_filename created_files
      else IO.ret created_files);
   do segments <- IO.lift (Json.get result (py "segments") (JArr []));
   if Json.truthy segments then
     do created_files <- save_srt segments output_dir base_filename created_files;
     save_vtt segments output_dir base_filename created_files
   else IO.ret created_files)%io.

End WithFileSystem.

Definition event_path (e : fs_event) : pystr :=
  match e with EvOpen p | EvWrite p _ => p end.

(** An event that concerns the file at [path]. *)
Definition on (path : pystr) (e : fs_event) : Prop := event_path e = path.

(** What a file holds after the events of a log: the chunks written
    since it was last opened. *)
Fixpoint content (path : pystr) (log : list fs_event) (acc : option pystr)
  : option pystr :=
  match log with
  | [] => acc
  | EvOpen p :: log' =>
      content path log' (if bool_decide (p = path) then Some [] else acc)
  | EvWrite p c :: log' =>
      content path log' (if bool_decide (p = path) then (fun a => a ++ c) <$> acc else acc)
  end.

(** ** Typed segments, and the serialisation as the format is described *)

Record segment := {
  seg_start : pynum;
  seg_end : pynum;
  seg_text : pystr
}.

(** The JSON object [j] carries the three fields of [g]. *)
Definition has_segment (j : json) (g : segment) : Prop :=
  exists m, j = JObj m
    /\ m !! py "start" = Some (JNum (seg_start g))
    /\ m !! py "end" = Some (JNum (seg_end g))
    /\ m !! py "text" = Some (JStr (seg_text g)).

Definition seg_json (g : segment) : json :=
  JObj (<[py "start" := JNum (seg_start g)]>
        (<[py "end" := JNum (seg_end g)]>
         (<[py "text" := JStr (seg_text g)]> ∅))).

(** Times that are numbers of seconds and a text UTF-8 can carry. *)
Definition usable (g : segment) : Prop :=
  Timestamp.seconds_ok (seg_start g) = true
  /\ Timestamp.seconds_ok (seg_end g) = true
  /\ PyStr.encodable (seg_text g) = true.

(** [Segment.start <= Segment.end] *)
Definition ordered (g : segment) : Prop :=
  Timestamp.units (seg_start g) <= Timestamp.units (seg_end g).

(** [Segment.start > Segment.end] *)
Definition reversed (g : segment) : Prop :=
  PyNum.gt (seg_start g) (seg_end g) = true.

(** Times that are finite numbers, of either sign, and a text UTF-8
    can carry. *)
Definition readable (g : segment) : Prop :=
  Timestamp.finite (seg_start g) = true
  /\ Timestamp.finite (seg_end g) = true
  /\ PyStr.encodable (seg_text g) = true.

Definition ts (x : pynum) (sep : pystr) : pystr :=
  match format_timestamp x sep with Ok s => s | Raise _ => [] end.

(** One SRT block: the index line, the timing line with comma
    timestamps, the trimmed text, a blank line. *)
Definition srt_block (i : Z) (g : segment) : pystr :=
  PyStr.of_int i ++ nl
  ++ ts (seg_start g) (py ",") ++ py " --> " ++ ts (seg_end g) (py ",") ++ nl
  ++ PyStr.strip (seg_text g) ++ nl ++ nl.

(** One WebVTT block: the same without the index, with dot timestamps. *)
Definition vtt_block (g : segment) : pystr :=
  ts (seg_start g) (py ".") ++ py " --> " ++ ts (seg_end g) (py ".") ++ nl
  ++ PyStr.strip (seg_text g) ++ nl ++ nl.

Fixpoint srt_from (i : Z) (gs : list segment) : pystr :=
  match gs with
  | [] => []
  | g :: rest => srt_block i g ++ srt_from (i + 1) rest
  end.

Definition to_srt (gs : list segment) : pystr := srt_from 1 gs.

(** The writes of the two loops on typed segments. *)
Fixpoint srt_writes (path : pystr) (i : Z) (gs : list segment) : list fs_event :=
  match gs with
  | [] => []
  | g :: rest => EvWrite path (srt_block i g) :: srt_writes path (i + 1) rest
  end.

Definition vtt_writes (path : pystr) (gs : list segment) : list fs_event :=
  map (fun g => EvWrite path (vtt_block g)) gs.

Definition to_vtt (gs : list segment) : pystr :=
  py "WEBVTT" ++ nl ++ nl ++ concat (map vtt_block gs).

(** [result.get('text', '')] and [result.get('segments', [])] of a
    result that is a [dict]. *)
Definition text_value (r : gmap pystr json) : json :=
  default (JStr []) (r !! py "text").

Definition segments_value (r : gmap pystr json) : json :=
  default (JArr []) (r !! py "segments").

(** The three destinations. *)
Definition txt_path (dir base : pystr) : pystr := path_join dir (base ++ py ".txt").
Definition srt_path (dir base : pystr) : pystr := path_join dir (base ++ py ".srt").
Definition vtt_path (dir base : pystr) : pystr := path_join dir (base ++ py ".vtt").

(** A result whose [text], when present, is a string UTF-8 can carry. *)
Definition text_ok (r : gmap pystr json) : Prop :=
  match r !! py "text" with
  | None => True
  | Some (JStr s) => PyStr.encodable s = true
  | Some _ => False
  end.

Definition text_of (r : gmap pystr json) : pystr :=
  match r !! py "text" with
  | Some (JStr s) => s
  | _ => []
  end.

(** What the text part writes and records: nothing for an empty text. *)
Definition txt_events (r : gmap pystr json) (dir base : pystr) : list fs_event :=
  match text_of r with
  | [] => []
  | s => [EvOpen (txt_path dir base); EvWrite (txt_path dir base) s]
  end.

Definition txt_files (r : gmap pystr json) (dir base : pystr) : gmap pystr pystr :=
  match text_of r with
  | [] => ∅
  | _ => <[py "txt" := txt_path dir base]> ∅
  end.

Definition vtt_header : pystr := py "WEBVTT" ++ nl ++ nl.

(** A caption of zero length: the block of the segment is written and
    its two timestamps are the same. *)
Definition zero_length_caption (g : segment) : Prop :=
  exists s e t, segment_fields (py ",") (seg_json g) = Ok (s, e, t) /\ s = e.

End Out.

(* ================================================================== *)
(** * [transcribe_with_chutes] (chutes_handler.py, lines 9-62) *)

Record request := {
  req_url : pystr;
  req_authorization : pystr;
  req_content_type : pystr;
  req_language : option pystr;
  req_audio_b64 : pystr
}.

Record response := {
  status : Z;
  body_json : res json;   (* [await response.json()] *)
  body_text : res pystr   (* [await response.text()] *)
}.

(** What the collaborators answer: the file system and the HTTP client.
    A [Raise] is the exception the call raises: one of class [Exception],
    or one that is a [BaseException] only (the task is cancelled while it
    waits, the process is interrupted). *)
Record world := {
  path_exists : pystr -> bool;
  read_bytes : pystr -> res (list N);
  post : request -> res response
}.

Inductive gw_event :=
  | GwLogError
  | GwLogInfo
  | GwRead (path : pystr)
  | GwPost (r : request).

Module Gateway.

Definition b64_char (i : N) : N :=
  (if i <? 26 then 65 + i
   else if i <? 52 then 97 + (i - 26)
   else if i <? 62 then 48 + (i - 52)
   else if i =? 62 then 43 else 47)%N.

(** [base64.b64encode(bs).decode('utf-8')] *)
Fixpoint b64encode (bs : list N) : pystr :=
  match bs with
  | [] => []
  | [a] =>
      let n := (a * 65536)%N in
      [b64_char (n / 262144); b64_char ((n / 4096) mod 64); 61; 61]%N
  | [a; b] =>
      let n := (a * 65536 + b * 256)%N in
      [b64_char (n / 262144); b64_char ((n / 4096) mod 64);
       b64_char ((n / 64) mod 64); 61]%N
  | a :: b :: c :: rest =>
      let n := (a * 65536 + b * 256 + c)%N in
      [b64_char (n / 262144); b64_char ((n / 4096) mod 64);
       b64_char ((n / 64) mod 64); b64_char (n mod 64)]%N ++ b64encode rest
  end.

(** The URL, the payload and the headers (lines 22 and 33-45). *)
Definition build_request (api_token model : pystr) (language : option pystr)
    (audio_b64 : pystr) : request :=
  let url := py "https://" ++ model ++ py ".chutes.ai/transcribe" in
  let language :=
    if bool_decide (language = Some (py "auto")) then None else language in
  {| req_url := url;
     req_authorization := py "Bearer " ++ api_token;
     req_content_type := py "application/json";
     req_language := language;
     req_audio_b64 := audio_b64 |}.

(** The result is a Python value: [JNull] is [None], the failure
    indicator. *)
Definition transcribe_with_chutes (w : world)
    (audio_path api_token model : pystr) (language : option pystr)
  : io gw_event json :=
  if negb (path_exists w audio_path) then
    (IO.emit GwLogError ;; IO.ret JNull)%io
  else
    IO.catch
      (IO.emit (GwRead audio_path) ;;
       do audio_content <- IO.lift (read_bytes w audio_path);
       let audio_b64 := b64encode audio_content in
       let r := build_request api_token model language audio_b64 in
       IO.emit GwLogInfo ;;
       IO.emit (GwPost r) ;;
       do response <- IO.lift (post w r);
       if status response =? 200 then
         do result <- IO.lift (body_json response);
         IO.emit GwLogInfo ;;
         IO.ret result
       else
         do error_text <- IO.lift (body_text response);
         IO.emit GwLogError ;;
         IO.ret JNull)%io
      (fun e => (IO.emit GwLogError ;; IO.ret JNull)%io).

(** Reading base64 back: the value of one character of the alphabet,
    and the bytes of a padded text. *)
Definition b64_index (c : N) : option N :=
  (if (65 <=? c) && (c <=? 90) then Some (c - 65)
   else if (97 <=? c) && (c <=? 122) then Some (c - 97 + 26)
   else if (48 <=? c) && (c <=? 57) then Some (c - 48 + 52)
   else if c =? 43 then Some 62
   else if c =? 47 then Some 63
   else None)%N.

Fixpoint b64decode (s : pystr) : option (list N) :=
  match s with
  | [] => Some []
  | c1 :: c2 :: c3 :: c4 :: rest =>
      i1 ← b64_index c1; i2 ← b64_index c2;
      let hi := (i1 * 64 + i2)%N in
      if (c3 =? 61)%N && (c4 =? 61)%N then
        match rest with
        | [] => Some [(hi / 16)%N]
        | _ => None
        end
      else
        i3 ← b64_index c3;
        if (c4 =? 61)%N then
          match rest with
          | [] => let n := (hi * 64 + i3)%N in Some [(n / 1024)%N; ((n / 4) mod 256)%N]
          | _ => None
          end
        else
          i4 ← b64_index c4;
          let n := ((hi * 64 + i3) * 64 + i4)%N in
          tl ← b64decode rest;
          Some ((n / 65536)%N :: ((n / 256) mod 256)%N :: (n mod 256)%N :: tl)
  | _ => None
  end.

(** The characters of the base64 alphabet and the padding sign: all
    ASCII. *)
Definition b64_alphabet (c : N) : bool :=
  match b64_index c with Some _ => true | None => (c =? 61)%N end.


(** The requests sent in a log, in order, and their number. *)
Definition filter_posts (log : list gw_event) : list request :=
  omap (fun e => match e with GwPost r => Some r | _ => None end) log.





End Gateway.

(* ================================================================== *)
(** * Access control ([ConfigLoader], exercised by test_access_control.py) *)

Module AllowList.

(** Modelled from the spec: the integer conversion of one token of
    [ConfigLoader.get_allowed_group_ids] (config_loader.py is not among
    the sources): an optional sign and at least one decimal digit. *)
Definition int_of_str (s : pystr) : option Z :=
  match s with
  | [] => None
  | c :: r =>
      if (c =? 45)%N then Z.opp <$> PyStr.to_nat r
      else if (c =? 43)%N then PyStr.to_nat r
      else PyStr.to_nat s
  end.

(** Modelled from the spec: [ConfigLoader.get_allowed_group_ids]
    (config_loader.py is not among the sources).  The raw string is split
    on commas, each token is trimmed and converted, a token that fails
    conversion is dropped, the order is kept. *)
Definition get_allowed_group_ids (raw : pystr) : list Z :=
  omap (fun tok => int_of_str (PyStr.strip tok)) (PyStr.split_on 44%N raw).

(** Modelled from the spec: [ConfigLoader.is_group_allowed]
    (config_loader.py is not among the sources).  An empty allow-list
    admits every chat; otherwise membership decides. *)
Definition is_group_allowed (chat_id : Z) (allowed : list Z) : bool :=
  match allowed with
  | [] => true
  | _ => bool_decide (chat_id ∈ allowed)
  end.

(** A token that is an integer inside a margin: [l ++ str(z) ++ r]. *)
Definition padded (item : pystr * Z * pystr) : pystr :=
  let '(l, z, r) := item in l ++ PyStr.of_int z ++ r.

Definition value (item : pystr * Z * pystr) : Z :=
  let '(_, z, _) := item in z.

(** Both margins are whitespace. *)
Definition margins_ok (item : pystr * Z * pystr) : Prop :=
  let '(l, _, r) := item in
  forallb PyStr.is_space l = true /\ forallb PyStr.is_space r = true.

End AllowList.

(* ================================================================== *)
(** * Mention resolution (the handler logic test_reply_handling.py replays) *)

Record entity := {
  e_type : pystr;            (* [entity.type] *)
  e_offset : nat;
  e_length : nat;
  e_user : option pystr      (* [entity.user.username], when there is one *)
}.

Record reply := {
  voice : bool;
  audio : bool;
  document : bool
}.

Module Mention.

Definition at_handle (bot_username : pystr) : pystr := py "@" ++ bot_username.

(** One step of the entity scan: the body of the [for entity in entities]
    loops of test_reply_handling.py (lines 88-93 and 136-140). *)
Definition entity_matches (text : option pystr) (bot_username : pystr) (e : entity) : bool :=
  if bool_decide (e_type e = py "mention") then
    match text with
    | Some t =>
        bool_decide (PyStr.slice t (e_offset e) (e_offset e + e_length e)
                     = at_handle bot_username)
    | None => false
    end
  else if bool_decide (e_type e = py "text_mention") then
    bool_decide (e_user e = Some bot_username)
  else false.

(** Modelled from the spec: the mention rule of the message handler
    (the bot module is not among the sources; test_reply_handling.py
    replays its branches).  Private chats are always addressed; then the
    literal substring; then the entities in order. *)
Definition is_addressed (chat_type : pystr) (text : option pystr)
    (entities : list entity) (bot_username : pystr) : bool :=
  if bool_decide (chat_type = py "private") then true
  else if match text with
          | Some t => negb (bool_decide (t = [])) && PyStr.contains (at_handle bot_username) t
          | None => false
          end then true
  else existsb (entity_matches text bot_username) entities.

(** The text carries the literal ["@" + bot_username]. *)
Definition literal_match (text : option pystr) (bot_username : pystr) : Prop :=
  exists t a b, text = Some t /\ t = a ++ at_handle bot_username ++ b.

(** A ["mention"] entity whose slice of the text is the handle, or a
    ["text_mention"] entity whose user is the bot. *)
Definition entity_match (text : option pystr) (bot_username : pystr) (e : entity)
  : Prop :=
  (e_type e = py "mention"
   /\ exists t, text = Some t
        /\ PyStr.slice t (e_offset e) (e_offset e + e_length e)
           = at_handle bot_username)
  \/ (e_type e = py "text_mention" /\ e_user e = Some bot_username).

Definition has_reply (r : option reply) : bool :=
  match r with Some _ => true | None => false end.

Definition reply_payload_is_audio_like (r : option reply) : bool :=
  match r with
  | Some p => voice p || audio p || document p
  | None => false
  end.

(** Modelled from the spec: the admission predicate of the handler,
    [is_bot_mentioned and has_reply and reply_has_voice] in
    test_reply_handling.py (line 172). *)
Definition should_process (chat_type : pystr) (text : option pystr)
    (entities : list entity) (bot_username : pystr) (r : option reply) : bool :=
  is_addressed chat_type text entities bot_username
  && has_reply r && reply_payload_is_audio_like r.

End Mention.

(* ================================================================== *)
(** * Sample inputs *)

(** The two segments (0.0, 1.5, "Hi") and (1.5, 3.0, "there"). *)
Definition hi_there : list Out.segment :=
  [ {| Out.seg_start := PFloat (F64.of_decimal 0 0);
       Out.seg_end := PFloat (F64.of_decimal 15 (-1));
       Out.seg_text := py "Hi" |};
    {| Out.seg_start := PFloat (F64.of_decimal 15 (-1));
       Out.seg_end := PFloat (F64.of_decimal 30 (-1));
       Out.seg_text := py "there" |} ].

Definition hi_there_result : json :=
  JObj (<[py "segments" := JArr (map Out.seg_json hi_there)]> ∅).

(** A segment that ends before it starts: (5.0, 2.0, "x"). *)
Definition five_two : Out.segment :=
  {| Out.seg_start := PFloat (F64.of_decimal 5 0);
     Out.seg_end := PFloat (F64.of_decimal 2 0);
     Out.seg_text := py "x" |}.

(** A segment whose two values fall in one millisecond: (2.0005, 2.0001, "x"). *)
Definition same_millisecond : Out.segment :=
  {| Out.seg_start := PFloat (F64.of_decimal 20005 (-4));
     Out.seg_end := PFloat (F64.of_decimal 20001 (-4));
     Out.seg_text := py "x" |}.

(** A segment that starts at infinity: (inf, 2.0, "x"). *)
Definition inf_two : Out.segment :=
  {| Out.seg_start := PFloat (F64.Inf false);
     Out.seg_end := PFloat (F64.of_decimal 2 0);
     Out.seg_text := py "x" |}.

(** A segment whose text is a lone surrogate: (5.0, 2.0, "\ud800"). *)
Definition five_two_surrogate : Out.segment :=
  {| Out.seg_start := PFloat (F64.of_decimal 5 0);
     Out.seg_end := PFloat (F64.of_decimal 2 0);
     Out.seg_text := [55296%N] |}.

(** A segment at [1e20] seconds. *)
Definition far_future : Out.segment :=
  {| Out.seg_start := PFloat (F64.of_decimal 1 20);
     Out.seg_end := PFloat (F64.of_decimal 1 20);
     Out.seg_text := py "x" |}.

(** A segment from 3725.4567 to 4000 seconds. *)
Definition an_hour_in : Out.segment :=
  {| Out.seg_start := PFloat (F64.of_decimal 37254567 (-4));
     Out.seg_end := PFloat (F64.of_decimal 4000 0);
     Out.seg_text := py "x" |}.


(** A machine with one audio file, on which every request is answered
    200 with an empty result. *)
Definition one_file : world :=
  {| path_exists := fun p => bool_decide (p = py "a.ogg");
     read_bytes := fun _ => Ok [79; 103; 103]%N;
     post := fun _ => Ok {| status := 200; body_json := Ok (JObj ∅); body_text := Ok [] |} |}.


(* ================================================================== *)
(* ================================================================== *)
(** * Properties *)

Module F64Facts.
Import F64.

Lemma bits_nonneg n : 0 <= bits n.
Proof.
  unfold bits. destruct (Z.eqb_spec n 0); [lia|].
  pose proof (Z.log2_nonneg n). lia.
Qed.

Lemma bits_spec n : 0 < n -> 2 ^ (bits n - 1) <= n < 2 ^ bits n.
Proof.
  intros Hn. unfold bits. destruct (Z.eqb_spec n 0); [lia|].
  replace (Z.log2 n + 1 - 1) with (Z.log2 n) by lia.
  replace (Z.log2 n + 1) with (Z.succ (Z.log2 n)) by lia.
  apply Z.log2_spec; lia.
Qed.

Lemma bits_le_mono a b : 0 <= a <= b -> bits a <= bits b.
Proof.
  intros [Ha Hab]. unfold bits.
  destruct (Z.eqb_spec a 0), (Z.eqb_spec b 0); try lia.
  - pose proof (Z.log2_nonneg b). lia.
  - pose proof (Z.log2_le_mono a b Hab). lia.
Qed.

Lemma bits_lt_pow n k : 0 <= n -> 0 <= k -> n < 2 ^ k -> bits n <= k.
Proof.
  intros Hn Hk Hlt. unfold bits. destruct (Z.eqb_spec n 0); [lia|].
  assert (Z.log2 n < k) by (apply Z.log2_lt_pow2; lia). lia.
Qed.

Lemma bits_ge_pow n k : 0 <= k -> 2 ^ k <= n -> k + 1 <= bits n.
Proof.
  intros Hk Hle. assert (0 < 2 ^ k) by (apply Z.pow_pos_nonneg; lia).
  unfold bits. destruct (Z.eqb_spec n 0); [lia|].
  assert (k <= Z.log2 n) by (apply Z.log2_le_pow2; lia). lia.
Qed.

Lemma pow2_pos k : 0 <= k -> 0 < 2 ^ k.
Proof. intros. apply Z.pow_pos_nonneg; lia. Qed.

Lemma pow2_split a b : 0 <= a -> 0 <= b -> 2 ^ (a + b) = 2 ^ a * 2 ^ b.
Proof. intros. apply Z.pow_add_r; lia. Qed.

(** ** Rounding to the nearest integer *)

Lemma rne_lo a d : 0 < d -> a / d <= rne a d.
Proof. intros. unfold rne. destruct (_ || _); lia. Qed.

Lemma rne_hi a d : 0 < d -> rne a d <= a / d + 1.
Proof. intros. unfold rne. destruct (_ || _); lia. Qed.

Lemma rne_exact a d : 0 < d -> a mod d = 0 -> rne a d = a / d.
Proof.
  intros Hd Hm. unfold rne. rewrite Hm.
  replace (d <? 2 * 0) with false by (symmetry; apply Z.ltb_ge; lia).
  replace (2 * 0 =? d) with false by (symmetry; apply Z.eqb_neq; lia).
  reflexivity.
Qed.

Lemma rne_err a d : 0 < d -> 2 * Z.abs (rne a d * d - a) <= d.
Proof.
  intros Hd. unfold rne.
  pose proof (Z.div_mod a d ltac:(lia)) as E.
  pose proof (Z.mod_pos_bound a d Hd) as B.
  destruct (Z.ltb_spec d (2 * (a mod d))); simpl.
  - nia.
  - destruct (Z.eqb_spec (2 * (a mod d)) d); simpl.
    + destruct (Z.odd (a / d)); nia.
    + nia.
Qed.

Lemma rne_le_of_lt a d k : 0 < d -> a < k * d -> rne a d <= k.
Proof.
  intros Hd Hlt. pose proof (rne_hi a d Hd).
  assert (a / d < k) by (apply Z.div_lt_upper_bound; lia). lia.
Qed.

(** ** Rounding to the nearest double *)

Lemma pow2_divide a b : 0 <= a <= b -> (2 ^ a | 2 ^ b).
Proof.
  intros [Ha Hab]. exists (2 ^ (b - a)).
  rewrite <- Z.pow_add_r by lia. f_equal. lia.
Qed.

Lemma mod_pow2_weaken x a b : 0 <= a <= b -> x mod 2 ^ b = 0 -> x mod 2 ^ a = 0.
Proof.
  intros Hab Hx. pose proof (pow2_pos a ltac:(lia)). pose proof (pow2_pos b ltac:(lia)).
  apply Z.mod_divide in Hx; [|lia]. apply Z.mod_divide; [lia|].
  eapply Z.divide_trans; [apply (pow2_divide a b Hab)|exact Hx].
Qed.

Lemma round_pos_le a b B :
  0 <= a -> 0 < b -> dbl B -> a <= B * b -> round_pos a b <= B.
Proof.
  intros Ha Hb [HB0 HBm] Hle. unfold round_pos.
  set (q := a / b). set (sh := Z.max 0 (bits q - 53)).
  assert (Hq : 0 <= q) by (apply Z.div_pos; lia).
  assert (HqB : q <= B) by (apply Z.div_le_upper_bound; nia).
  pose proof (bits_le_mono q B ltac:(lia)) as Hbits.
  assert (Hsh : 0 <= sh) by lia.
  pose proof (pow2_pos sh Hsh) as HP.
  assert (HBP : B mod 2 ^ sh = 0) by (eapply mod_pow2_weaken; [|exact HBm]; lia).
  set (P := 2 ^ sh) in *.
  assert (HBk : B = B / P * P).
  { pose proof (Z.div_mod B P ltac:(lia)). lia. }
  assert (Hd : 0 < b * P) by nia.
  destruct (Z.eq_dec a (B * b)) as [->|Hne].
  - rewrite rne_exact; [|lia|].
    + rewrite HBk at 1. replace (B / P * P * b) with (B / P * (b * P)) by ring.
      rewrite Z.div_mul by lia. lia.
    + rewrite HBk. replace (B / P * P * b) with (B / P * (b * P)) by ring.
      apply Z.mod_mul. lia.
  - assert (rne a (b * P) <= B / P).
    { apply rne_le_of_lt; [lia|]. nia. }
    nia.
Qed.

Lemma round_pos_ge a b B :
  0 <= a -> 0 < b -> dbl B -> B * b <= a -> B <= round_pos a b.
Proof.
  intros Ha Hb [HB0 HBm] Hle. unfold round_pos.
  set (q := a / b). set (sh := Z.max 0 (bits q - 53)).
  assert (HqB : B <= q) by (apply Z.div_le_lower_bound; nia).
  pose proof (bits_le_mono B q ltac:(lia)) as Hbits.
  assert (Hsh : 0 <= sh) by lia.
  pose proof (pow2_pos sh Hsh) as HP.
  assert (Hd : 0 < b * 2 ^ sh) by nia.
  pose proof (rne_lo a (b * 2 ^ sh) Hd) as Hlo.
  rewrite <- Z.div_div in Hlo by lia. fold q in Hlo.
  enough (B <= q / 2 ^ sh * 2 ^ sh) by nia.
  destruct (Z.eq_dec (bits B) (bits q)) as [Heq|Hne].
  - assert (HBP : B mod 2 ^ sh = 0).
    { unfold sh. rewrite <- Heq. exact HBm. }
    pose proof (Z.div_mod B (2 ^ sh) ltac:(lia)) as E.
    assert (B / 2 ^ sh <= q / 2 ^ sh) by (apply Z.div_le_mono; lia).
    nia.
  - destruct (Z.eq_dec B 0) as [->|HB]; [apply Z.mul_nonneg_nonneg; [apply Z.div_pos|]; lia|].
    assert (Hq0 : 0 < q) by lia.
    pose proof (bits_spec B ltac:(lia)) as [_ HBlt].
    pose proof (bits_spec q Hq0) as [Hqge _].
    pose proof (bits_nonneg B).
    assert (2 ^ bits B <= 2 ^ (bits q - 1)) by (apply Z.pow_le_mono_r; lia).
    destruct (Z.eq_dec sh 0) as [E0|E0].
    + rewrite E0. simpl. rewrite Z.div_1_r. lia.
    + assert (Hs : bits q - 1 = 52 + sh) by lia.
      rewrite Hs in *. rewrite Z.pow_add_r in * by lia.
      assert (2 ^ 52 <= q / 2 ^ sh) by (apply Z.div_le_lower_bound; lia).
      nia.
Qed.

Lemma round_pos_exact b B : 0 < b -> dbl B -> round_pos (B * b) b = B.
Proof.
  intros Hb HB. pose proof HB as [HB0 _].
  apply Z.le_antisymm.
  - apply round_pos_le; auto; nia.
  - apply round_pos_ge; auto; nia.
Qed.

Lemma round_pos_err a b :
  0 <= a -> 0 < b ->
  2 * Z.abs (round_pos a b * b - a) <= b * 2 ^ Z.max 0 (bits (a / b) - 53).
Proof.
  intros Ha Hb. unfold round_pos.
  set (sh := Z.max 0 (bits (a / b) - 53)).
  pose proof (pow2_pos sh ltac:(lia)) as HP.
  pose proof (rne_err a (b * 2 ^ sh) ltac:(nia)) as E.
  replace (rne a (b * 2 ^ sh) * 2 ^ sh * b) with (rne a (b * 2 ^ sh) * (b * 2 ^ sh)) by ring.
  exact E.
Qed.

Lemma dbl_0 : dbl 0.
Proof. split; [lia|]. apply Z.mod_0_l. vm_compute. discriminate. Qed.

Lemma round_pos_nonneg a b : 0 <= a -> 0 < b -> 0 <= round_pos a b.
Proof.
  intros Ha Hb. apply round_pos_ge; auto using dbl_0; lia.
Qed.

Lemma round_fin a b :
  0 <= a -> 0 < b -> round_pos a b < top -> round a b = Fin (round_pos a b).
Proof.
  intros Ha Hb Hlt. unfold round. rewrite Z.abs_eq by lia.
  destruct (Z.leb_spec top (round_pos a b)); [lia|].
  f_equal. destruct (Z.eq_dec a 0) as [->|Hne].
  - simpl. pose proof (round_pos_le 0 b 0 ltac:(lia) Hb dbl_0 ltac:(lia)) as H1.
    pose proof (round_pos_nonneg 0 b ltac:(lia) Hb). lia.
  - rewrite Z.sgn_pos by lia. lia.
Qed.

Lemma dbl_of_multiple x e :
  0 <= x -> 0 <= e -> x mod 2 ^ e = 0 -> x < 2 ^ (53 + e) -> dbl x.
Proof.
  intros Hx He Hm Hlt. split; [lia|].
  pose proof (bits_lt_pow x (53 + e) Hx ltac:(lia) Hlt).
  eapply mod_pow2_weaken; [|exact Hm]. lia.
Qed.

Lemma representable_dbl n :
  0 <= n -> representable n = true <-> dbl n /\ n < top.
Proof.
  intros Hn. unfold representable, dbl. rewrite Z.abs_eq by lia.
  rewrite andb_true_iff, Z.ltb_lt, Z.eqb_eq. tauto.
Qed.

(** ** The operations on non-negative doubles *)

Lemma one_pos : 0 < one.
Proof. apply pow2_pos. lia. Qed.

Lemma one_eq : one = 2 ^ 1074.
Proof. reflexivity. Qed.

Lemma top_eq : top = 2 ^ 1024 * one.
Proof. unfold top, one. rewrite <- Z.pow_add_r by lia. reflexivity. Qed.

Lemma dbl_int k : 0 <= k < 2 ^ 53 -> dbl (k * one).
Proof.
  intros [Hk Hlt]. pose proof one_pos.
  apply (dbl_of_multiple _ 1074); try lia.
  - rewrite <- one_eq. apply Z.mod_mul. lia.
  - rewrite Z.pow_add_r, <- one_eq by lia. nia.
Qed.

Lemma int_lt_top k : 0 <= k < 2 ^ 53 -> k * one < top.
Proof.
  intros. rewrite top_eq. pose proof one_pos.
  assert (2 ^ 53 < 2 ^ 1024) by (apply Z.pow_lt_mono_r; lia). nia.
Qed.

Lemma round_int k : 0 <= k < 2 ^ 53 -> round (k * one) 1 = Fin (k * one).
Proof.
  intros Hk. pose proof one_pos. pose proof (int_lt_top k Hk).
  pose proof (round_pos_exact 1 (k * one) ltac:(lia) (dbl_int k Hk)) as E.
  rewrite Z.mul_1_r in E.
  rewrite round_fin; [congruence|nia|lia|lia].
Qed.

Lemma round_exact n : dbl n -> n < top -> round n 1 = Fin n.
Proof.
  intros Hd Hlt. pose proof Hd as [H0 _].
  pose proof (round_pos_exact 1 n ltac:(lia) Hd) as E.
  rewrite Z.mul_1_r in E.
  rewrite round_fin; [congruence|lia|lia|lia].
Qed.

Lemma rem_nonneg n W :
  0 <= n -> 0 < W -> rem (Fin n) (Fin W) = Ok (Fin (n mod W)).
Proof.
  intros Hn HW. unfold rem, fmod, nonzero.
  destruct (Z.eqb_spec W 0); [lia|]. simpl.
  rewrite Z.rem_mod_nonneg by lia.
  pose proof (Z.mod_pos_bound n W HW).
  destruct (Z.eqb_spec (n mod W) 0) as [->|]; simpl; [reflexivity|].
  destruct (Z.ltb_spec W 0); [lia|].
  destruct (Z.ltb_spec (n mod W) 0); [lia|]. reflexivity.
Qed.

Lemma to_int_nonneg r : 0 <= r -> to_int (Fin r) = Ok (r / one).
Proof.
  intros. simpl. rewrite Z.quot_div_nonneg; auto using one_pos.
Qed.

Lemma sub_fin a b : sub (Fin a) (Fin b) = round (a - b) 1.
Proof. reflexivity. Qed.

Lemma div_fin_pos a b : 0 < b -> div (Fin a) (Fin b) = round (a * one) b.
Proof.
  intros. simpl. rewrite Z.sgn_pos, Z.abs_eq by lia. f_equal. lia.
Qed.

Lemma round_0 : round 0 1 = Fin 0.
Proof. reflexivity. Qed.

(** Below [2^53] the quotient of [//] is the exact floor. *)
Lemma floordiv_exact n w :
  0 <= n < 2 ^ 53 * one -> 0 < w ->
  floordiv (Fin n) (Fin (w * one)) = Ok (Fin (n / (w * one) * one)).
Proof.
  intros [Hn Hlt] Hw. pose proof one_pos as H1.
  set (W := w * one). assert (HW : 0 < W) by (unfold W; nia).
  set (q := n / W).
  pose proof (Z.div_mod n W ltac:(lia)) as E. fold q in E.
  pose proof (Z.mod_pos_bound n W HW) as Hm.
  assert (Hq : 0 <= q) by (apply Z.div_pos; lia).
  assert (Hqw : 0 <= q * w < 2 ^ 53) by (unfold W in *; nia).
  assert (Hq53 : 0 <= q < 2 ^ 53) by nia.
  unfold floordiv.
  assert (HnzW : nonzero (Fin W) = true).
  { simpl. destruct (Z.eqb_spec W 0); [lia|reflexivity]. }
  rewrite HnzW. change (negb true) with false. cbv iota zeta.
  assert (Hfm : fmod (Fin n) (Fin W) = Fin (n mod W)).
  { simpl. destruct (Z.eqb_spec W 0); [lia|]. rewrite Z.rem_mod_nonneg by lia. reflexivity. }
  assert (Hd : div (sub (Fin n) (Fin (n mod W))) (Fin W) = Fin (q * one)).
  { rewrite sub_fin.
    replace (n - n mod W) with (q * w * one) by (unfold W in *; lia).
    rewrite round_int by lia.
    rewrite div_fin_pos by lia.
    replace (q * w * one * one) with (q * one * W) by (unfold W; ring).
    rewrite round_fin; rewrite ?round_pos_exact;
      auto using dbl_int, int_lt_top; nia. }
  rewrite Hfm, Hd.
  assert (Hadj : nonzero (Fin (n mod W))
                 && negb (Bool.eqb (is_neg (Fin W)) (is_neg (Fin (n mod W)))) = false).
  { simpl. destruct (Z.ltb_spec W 0); [lia|].
    destruct (Z.ltb_spec (n mod W) 0); [lia|]. apply andb_false_r. }
  rewrite Hadj.
  unfold nonzero. destruct (Z.eqb_spec (q * one) 0) as [E0|E0]; simpl negb; cbv iota.
  - rewrite E0. reflexivity.
  - unfold floor. rewrite Z.div_mul by lia. rewrite sub_fin, Z.sub_diag, round_0.
    unfold gt, half. destruct (Z.ltb_spec (2 ^ 1073) 0); [|reflexivity].
    pose proof (pow2_pos 1073 ltac:(lia)). lia.
Qed.

Lemma dbl_big1 : dbl big1.
Proof. split; [intro H; vm_compute in H; discriminate|vm_compute; reflexivity]. Qed.

Lemma dbl_big2 : dbl big2.
Proof. split; [intro H; vm_compute in H; discriminate|vm_compute; reflexivity]. Qed.

Lemma big_facts :
  top = 2 * big1 /\ big2 < top /\ big1 + one <= big2 /\ 0 < big1.
Proof.
  repeat split; try (vm_compute; reflexivity).
  intro H; vm_compute in H; discriminate.
Qed.

(** On every finite non-negative double [//] returns a finite
    non-negative double. *)
Lemma floordiv_bounds n w :
  dbl n -> n < top -> 2 <= w < 2 ^ 53 ->
  exists r, floordiv (Fin n) (Fin (w * one)) = Ok (Fin r) /\ 0 <= r < top /\
    forall K, 0 <= K -> (K + 1) * w <= 2 ^ 53 -> 2 ^ 53 * one <= n -> K * one <= r.
Proof.
  intros Hd Htop Hw. pose proof Hd as [Hn _]. pose proof one_pos as H1.
  destruct big_facts as (Et & Hb2 & Hone & Hb1).
  set (W := w * one). assert (HW : 0 < W) by (unfold W; nia).
  pose proof (Z.div_mod n W ltac:(lia)) as E.
  pose proof (Z.mod_pos_bound n W HW) as Hm.
  assert (Hq : 0 <= n / W) by (apply Z.div_pos; lia).
  unfold floordiv.
  assert (HnzW : nonzero (Fin W) = true).
  { simpl. destruct (Z.eqb_spec W 0); [lia|reflexivity]. }
  rewrite HnzW. change (negb true) with false. cbv iota zeta.
  assert (Hfm : fmod (Fin n) (Fin W) = Fin (n mod W)).
  { simpl. destruct (Z.eqb_spec W 0); [lia|]. rewrite Z.rem_mod_nonneg by lia. reflexivity. }
  rewrite Hfm.
  (* x - mod *)
  set (r1 := round_pos (n - n mod W) 1).
  assert (Hr1 : 0 <= r1 <= n).
  { split; [apply round_pos_nonneg; lia|apply round_pos_le; auto; lia]. }
  assert (Hs : sub (Fin n) (Fin (n mod W)) = Fin r1).
  { rewrite sub_fin. apply round_fin; fold r1; lia. }
  rewrite Hs.
  (* (x - mod) / y *)
  set (r2 := round_pos (r1 * one) W).
  assert (Hr2 : 0 <= r2 <= big1).
  { split; [apply round_pos_nonneg; nia|].
    apply round_pos_le; auto using dbl_big1; unfold W; nia. }
  assert (Hdv : div (Fin r1) (Fin W) = Fin r2).
  { rewrite div_fin_pos by lia. apply round_fin; fold r2; nia. }
  rewrite Hdv.
  assert (Hadj : nonzero (Fin (n mod W))
                 && negb (Bool.eqb (is_neg (Fin W)) (is_neg (Fin (n mod W)))) = false).
  { simpl. destruct (Z.ltb_spec W 0); [lia|].
    destruct (Z.ltb_spec (n mod W) 0); [lia|]. apply andb_false_r. }
  rewrite Hadj.
  (* lower bounds, when the value is large *)
  assert (Hlow1 : 2 ^ 53 * one <= n -> (2 ^ 53 - w) * one <= r1).
  { intros Hbig. apply round_pos_ge; try (unfold W in *; nia).
    apply dbl_int. lia. }
  assert (Hlow2 : forall K, 0 <= K -> (K + 1) * w <= 2 ^ 53 -> 2 ^ 53 * one <= n ->
                            K * one <= r2).
  { intros K HK HKw Hbig. specialize (Hlow1 Hbig).
    assert (HKw' : K * w <= 2 ^ 53 - w) by lia.
    assert (K * w * one <= (2 ^ 53 - w) * one)
      by (apply Z.mul_le_mono_nonneg_r; lia).
    apply round_pos_ge.
    - apply Z.mul_nonneg_nonneg; lia.
    - exact HW.
    - apply dbl_int. split; [lia|]. clear - HK HKw Hw. nia.
    - unfold W. replace (K * one * (w * one)) with (K * w * one * one) by ring.
      apply Z.mul_le_mono_nonneg_r; lia. }
  unfold nonzero. destruct (Z.eqb_spec r2 0) as [E0|E0]; simpl negb; cbv iota.
  - exists 0. split; [reflexivity|]. split; [lia|].
    intros K HK HKw Hbig. specialize (Hlow2 K HK HKw Hbig). lia.
  - set (fl := r2 / one * one).
    assert (Hfl : 0 <= fl <= r2).
    { unfold fl. pose proof (Z.div_mod r2 one ltac:(lia)).
      pose proof (Z.mod_pos_bound r2 one H1).
      assert (0 <= r2 / one) by (apply Z.div_pos; lia). nia. }
    assert (Hlowf : forall K, 0 <= K -> (K + 1) * w <= 2 ^ 53 -> 2 ^ 53 * one <= n ->
                              K * one <= fl).
    { intros K HK HKw Hbig. specialize (Hlow2 K HK HKw Hbig).
      unfold fl. assert (K <= r2 / one) by (apply Z.div_le_lower_bound; lia). nia. }
    unfold floor. fold fl.
    destruct (gt (sub (Fin r2) (Fin fl)) half).
    + set (r4 := round_pos (fl + one) 1).
      assert (Hr4 : 0 <= r4 <= big2 /\
                    forall K, 0 <= K < 2 ^ 53 -> K * one <= fl -> K * one <= r4).
      { split; [split|].
        - apply round_pos_nonneg; lia.
        - apply round_pos_le; auto using dbl_big2; lia.
        - intros K HK HKf. apply round_pos_ge; auto using dbl_int; lia. }
      exists r4. split.
      { unfold add, f1. f_equal. apply round_fin; fold r4; lia. }
      split; [lia|].
      intros K HK HKw Hbig. apply Hr4; [nia|]. apply Hlowf; auto.
    + exists fl. split; [reflexivity|]. split; [lia|]. exact Hlowf.
Qed.

(** ** Integer and fractional part *)

Lemma dbl_lt_pow n : dbl n -> n < 2 ^ (53 + Z.max 0 (bits n - 53)).
Proof.
  intros [Hn _]. destruct (Z.eq_dec n 0) as [->|Hne].
  - apply pow2_pos. lia.
  - pose proof (bits_spec n ltac:(lia)) as [_ Hlt].
    eapply Z.lt_le_trans; [exact Hlt|]. apply Z.pow_le_mono_r; lia.
Qed.

Lemma dbl_floor_frac n : dbl n -> dbl (n / one * one) /\ dbl (n mod one).
Proof.
  intros Hd. pose proof Hd as [Hn Hm]. pose proof one_pos as H1.
  pose proof (dbl_lt_pow n Hd) as Hlt.
  set (s := Z.max 0 (bits n - 53)) in *.
  pose proof (Z.div_mod n one ltac:(lia)) as E.
  pose proof (Z.mod_pos_bound n one H1) as Hb.
  assert (Hq : 0 <= n / one) by (apply Z.div_pos; lia).
  destruct (Z.le_gt_cases 1074 s) as [Hs|Hs].
  - assert (E0 : n mod one = 0).
    { rewrite one_eq. eapply mod_pow2_weaken; [|exact Hm]. lia. }
    rewrite E0. split; [|exact dbl_0].
    replace (n / one * one) with n by lia. exact Hd.
  - assert (Hx : (n / one * one) mod 2 ^ s = 0).
    { apply Z.mod_divide; [pose proof (pow2_pos s ltac:(lia)); lia|].
      apply Z.divide_mul_r. rewrite one_eq. apply pow2_divide. lia. }
    assert (Hy : (n mod one) mod 2 ^ s = 0).
    { apply Z.mod_divide; [pose proof (pow2_pos s ltac:(lia)); lia|].
      replace (n mod one) with (n - n / one * one) by lia.
      apply Z.divide_sub_r.
      - apply Z.mod_divide; [pose proof (pow2_pos s ltac:(lia)); lia|exact Hm].
      - apply Z.mod_divide; [pose proof (pow2_pos s ltac:(lia)); lia|exact Hx]. }
    split; apply (dbl_of_multiple _ s); lia.
Qed.

Lemma one_lt_top : one < top.
Proof. vm_compute. reflexivity. Qed.

Lemma of_int_floor n :
  dbl n -> n < top -> of_int (n / one) = Ok (Fin (n / one * one)).
Proof.
  intros Hd Hlt. pose proof Hd as [Hn _]. pose proof one_pos as H1.
  destruct (dbl_floor_frac n Hd) as [Hx _].
  pose proof (Z.div_mod n one ltac:(lia)) as E.
  pose proof (Z.mod_pos_bound n one H1) as Hb.
  unfold of_int. rewrite round_exact; auto. lia.
Qed.

Lemma sub_floor n :
  dbl n -> n < top -> sub (Fin n) (Fin (n / one * one)) = Fin (n mod one).
Proof.
  intros Hd Hlt. pose proof Hd as [Hn _]. pose proof one_pos as H1.
  destruct (dbl_floor_frac n Hd) as [_ Hy].
  pose proof (Z.div_mod n one ltac:(lia)) as E.
  pose proof (Z.mod_pos_bound n one H1) as Hb.
  rewrite sub_fin. replace (n - n / one * one) with (n mod one) by lia.
  pose proof one_lt_top.
  apply round_exact; auto. lia.
Qed.

(** ** The product with [1000] *)

Lemma grain_facts : one = 2 ^ 53 * grain /\ 0 < grain /\ 2 ^ 1030 = 512 * grain
                    /\ 2 ^ 1073 = 2 ^ 52 * grain /\ 1000 * one < top.
Proof.
  repeat split; try (vm_compute; reflexivity).
Qed.

Lemma frac_le F : dbl F -> F < one -> F <= one - grain.
Proof.
  intros [HF Hm] Hlt. destruct grain_facts as (E1 & Hg & _ & E73 & _).
  destruct (Z.lt_ge_cases F (2 ^ 1073)) as [Hs|Hs].
  - rewrite E73 in Hs. rewrite E1. lia.
  - assert (Hb : bits F = 1074).
    { pose proof (bits_ge_pow F 1073 ltac:(lia) Hs).
      pose proof (bits_lt_pow F 1074 HF ltac:(lia) Hlt). lia. }
    rewrite Hb in Hm. change (Z.max 0 (1074 - 53)) with 1021 in Hm.
    fold grain in Hm.
    pose proof (Z.div_mod F grain ltac:(lia)) as E.
    rewrite Hm in E. rewrite E1 in *.
    assert (F / grain < 2 ^ 53) by (apply Z.div_lt_upper_bound; lia).
    nia.
Qed.

Lemma mul_1000 F :
  dbl F -> F < one ->
  exists P, mul (Fin F) (Fin (1000 * one)) = Fin P /\
            1000 * F / one * one <= P /\ P < 1000 * one /\
            P <= 1000 * F + one / 2 ^ 44.
Proof.
  intros Hd Hlt. pose proof Hd as [HF _]. pose proof one_pos as H1.
  pose proof (frac_le F Hd Hlt) as Hle.
  destruct grain_facts as (E1 & Hg & E30 & _ & Htop).
  assert (Ehalf : one / 2 ^ 44 = 2 ^ 1030) by (vm_compute; reflexivity).
  rewrite Ehalf.
  set (a := F * (1000 * one)).
  assert (Ha : 0 <= a) by (unfold a; nia).
  assert (Eq : a / one = 1000 * F).
  { unfold a. replace (F * (1000 * one)) with (1000 * F * one) by ring.
    apply Z.div_mul. lia. }
  exists (round_pos a one).
  assert (Herr : round_pos a one <= 1000 * F + 2 ^ 1030).
  { pose proof (round_pos_err a one Ha H1) as Herr. rewrite Eq in Herr.
    assert (Hb : bits (1000 * F) <= 1084).
    { assert (1000 * one < 2 ^ 1084) by (vm_compute; reflexivity).
      apply bits_lt_pow; lia. }
    assert (Hp : 2 ^ Z.max 0 (bits (1000 * F) - 53) <= 2 ^ 1031)
      by (apply Z.pow_le_mono_r; lia).
    assert (E31 : 2 ^ 1031 = 2 * 2 ^ 1030) by (vm_compute; reflexivity).
    rewrite E31 in Hp. clear E31.
    set (e := 2 ^ 1030) in *. set (p := 2 ^ Z.max 0 (bits (1000 * F) - 53)) in *.
    set (R := round_pos a one) in *.
    assert (one * p <= one * (2 * e)) by (apply Z.mul_le_mono_nonneg_l; lia).
    assert (2 * (R * one - a) <= one * (2 * e)) by lia.
    assert (Ea : a = 1000 * F * one) by (unfold a; ring).
    assert (Hfin : (R - (1000 * F + e)) * one <= 0) by (rewrite Ea in *; lia).
    clearbody e p R. clear - Hfin H1. nia. }
  assert (Hup : round_pos a one < 1000 * one) by (rewrite E30 in Herr; lia).
  split; [|split; [|split]]; auto.
  - unfold mul. fold a. apply round_fin; lia.
  - apply round_pos_ge; try lia.
    + apply dbl_int. split.
      * apply Z.div_pos; lia.
      * assert (1000 * F / one < 1000) by (apply Z.div_lt_upper_bound; lia). lia.
    + unfold a. pose proof (Z.div_mod (1000 * F) one ltac:(lia)).
      pose proof (Z.mod_pos_bound (1000 * F) one H1).
      replace (F * (1000 * one)) with (1000 * F * one) by ring.
      apply Z.mul_le_mono_nonneg_r; lia.
Qed.

End F64Facts.

Module TimestampFacts.
Import F64 F64Facts Timestamp.

Lemma of_int_small k : 0 <= k < 2 ^ 53 -> F64.of_int k = Ok (Fin (k * one)).
Proof. intros Hk. unfold F64.of_int. rewrite round_int by exact Hk. reflexivity. Qed.

Lemma format_int z sep :
  0 <= z ->
  format_timestamp (PInt z) sep
  = Ok (render (z / 3600) (z mod 3600 / 60) (z mod 60) 0 sep).
Proof.
  intros Hz. unfold format_timestamp, PyNum.floordiv, PyNum.rem, PyNum.sub, PyNum.mul.
  cbn [rbind PyNum.to_int Z.eqb].
  rewrite Z.sub_diag. reflexivity.
Qed.

Lemma format_float n sep :
  dbl n -> n < top ->
  exists h P,
    format_timestamp (PFloat (Fin n)) sep
    = Ok (render h (n mod (3600 * one) / (60 * one)) (n mod (60 * one) / one)
                 (P / one) sep)
    /\ 0 <= h
    /\ (n < 2 ^ 53 * one -> h = n / (3600 * one))
    /\ (360000 * one <= n -> 100 <= h)
    /\ mul (Fin (n mod one)) (Fin (1000 * one)) = Fin P
    /\ 1000 * (n mod one) / one * one <= P < 1000 * one
    /\ P <= 1000 * (n mod one) + one / 2 ^ 44.
Proof.
  intros Hd Htop. pose proof Hd as [Hn _]. pose proof one_pos as H1.
  (* hours *)
  assert (Hh : exists r, floordiv (Fin n) (Fin (3600 * one)) = Ok (Fin r) /\ 0 <= r
               /\ (n < 2 ^ 53 * one -> r / one = n / (3600 * one))
               /\ (360000 * one <= n -> 100 <= r / one)).
  { destruct (Z.lt_ge_cases n (2 ^ 53 * one)) as [Hs|Hb].
    - exists (n / (3600 * one) * one).
      assert (0 <= n / (3600 * one)) by (apply Z.div_pos; lia).
      rewrite floordiv_exact by lia. rewrite Z.div_mul by lia.
      repeat split; auto; try nia.
      intros Hge. apply Z.div_le_lower_bound; lia.
    - destruct (floordiv_bounds n 3600 Hd Htop ltac:(lia)) as (r & E & Hr & HK).
      exists r. repeat split; auto; try lia.
      intros _. specialize (HK 100 ltac:(lia) ltac:(lia) Hb).
      apply Z.div_le_lower_bound; lia. }
  destruct Hh as (r & Eh & Hr & Hex & Hbig).
  (* fraction and milliseconds *)
  destruct (dbl_floor_frac n Hd) as [_ HdF].
  pose proof (Z.mod_pos_bound n one H1) as HF.
  destruct (mul_1000 (n mod one) HdF ltac:(lia)) as (P & EP & HP1 & HP2 & HP3).
  exists (r / one), P.
  assert (HP0 : 0 <= P).
  { assert (0 <= 1000 * (n mod one) / one) by (apply Z.div_pos; lia). nia. }
  split; [|repeat split; auto; try lia; apply Z.div_pos; lia].
  unfold format_timestamp, PyNum.floordiv, PyNum.rem, PyNum.sub, PyNum.mul, PyNum.to_float.
  rewrite !of_int_small by lia. cbn [rbind].
  rewrite Eh. cbn [rbind PyNum.to_int]. rewrite to_int_nonneg by lia. cbn [rbind].
  rewrite rem_nonneg by lia. cbn [rbind].
  pose proof (Z.mod_pos_bound n (3600 * one) ltac:(lia)) as Hm36.
  rewrite floordiv_exact by lia. cbn [rbind PyNum.to_int].
  rewrite to_int_nonneg by (apply Z.mul_nonneg_nonneg; [apply Z.div_pos|]; lia).
  rewrite Z.div_mul by lia. cbn [rbind].
  rewrite rem_nonneg by lia. cbn [rbind PyNum.to_int].
  pose proof (Z.mod_pos_bound n (60 * one) ltac:(lia)) as Hm60.
  rewrite to_int_nonneg by lia. cbn [rbind].
  rewrite to_int_nonneg by lia. cbn [rbind].
  rewrite of_int_floor by auto. cbn [rbind].
  rewrite sub_floor by auto. rewrite EP. cbn [rbind PyNum.to_int].
  rewrite to_int_nonneg by lia. cbn [rbind]. reflexivity.
Qed.

End TimestampFacts.

Module PyStrFacts.
Import PyStr.

(** ** Decimal digits *)

Lemma digit_spec d :
  0 <= d < 10 -> is_digit (digit d) = true /\ Z.of_N (digit d) - 48 = d.
Proof.
  intros Hd. unfold is_digit, digit. split.
  - apply andb_true_iff. split; apply N.leb_le; lia.
  - lia.
Qed.

Lemma digits_val_snoc l : forall acc c,
  digits_val acc (l ++ [c])
  = match digits_val acc l with
    | Some x => if is_digit c then Some (x * 10 + (Z.of_N c - 48)) else None
    | None => None
    end.
Proof.
  induction l as [|a l IH]; intros acc c; simpl.
  - destruct (is_digit c); reflexivity.
  - destruct (is_digit a); [apply IH|reflexivity].
Qed.

Lemma dec_nonempty f v : dec (S f) v <> [].
Proof.
  simpl. destruct (v <? 10); [discriminate|].
  intros H. apply app_eq_nil in H. destruct H; discriminate.
Qed.

Lemma dec_val f : forall v,
  0 <= v < 2 ^ Z.of_nat f -> digits_val 0 (dec f v) = Some v.
Proof.
  induction f as [|f IH]; intros v Hv.
  - simpl in Hv. assert (v = 0) by lia. subst. reflexivity.
  - cbn [dec]. destruct (Z.ltb_spec v 10) as [Hs|Hb].
    + cbn [digits_val]. destruct (digit_spec v ltac:(lia)) as [-> ->]. f_equal.
    + rewrite digits_val_snoc.
      rewrite Nat2Z.inj_succ, Z.pow_succ_r in Hv by lia.
      pose proof (Z.div_mod v 10 ltac:(lia)) as E.
      pose proof (Z.mod_pos_bound v 10 ltac:(lia)) as Hm.
      assert (0 <= v / 10) by (apply Z.div_pos; lia).
      rewrite IH by lia.
      destruct (digit_spec (v mod 10) Hm) as [-> ->]. f_equal. lia.
Qed.

Lemma dec_digits f : forall v, 0 <= v -> forallb is_digit (dec f v) = true.
Proof.
  induction f as [|f IH]; intros v Hv; [reflexivity|].
  cbn [dec]. destruct (Z.ltb_spec v 10) as [Hs|Hb].
  - cbn. destruct (digit_spec v ltac:(lia)) as [-> _]. reflexivity.
  - rewrite forallb_app. rewrite IH by (apply Z.div_pos; lia). cbn.
    destruct (digit_spec (v mod 10) (Z.mod_pos_bound v 10 ltac:(lia))) as [-> _].
    reflexivity.
Qed.

Lemma fuel_enough v : 0 <= v -> v < 2 ^ Z.of_nat (S (Z.to_nat (Z.log2 v))).
Proof.
  intros Hv. rewrite Nat2Z.inj_succ, Z2Nat.id by apply Z.log2_nonneg.
  destruct (Z.eq_dec v 0) as [->|Hne]; [reflexivity|].
  apply Z.log2_spec. lia.
Qed.

Lemma of_nonneg_val v : 0 <= v -> digits_val 0 (of_nonneg v) = Some v.
Proof. intros Hv. apply dec_val. split; [lia|apply fuel_enough; lia]. Qed.

Lemma of_nonneg_digits v : 0 <= v -> forallb is_digit (of_nonneg v) = true.
Proof. intros. apply dec_digits. lia. Qed.

Lemma of_nonneg_nonempty v : of_nonneg v <> [].
Proof. apply dec_nonempty. Qed.

Lemma of_nonneg_to_nat v : 0 <= v -> to_nat (of_nonneg v) = Some v.
Proof.
  intros Hv. pose proof (of_nonneg_nonempty v). pose proof (of_nonneg_val v Hv).
  unfold to_nat. destruct (of_nonneg v); congruence.
Qed.

Lemma digits_val_zeros k l : digits_val 0 (repeat 48%N k ++ l) = digits_val 0 l.
Proof. induction k as [|k IH]; [reflexivity|]. simpl. exact IH. Qed.

Lemma zfill_nonneg w v :
  0 <= v -> zfill w v = repeat 48%N (w - length (of_nonneg v)) ++ of_nonneg v.
Proof. intros Hv. unfold zfill. destruct (Z.ltb_spec v 0); [lia|reflexivity]. Qed.

Lemma zfill_to_nat w v : 0 <= v -> to_nat (zfill w v) = Some v.
Proof.
  intros Hv. rewrite zfill_nonneg by lia.
  pose proof (of_nonneg_nonempty v) as Hne.
  unfold to_nat.
  destruct (repeat 48%N (w - length (of_nonneg v)) ++ of_nonneg v) eqn:E.
  - apply app_eq_nil in E. tauto.
  - rewrite <- E, digits_val_zeros. apply of_nonneg_val. lia.
Qed.

Lemma forallb_repeat {A} (P : A -> bool) x k : P x = true -> forallb P (repeat x k) = true.
Proof. intros Hx. induction k; simpl; [reflexivity|]. rewrite Hx. exact IHk. Qed.

Lemma zfill_digits w v : 0 <= v -> forallb is_digit (zfill w v) = true.
Proof.
  intros Hv. rewrite zfill_nonneg by lia. rewrite forallb_app.
  rewrite forallb_repeat by reflexivity. rewrite of_nonneg_digits by lia. reflexivity.
Qed.

Lemma range_forall (P : Z -> bool) (n : nat) :
  forallb P (map Z.of_nat (seq 0 n)) = true ->
  forall v, 0 <= v < Z.of_nat n -> P v = true.
Proof.
  intros H v Hv. rewrite forallb_forall in H. apply H.
  apply in_map_iff. exists (Z.to_nat v). split; [lia|].
  apply in_seq. lia.
Qed.

Lemma zfill2_length v : 0 <= v < 100 -> length (zfill 2 v) = 2%nat.
Proof.
  intros Hv. apply Nat.eqb_eq.
  apply (range_forall (fun v => (length (zfill 2 v) =? 2)%nat) 100); [|exact Hv].
  vm_compute. reflexivity.
Qed.

Lemma zfill3_length v : 0 <= v < 1000 -> length (zfill 3 v) = 3%nat.
Proof.
  intros Hv. apply Nat.eqb_eq.
  apply (range_forall (fun v => (length (zfill 3 v) =? 3)%nat) 1000); [|exact Hv].
  vm_compute. reflexivity.
Qed.




(** [str(n)] reads back as [n]. *)
Lemma of_int_head_digit v :
  0 <= v -> exists c r, of_nonneg v = c :: r /\ is_digit c = true.
Proof.
  intros Hv. pose proof (of_nonneg_nonempty v) as Hne.
  pose proof (of_nonneg_digits v Hv) as Hd.
  destruct (of_nonneg v) as [|c r]; [congruence|].
  exists c, r. split; [reflexivity|]. simpl in Hd. apply andb_true_iff in Hd. tauto.
Qed.

Lemma of_int_last_digit v :
  0 <= v -> exists r c, of_nonneg v = r ++ [c] /\ is_digit c = true.
Proof.
  intros Hv. pose proof (of_nonneg_nonempty v) as Hne.
  pose proof (of_nonneg_digits v Hv) as Hd.
  destruct (exists_last Hne) as (r & c & E). exists r, c. split; [exact E|].
  rewrite E, forallb_app in Hd. simpl in Hd.
  apply andb_true_iff in Hd. destruct Hd as [_ Hd].
  apply andb_true_iff in Hd. tauto.
Qed.

(** ** Splitting and joining *)

Lemma split_on_notin sep s :
  Forall (fun c => c <> sep) s -> split_on sep s = [s].
Proof.
  induction 1 as [|c s Hc Hs IH]; [reflexivity|].
  simpl. destruct (N.eqb_spec c sep); [congruence|]. rewrite IH. reflexivity.
Qed.

Lemma split_on_app sep a b :
  Forall (fun c => c <> sep) a ->
  split_on sep (a ++ sep :: b) = a :: split_on sep b.
Proof.
  induction 1 as [|c s Hc Hs IH]; simpl.
  - rewrite N.eqb_refl. reflexivity.
  - destruct (N.eqb_spec c sep); [congruence|]. rewrite IH. reflexivity.
Qed.

Lemma split_join sep toks :
  toks <> [] -> Forall (Forall (fun c => c <> sep)) toks ->
  split_on sep (join sep toks) = toks.
Proof.
  intros Hne Hall. induction Hall as [|t rest Ht Hrest IH]; [congruence|].
  destruct rest as [|t' rest'].
  - simpl. apply split_on_notin. exact Ht.
  - change (join sep (t :: t' :: rest')) with (t ++ sep :: join sep (t' :: rest')).
    rewrite split_on_app by exact Ht. f_equal. apply IH. discriminate.
Qed.

(** ** Trimming *)

Lemma lstrip_spaces ws t :
  forallb is_space ws = true -> lstrip (ws ++ t) = lstrip t.
Proof.
  induction ws as [|c ws IH]; intros H; [reflexivity|].
  simpl in *. apply andb_true_iff in H. destruct H as [-> H]. auto.
Qed.

Lemma lstrip_tight c t : is_space c = false -> lstrip (c :: t) = c :: t.
Proof. intros H. simpl. rewrite H. reflexivity. Qed.

Lemma forallb_rev {A} (P : A -> bool) l : forallb P (rev l) = forallb P l.
Proof.
  induction l as [|a l IH]; [reflexivity|].
  simpl. rewrite forallb_app, IH. simpl. rewrite andb_true_r. apply andb_comm.
Qed.

(** Trimming removes a whitespace margin around a token whose first and
    last characters are not whitespace. *)
Lemma strip_pad ws1 ws2 c t c' :
  forallb is_space ws1 = true -> forallb is_space ws2 = true ->
  is_space c = false -> is_space c' = false ->
  forall tok, tok = c :: t -> (exists r, tok = r ++ [c']) ->
  strip (ws1 ++ tok ++ ws2) = tok.
Proof.
  intros H1 H2 Hc Hc' tok E [r E']. unfold strip, rstrip.
  rewrite lstrip_spaces by exact H1.
  rewrite E at 1. rewrite <- app_comm_cons, lstrip_tight by exact Hc.
  rewrite app_comm_cons, <- E, rev_app_distr.
  rewrite lstrip_spaces by (rewrite forallb_rev; exact H2).
  rewrite E', rev_app_distr. simpl. rewrite Hc'. simpl.
  rewrite rev_involutive. reflexivity.
Qed.

Lemma strip_spaces ws : forallb is_space ws = true -> strip ws = [].
Proof.
  intros H. unfold strip, rstrip.
  rewrite <- (app_nil_r ws) at 1. rewrite lstrip_spaces by exact H. reflexivity.
Qed.

(** ** What UTF-8 can carry *)

Lemma encodable_app a b : encodable (a ++ b) = encodable a && encodable b.
Proof. apply forallb_app. Qed.

Lemma encodable_lstrip s : encodable s = true -> encodable (lstrip s) = true.
Proof.
  induction s as [|c s IH]; intros H; [reflexivity|].
  simpl. destruct (is_space c); [|exact H].
  apply IH. simpl in H. apply andb_true_iff in H. tauto.
Qed.

Lemma encodable_strip s : encodable s = true -> encodable (strip s) = true.
Proof.
  intros H. unfold strip, rstrip, encodable. rewrite forallb_rev.
  apply encodable_lstrip. unfold encodable. rewrite forallb_rev.
  apply encodable_lstrip. exact H.
Qed.

Lemma digits_encodable s : forallb is_digit s = true -> encodable s = true.
Proof.
  induction s as [|c s IH]; intros H; [reflexivity|].
  simpl in *. apply andb_true_iff in H. destruct H as [Hc Hs].
  rewrite IH by exact Hs. rewrite andb_true_r.
  unfold is_digit in Hc. unfold is_surrogate.
  apply andb_true_iff in Hc. destruct Hc as [_ Hc]. apply N.leb_le in Hc.
  destruct (N.leb_spec 55296 c); [lia|reflexivity].
Qed.

End PyStrFacts.

Module ShapeFacts.
Import F64 F64Facts Timestamp TimestampFacts PyStr PyStrFacts.

Lemma seconds_ok_float n :
  seconds_ok (PFloat (Fin n)) = true -> dbl n /\ n < top.
Proof.
  unfold seconds_ok. intros H. apply andb_true_iff in H. destruct H as [H0 H].
  apply Z.leb_le in H0. apply representable_dbl in H; auto.
Qed.

(** The decomposition of a non-negative value into the four fields. *)
Lemma fields x sep :
  seconds_ok x = true ->
  exists h m s ms,
    format_timestamp x sep = Ok (render h m s ms sep)
    /\ 0 <= h /\ 0 <= m < 60 /\ 0 <= s < 60 /\ 0 <= ms < 1000
    /\ (units x < 360000 * one -> h < 100)
    /\ (360000 * one <= units x -> 100 <= h)
    /\ (units x < 2 ^ 53 * one ->
        units x = (h * 3600 + m * 60 + s) * one + units x mod one)
    /\ 1000 * (units x mod one) / one <= ms
    /\ ms * one <= 1000 * (units x mod one) + one / 2 ^ 44.
Proof.
  intros Hok. pose proof one_pos as H1.
  assert (Hhalf : 0 <= one / 2 ^ 44) by (apply Z.div_pos; [lia|apply pow2_pos; lia]).
  destruct x as [z|[n| |]]; try discriminate.
  - (* int *)
    apply Z.leb_le in Hok.
    exists (z / 3600), (z mod 3600 / 60), (z mod 60), 0.
    rewrite format_int by lia. cbn [units].
    pose proof (Z.div_mod z 3600 ltac:(lia)) as E1.
    pose proof (Z.mod_pos_bound z 3600 ltac:(lia)) as B1.
    pose proof (Z.div_mod (z mod 3600) 60 ltac:(lia)) as E2.
    pose proof (Z.mod_pos_bound (z mod 3600) 60 ltac:(lia)) as B2.
    pose proof (Z.mod_pos_bound z 60 ltac:(lia)) as B3.
    assert (E3 : z mod 60 = (z mod 3600) mod 60).
    { symmetry. apply (Z.mod_unique _ _ (z / 3600 * 60 + z mod 3600 / 60)); lia. }
    assert (0 <= z / 3600) by (apply Z.div_pos; lia).
    assert (0 <= z mod 3600 / 60 < 60).
    { split; [apply Z.div_pos; lia|apply Z.div_lt_upper_bound; lia]. }
    rewrite Z.mod_mul by lia. rewrite Z.mul_0_r, Z.div_0_l by lia.
    split; [reflexivity|].
    split; [lia|]. split; [lia|]. split; [lia|]. split; [lia|].
    split.
    { intros Hlt. apply Z.div_lt_upper_bound; nia. }
    split.
    { intros Hge. apply Z.div_le_lower_bound; nia. }
    split.
    { intros _. assert (z = z / 3600 * 3600 + z mod 3600 / 60 * 60 + z mod 60) by lia.
      nia. }
    split; lia.
  - (* float *)
    destruct (seconds_ok_float n Hok) as [Hd Htop]. pose proof Hd as [Hn _].
    destruct (format_float n sep Hd Htop) as (h & P & E & Hh & Hex & Hbig & _ & HP & HP').
    cbn [units].
    set (m := n mod (3600 * one) / (60 * one)) in *.
    set (s := n mod (60 * one) / one) in *.
    pose proof (Z.mod_pos_bound n (3600 * one) ltac:(lia)) as B1.
    pose proof (Z.mod_pos_bound n (60 * one) ltac:(lia)) as B3.
    pose proof (Z.mod_pos_bound n one ltac:(lia)) as B4.
    assert (Hm : 0 <= m < 60).
    { unfold m. split; [apply Z.div_pos; lia|apply Z.div_lt_upper_bound; lia]. }
    assert (Hs : 0 <= s < 60).
    { unfold s. split; [apply Z.div_pos; lia|apply Z.div_lt_upper_bound; lia]. }
    assert (Hfl : 0 <= 1000 * (n mod one) / one) by (apply Z.div_pos; lia).
    exists h, m, s, (P / one).
    split; [exact E|]. split; [exact Hh|]. split; [exact Hm|]. split; [exact Hs|].
    assert (HP0 : 0 <= P) by nia.
    split; [split; [apply Z.div_pos; lia|apply Z.div_lt_upper_bound; lia]|].
    split.
    { intros Hlt. rewrite Hex by lia. apply Z.div_lt_upper_bound; lia. }
    split; [exact Hbig|].
    split.
    { intros Hlt. rewrite (Hex Hlt).
      pose proof (Z.div_mod n (3600 * one) ltac:(lia)) as E1.
      pose proof (Z.div_mod (n mod (3600 * one)) (60 * one) ltac:(lia)) as E2.
      pose proof (Z.mod_pos_bound (n mod (3600 * one)) (60 * one) ltac:(lia)) as B2.
      fold m in E2.
      assert (E3 : n mod (60 * one) = (n mod (3600 * one)) mod (60 * one)).
      { symmetry. apply (Z.mod_unique _ _ (n / (3600 * one) * 60 + m)); lia. }
      pose proof (Z.div_mod (n mod (60 * one)) one ltac:(lia)) as E4.
      pose proof (Z.mod_pos_bound (n mod (60 * one)) one ltac:(lia)) as B5.
      fold s in E4.
      assert (E5 : n mod one = (n mod (60 * one)) mod one).
      { symmetry.
        apply (Z.mod_unique _ _ ((n / (3600 * one) * 60 + m) * 60 + s)); lia. }
      lia. }
    split.
    { apply Z.div_le_lower_bound; lia. }
    { pose proof (Z.div_mod P one ltac:(lia)).
      pose proof (Z.mod_pos_bound P one H1). lia. }
Qed.

(** ** Reading a timestamp back *)

Lemma digits_avoid c s :
  is_digit c = false -> forallb is_digit s = true -> Forall (fun x => x <> c) s.
Proof.
  intros Hc Hs. apply List.Forall_forall. intros x Hx ->.
  rewrite forallb_forall in Hs. rewrite (Hs c Hx) in Hc. discriminate.
Qed.

Lemma parse_render c h m s ms :
  0 <= h -> 0 <= m < 100 -> 0 <= s < 100 -> 0 <= ms < 1000 ->
  c <> 58%N -> is_digit c = false ->
  parse_timestamp c (render h m s ms [c])
  = Some (((h * 60 + m) * 60 + s) * 1000 + ms).
Proof.
  intros Hh Hm Hs Hms Hc Hd. unfold parse_timestamp, render.
  change (py ":") with [58%N].
  assert (Hcolon : is_digit 58%N = false) by reflexivity.
  pose proof (digits_avoid 58%N _ Hcolon (zfill_digits 2 h Hh)) as A1.
  pose proof (digits_avoid 58%N _ Hcolon (zfill_digits 2 m ltac:(lia))) as A2.
  pose proof (digits_avoid 58%N _ Hcolon (zfill_digits 2 s ltac:(lia))) as A3.
  pose proof (digits_avoid 58%N _ Hcolon (zfill_digits 3 ms ltac:(lia))) as A4.
  pose proof (digits_avoid c _ Hd (zfill_digits 2 s ltac:(lia))) as B3.
  pose proof (digits_avoid c _ Hd (zfill_digits 3 ms ltac:(lia))) as B4.
  cbn [app].
  rewrite split_on_app by exact A1.
  rewrite split_on_app by exact A2.
  rewrite split_on_notin.
  2:{ apply Forall_app. split; [exact A3|]. constructor; [exact Hc|exact A4]. }
  rewrite split_on_app by exact B3.
  rewrite split_on_notin by exact B4.
  rewrite !zfill2_length, zfill3_length by lia. cbn [Nat.eqb andb].
  rewrite !zfill_to_nat by lia. reflexivity.
Qed.

(** Every value below [2^53] seconds reads back to within a
    millisecond. *)
Lemma round_trip x c :
  seconds_ok x = true -> units x < 2 ^ 53 * one ->
  c <> 58%N -> is_digit c = false ->
  round_trips x c.
Proof.
  intros Hok Hlt Hc Hd. pose proof one_pos as H1.
  destruct (fields x [c] Hok)
    as (h & m & s & ms & E & Hh & Hm & Hs & Hms & _ & _ & Hval & Hlo & Hhi).
  specialize (Hval Hlt).
  exists (render h m s ms [c]), (((h * 60 + m) * 60 + s) * 1000 + ms).
  split; [exact E|]. split; [apply parse_render; auto; lia|].
  set (F := units x mod one) in *.
  pose proof (Z.mod_pos_bound (units x) one H1) as HF. fold F in HF.
  assert (Hhalf : one / 2 ^ 44 < one).
  { apply Z.div_lt; [lia|]. reflexivity. }
  assert (Hfl : 1000 * F < (ms + 1) * one).
  { pose proof (Z.div_mod (1000 * F) one ltac:(lia)).
    pose proof (Z.mod_pos_bound (1000 * F) one H1). nia. }
  rewrite Hval.
  replace (1000 * ((h * 3600 + m * 60 + s) * one + F)
           - (((h * 60 + m) * 60 + s) * 1000 + ms) * one)
    with (1000 * F - ms * one) by ring.
  apply Z.abs_lt. lia.
Qed.

End ShapeFacts.

Module OutFacts.
Import Timestamp PyStr PyStrFacts ShapeFacts Out.

(** ** Timestamps of usable values *)

Lemma ts_ok x sep :
  seconds_ok x = true -> format_timestamp x sep = Ok (ts x sep).
Proof.
  intros Hok. destruct (fields x sep Hok) as (h & m & s & ms & E & _).
  unfold ts. rewrite E. reflexivity.
Qed.

Lemma ts_encodable x sep :
  seconds_ok x = true -> encodable sep = true -> encodable (ts x sep) = true.
Proof.
  intros Hok Hsep.
  destruct (fields x sep Hok) as (h & m & s & ms & E & Hh & Hm & Hs & Hms & _).
  unfold ts. rewrite E. unfold render. rewrite !encodable_app, Hsep.
  rewrite (digits_encodable (zfill 2 h)) by (apply zfill_digits; lia).
  rewrite (digits_encodable (zfill 2 m)) by (apply zfill_digits; lia).
  rewrite (digits_encodable (zfill 2 s)) by (apply zfill_digits; lia).
  rewrite (digits_encodable (zfill 3 ms)) by (apply zfill_digits; lia).
  reflexivity.
Qed.

Lemma segment_fields_ok sep j g :
  has_segment j g ->
  seconds_ok (seg_start g) = true -> seconds_ok (seg_end g) = true ->
  segment_fields sep j
  = Ok (ts (seg_start g) sep, ts (seg_end g) sep, strip (seg_text g)).
Proof.
  intros (m & -> & E1 & E2 & E3) Ha Hb. unfold segment_fields.
  cbn [Json.getitem]. rewrite E1, E2, E3. cbn [rbind Json.as_num Json.strip].
  rewrite (ts_ok _ sep Ha). cbn [rbind]. rewrite (ts_ok _ sep Hb). reflexivity.
Qed.

Lemma has_segment_json g : has_segment (seg_json g) g.
Proof.
  eexists. split; [reflexivity|]. repeat split.
Qed.

Lemma of_int_nonneg i : 0 <= i -> of_int i = of_nonneg i.
Proof. intros. unfold of_int. destruct (Z.ltb_spec i 0); [lia|reflexivity]. Qed.

Lemma srt_block_encodable i g :
  0 <= i -> usable g -> encodable (srt_block i g) = true.
Proof.
  intros Hi (Ha & Hb & Ht). unfold srt_block.
  rewrite !encodable_app, of_int_nonneg by lia.
  rewrite digits_encodable by (apply of_nonneg_digits; lia).
  rewrite (ts_encodable (seg_start g)) by (auto; reflexivity).
  rewrite (ts_encodable (seg_end g)) by (auto; reflexivity).
  rewrite encodable_strip by exact Ht. reflexivity.
Qed.

Lemma vtt_block_encodable g : usable g -> encodable (vtt_block g) = true.
Proof.
  intros (Ha & Hb & Ht). unfold vtt_block. rewrite !encodable_app.
  rewrite (ts_encodable (seg_start g)) by (auto; reflexivity).
  rewrite (ts_encodable (seg_end g)) by (auto; reflexivity).
  rewrite encodable_strip by exact Ht. reflexivity.
Qed.

(** ** The two loops *)

Lemma srt_loop_ok path js : forall gs i,
  Forall2 has_segment js gs -> Forall usable gs -> 0 <= i ->
  srt_loop path i js = (srt_writes path i gs, Ok tt).
Proof.
  induction js as [|j js IH]; intros gs i H2 Hu Hi; inversion H2; subst.
  - reflexivity.
  - inversion Hu; subst. cbn [srt_loop srt_writes].
    match goal with H : usable _ |- _ => pose proof H as (Ha & Hb & Ht) end.
    rewrite (segment_fields_ok _ _ _ ltac:(eassumption) Ha Hb).
    unfold IO.lift, IO.bind at 1. cbn [app].
    change (srt_chunk i (ts (seg_start y) (py ","), ts (seg_end y) (py ","),
                         strip (seg_text y))) with (srt_block i y).
    unfold write. rewrite srt_block_encodable by (auto; lia).
    unfold IO.emit, IO.bind. rewrite (IH l' (i + 1)) by (auto; lia).
    reflexivity.
Qed.

Lemma vtt_loop_ok path js : forall gs,
  Forall2 has_segment js gs -> Forall usable gs ->
  vtt_loop path js = (vtt_writes path gs, Ok tt).
Proof.
  induction js as [|j js IH]; intros gs H2 Hu; inversion H2; subst.
  - reflexivity.
  - inversion Hu; subst. cbn [vtt_loop vtt_writes map].
    match goal with H : usable _ |- _ => pose proof H as (Ha & Hb & Ht) end.
    rewrite (segment_fields_ok _ _ _ ltac:(eassumption) Ha Hb).
    unfold IO.lift, IO.bind at 1. cbn [app].
    change (vtt_chunk (ts (seg_start y) (py "."), ts (seg_end y) (py "."),
                       strip (seg_text y))) with (vtt_block y).
    unfold write. rewrite vtt_block_encodable by auto.
    unfold IO.emit, IO.bind. rewrite (IH l') by auto.
    reflexivity.
Qed.

Lemma srt_loop_on path items : forall i tr r,
  srt_loop path i items = (tr, r) -> Forall (on path) tr.
Proof.
  induction items as [|j js IH]; intros i tr r E; cbn [srt_loop] in E.
  - inversion E. constructor.
  - unfold IO.lift, IO.bind at 1 in E.
    destruct (segment_fields (py ",") j) as [f|e]; [|inversion E; constructor].
    unfold write in E. destruct (encodable (srt_chunk i f)).
    + unfold IO.emit, IO.bind in E.
      destruct (srt_loop path (i + 1) js) as [tr' r'] eqn:E'.
      inversion E; subst. constructor; [reflexivity|]. eapply IH. exact E'.
    + inversion E. constructor.
Qed.

Lemma vtt_loop_on path items : forall tr r,
  vtt_loop path items = (tr, r) -> Forall (on path) tr.
Proof.
  induction items as [|j js IH]; intros tr r E; cbn [vtt_loop] in E.
  - inversion E. constructor.
  - unfold IO.lift, IO.bind at 1 in E.
    destruct (segment_fields (py ".") j) as [f|e]; [|inversion E; constructor].
    unfold write in E. destruct (encodable (vtt_chunk f)).
    + unfold IO.emit, IO.bind in E.
      destruct (vtt_loop path js) as [tr' r'] eqn:E'.
      inversion E; subst. constructor; [reflexivity|]. eapply IH. reflexivity.
    + inversion E. constructor.
Qed.

(** ** Sequencing *)

Lemma bind_lift_ok {E A B} (x : A) (k : A -> io E B) :
  IO.bind (IO.lift (Ok x)) k = k x.
Proof. unfold IO.bind, IO.lift. destruct (k x). reflexivity. Qed.

Lemma bind_ret {E A B} (x : A) (k : A -> io E B) : IO.bind (IO.ret x) k = k x.
Proof. apply bind_lift_ok. Qed.

Lemma bind_inv {E A B} (m : io E A) (k : A -> io E B) tr b :
  IO.bind m k = (tr, Ok b) ->
  exists tr1 a tr2, m = (tr1, Ok a) /\ k a = (tr2, Ok b) /\ tr = tr1 ++ tr2.
Proof.
  unfold IO.bind. destruct m as [tr1 [a|e]]; [|discriminate].
  destruct (k a) as [tr2 r] eqn:Ek. intros H. inversion H; subst.
  exists tr1, a, tr2. auto.
Qed.

Lemma bind_ok {E A B} (m : io E A) (k : A -> io E B) tr1 a tr2 r :
  m = (tr1, Ok a) -> k a = (tr2, r) -> IO.bind m k = (tr1 ++ tr2, r).
Proof. intros -> Ek. unfold IO.bind. rewrite Ek. reflexivity. Qed.

Lemma open_w_inv w p tr u :
  open_w w p = (tr, Ok u) -> w p = true /\ tr = [EvOpen p].
Proof.
  unfold open_w. destruct (w p); [|discriminate].
  intros H. inversion H. auto.
Qed.

Lemma write_inv p s tr u :
  write p s = (tr, Ok u) -> encodable s = true /\ tr = [EvWrite p s].
Proof.
  unfold write. destruct (encodable s); [|discriminate].
  intros H. inversion H. auto.
Qed.

Lemma ret_inv {E A} (a b : A) (tr : list E) : IO.ret a = (tr, Ok b) -> tr = [] /\ a = b.
Proof. intros H. inversion H. auto. Qed.

(** ** The three blocks *)

Lemma save_txt_inv w text dir base c tr m :
  save_txt w text dir base c = (tr, Ok m) ->
  exists s, text = JStr s /\ encodable s = true /\ w (txt_path dir base) = true
    /\ tr = [EvOpen (txt_path dir base); EvWrite (txt_path dir base) s]
    /\ m = <[py "txt" := txt_path dir base]> c.
Proof.
  unfold save_txt. fold (txt_path dir base). intros H.
  apply bind_inv in H as (tr1 & [] & tr2 & H1 & H & ->).
  apply open_w_inv in H1 as [Hw ->].
  apply bind_inv in H as (tr3 & [] & tr4 & H2 & H & ->).
  apply ret_inv in H as [-> <-].
  destruct text; try discriminate. cbn [write_value] in H2.
  apply write_inv in H2 as [He ->]. eauto 10.
Qed.

Lemma save_txt_ok w s dir base c :
  w (txt_path dir base) = true -> encodable s = true ->
  save_txt w (JStr s) dir base c
  = ([EvOpen (txt_path dir base); EvWrite (txt_path dir base) s],
     Ok (<[py "txt" := txt_path dir base]> c)).
Proof.
  intros Hw He. unfold save_txt. fold (txt_path dir base).
  unfold open_w, write_value, write. rewrite Hw, He. reflexivity.
Qed.

Lemma save_srt_inv w segments dir base c tr m :
  save_srt w segments dir base c = (tr, Ok m) ->
  m = <[py "srt" := srt_path dir base]> c
  /\ exists tr', tr = EvOpen (srt_path dir base) :: tr'
                 /\ Forall (on (srt_path dir base)) tr'.
Proof.
  unfold save_srt. fold (srt_path dir base). intros H.
  apply bind_inv in H as (tr1 & [] & tr2 & H1 & H & ->).
  apply open_w_inv in H1 as [Hw ->].
  apply bind_inv in H as (tr3 & items & tr4 & H2 & H & ->).
  apply bind_inv in H as (tr5 & [] & tr6 & H3 & H & ->).
  apply ret_inv in H as [-> <-].
  split; [reflexivity|].
  unfold IO.lift in H2. inversion H2; subst.
  eexists. split; [reflexivity|]. rewrite app_nil_r. cbn [app].
  eapply srt_loop_on. exact H3.
Qed.

Lemma save_vtt_inv w segments dir base c tr m :
  save_vtt w segments dir base c = (tr, Ok m) ->
  m = <[py "vtt" := vtt_path dir base]> c
  /\ exists tr', tr = EvOpen (vtt_path dir base)
                      :: EvWrite (vtt_path dir base) vtt_header :: tr'
                 /\ Forall (on (vtt_path dir base)) tr'.
Proof.
  unfold save_vtt. fold (vtt_path dir base). intros H.
  apply bind_inv in H as (tr1 & [] & tr2 & H1 & H & ->).
  apply open_w_inv in H1 as [Hw ->].
  apply bind_inv in H as (tr0 & [] & tr0' & H0 & H & ->).
  apply write_inv in H0 as [_ ->].
  apply bind_inv in H as (tr3 & items & tr4 & H2 & H & ->).
  apply bind_inv in H as (tr5 & [] & tr6 & H3 & H & ->).
  apply ret_inv in H as [-> <-].
  split; [reflexivity|].
  unfold IO.lift in H2. inversion H2; subst.
  eexists. split; [reflexivity|]. rewrite app_nil_r. cbn [app].
  eapply vtt_loop_on. exact H3.
Qed.

Lemma save_srt_ok w js gs dir base c :
  w (srt_path dir base) = true ->
  Forall2 has_segment js gs -> Forall usable gs ->
  save_srt w (JArr js) dir base c
  = (EvOpen (srt_path dir base) :: srt_writes (srt_path dir base) 1 gs,
     Ok (<[py "srt" := srt_path dir base]> c)).
Proof.
  intros Hw H2 Hu. unfold save_srt. fold (srt_path dir base).
  unfold open_w. rewrite Hw. cbn [Json.iter].
  erewrite bind_ok; [|reflexivity|].
  2:{ rewrite bind_lift_ok. erewrite bind_ok; [reflexivity| |reflexivity].
      apply srt_loop_ok; [exact H2|exact Hu|lia]. }
  rewrite app_nil_r. reflexivity.
Qed.

Lemma save_vtt_ok w js gs dir base c :
  w (vtt_path dir base) = true ->
  Forall2 has_segment js gs -> Forall usable gs ->
  save_vtt w (JArr js) dir base c
  = (EvOpen (vtt_path dir base) :: EvWrite (vtt_path dir base) vtt_header
       :: vtt_writes (vtt_path dir base) gs,
     Ok (<[py "vtt" := vtt_path dir base]> c)).
Proof.
  intros Hw H2 Hu. unfold save_vtt. fold (vtt_path dir base).
  unfold open_w. rewrite Hw. cbn [Json.iter].
  erewrite bind_ok; [|reflexivity|].
  2:{ erewrite bind_ok; [reflexivity|reflexivity|].
      rewrite bind_lift_ok. erewrite bind_ok; [reflexivity| |reflexivity].
      apply vtt_loop_ok; [exact H2|exact Hu]. }
  rewrite app_nil_r. reflexivity.
Qed.

(** ** The whole function *)

Lemma save_inv w result dir base tr m :
  save_chutes_outputs w result dir base = (tr, Ok m) ->
  exists r, result = JObj r /\
    let text := default (JStr []) (r !! py "text") in
    let segments := default (JArr []) (r !! py "segments") in
    exists tr1 m1 tr2,
      tr = tr1 ++ tr2
      /\ (if Json.truthy text
          then exists s, text = JStr s
                 /\ tr1 = [EvOpen (txt_path dir base); EvWrite (txt_path dir base) s]
                 /\ m1 = <[py "txt" := txt_path dir base]> ∅
          else tr1 = [] /\ m1 = ∅)
      /\ (if Json.truthy segments
          then exists a b,
                 tr2 = (EvOpen (srt_path dir base) :: a)
                       ++ EvOpen (vtt_path dir base)
                          :: EvWrite (vtt_path dir base) vtt_header :: b
                 /\ Forall (on (srt_path dir base)) a
                 /\ Forall (on (vtt_path dir base)) b
                 /\ m = <[py "vtt" := vtt_path dir base]>
                          (<[py "srt" := srt_path dir base]> m1)
          else tr2 = [] /\ m = m1).
Proof.
  unfold save_chutes_outputs. intros H.
  destruct result as [| | | | |r]; try discriminate.
  exists r. split; [reflexivity|]. cbn zeta. cbn [Json.get] in H.
  rewrite bind_lift_ok in H.
  apply bind_inv in H as (tr1 & m1 & tr2 & H1 & H & ->).
  rewrite bind_lift_ok in H.
  exists tr1, m1, tr2. split; [reflexivity|]. split.
  - destruct (Json.truthy (default (JStr []) (r !! py "text"))).
    + apply save_txt_inv in H1 as (s & E & _ & _ & -> & ->). eauto.
    + apply ret_inv in H1 as [-> <-]. auto.
  - destruct (Json.truthy (default (JArr []) (r !! py "segments"))).
    + apply bind_inv in H as (tr3 & m3 & tr4 & H3 & H4 & ->).
      apply save_srt_inv in H3 as (-> & a & -> & Ha).
      apply save_vtt_inv in H4 as (-> & b & -> & Hb).
      exists a, b. auto.
    + apply ret_inv in H as [-> <-]. auto.
Qed.

Lemma truthy_text_of r :
  text_ok r ->
  Json.truthy (default (JStr []) (r !! py "text")) = negb (bool_decide (text_of r = []))
  /\ default (JStr []) (r !! py "text") = JStr (text_of r)
  /\ encodable (text_of r) = true.
Proof.
  unfold text_ok, text_of. destruct (r !! py "text") as [[]|]; tauto.
Qed.

Lemma save_ok w r dir base js gs :
  (forall p, w p = true) -> text_ok r ->
  r !! py "segments" = Some (JArr js) -> js <> [] ->
  Forall2 has_segment js gs -> Forall usable gs ->
  save_chutes_outputs w (JObj r) dir base
  = (txt_events r dir base
     ++ (EvOpen (srt_path dir base) :: srt_writes (srt_path dir base) 1 gs)
     ++ EvOpen (vtt_path dir base) :: EvWrite (vtt_path dir base) vtt_header
        :: vtt_writes (vtt_path dir base) gs,
     Ok (<[py "vtt" := vtt_path dir base]>
         (<[py "srt" := srt_path dir base]> (txt_files r dir base)))).
Proof.
  intros Hw Ht Hs Hne H2 Hu. unfold save_chutes_outputs. cbn zeta. cbn [Json.get].
  rewrite bind_lift_ok. rewrite Hs. cbn [default].
  destruct (truthy_text_of r Ht) as (Etr & Etx & Henc). rewrite Etr, Etx.
  assert (Hseg : Json.truthy (JArr js) = true).
  { cbn. destruct js; [congruence|reflexivity]. }
  assert (Htail : forall c,
    (if Json.truthy (JArr js)
     then IO.bind (save_srt w (JArr js) dir base c)
            (fun c' => save_vtt w (JArr js) dir base c')
     else IO.ret c)
    = ((EvOpen (srt_path dir base) :: srt_writes (srt_path dir base) 1 gs)
       ++ EvOpen (vtt_path dir base) :: EvWrite (vtt_path dir base) vtt_header
          :: vtt_writes (vtt_path dir base) gs,
       Ok (<[py "vtt" := vtt_path dir base]> (<[py "srt" := srt_path dir base]> c)))).
  { intros c. rewrite Hseg. eapply bind_ok.
    - apply save_srt_ok; auto.
    - apply save_vtt_ok; auto. }
  unfold txt_events, txt_files.
  destruct (text_of r) as [|c0 s] eqn:Es.
  - cbn [bool_decide negb]. rewrite bool_decide_eq_true_2 by reflexivity. cbn [negb].
    rewrite bind_ret, bind_lift_ok. apply Htail.
  - rewrite bool_decide_eq_false_2 by discriminate. cbn [negb].
    erewrite bind_ok; [reflexivity| |].
    + apply save_txt_ok; auto.
    + rewrite bind_lift_ok. apply Htail.
Qed.

(** ** The three paths differ *)

Lemma starts_with_slash_app b suf c :
  c <> 47%N -> starts_with (py "/") (b ++ c :: suf) = starts_with (py "/") b.
Proof.
  intros Hc. change (py "/") with [47%N].
  destruct b as [|x b]; cbn [app starts_with]; [|reflexivity].
  destruct (N.eqb_spec 47 c); [congruence|reflexivity].
Qed.

Lemma path_join_suffix d b c suf :
  c <> 47%N -> path_join d (b ++ c :: suf) = path_join d b ++ c :: suf.
Proof.
  intros Hc. unfold path_join. rewrite starts_with_slash_app by exact Hc.
  destruct (starts_with (py "/") b); [reflexivity|].
  destruct (_ || _); rewrite <- ?app_assoc; reflexivity.
Qed.

Lemma paths_differ dir base :
  txt_path dir base <> srt_path dir base
  /\ txt_path dir base <> vtt_path dir base
  /\ srt_path dir base <> vtt_path dir base.
Proof.
  unfold txt_path, srt_path, vtt_path.
  change (py ".txt") with (46%N :: py "txt").
  change (py ".srt") with (46%N :: py "srt").
  change (py ".vtt") with (46%N :: py "vtt").
  rewrite !path_join_suffix by discriminate.
  repeat split; intros H; apply app_inv_head in H; discriminate.
Qed.

(** ** What the files hold *)

Lemma content_app path l1 : forall l2 acc,
  content path (l1 ++ l2) acc = content path l2 (content path l1 acc).
Proof.
  induction l1 as [|e l1 IH]; intros l2 acc; [reflexivity|].
  destruct e; cbn [app content]; apply IH.
Qed.

Lemma content_other path l : forall acc,
  Forall (fun e => event_path e <> path) l -> content path l acc = acc.
Proof.
  induction l as [|e l IH]; intros acc H; [reflexivity|].
  inversion H; subst. destruct e; cbn [content event_path] in *;
    rewrite bool_decide_eq_false_2 by assumption; apply IH; assumption.
Qed.

Lemma content_srt_writes path gs : forall i a,
  content path (srt_writes path i gs) (Some a) = Some (a ++ srt_from i gs).
Proof.
  induction gs as [|g gs IH]; intros i a; cbn [srt_writes srt_from content].
  - rewrite app_nil_r. reflexivity.
  - rewrite bool_decide_eq_true_2 by reflexivity. cbn [fmap option_fmap option_map].
    rewrite IH, app_assoc. reflexivity.
Qed.

Lemma content_vtt_writes path gs : forall a,
  content path (vtt_writes path gs) (Some a) = Some (a ++ concat (map vtt_block gs)).
Proof.
  induction gs as [|g gs IH]; intros a; cbn [vtt_writes map concat content].
  - rewrite app_nil_r. reflexivity.
  - rewrite bool_decide_eq_true_2 by reflexivity. cbn [fmap option_fmap option_map].
    fold (vtt_writes path gs). rewrite IH, app_assoc. reflexivity.
Qed.

Lemma on_other p q l : p <> q -> Forall (on p) l -> Forall (fun e => event_path e <> q) l.
Proof.
  intros Hpq H. eapply Forall_impl; [exact H|]. unfold on. intros e <-. exact Hpq.
Qed.

Lemma srt_writes_on path gs : forall i, Forall (on path) (srt_writes path i gs).
Proof. induction gs; intros i; constructor; [reflexivity|auto]. Qed.

Lemma vtt_writes_on path gs : Forall (on path) (vtt_writes path gs).
Proof. induction gs; constructor; [reflexivity|auto]. Qed.

Lemma txt_events_on r dir base : Forall (on (txt_path dir base)) (txt_events r dir base).
Proof.
  unfold txt_events. destruct (text_of r); repeat constructor.
Qed.

End OutFacts.

Module GatewayFacts.
Import Gateway.

(** The outcome of a call, case by case over what the collaborators
    answer. *)
Lemma outcome w audio_path api_token model language :
  let r := transcribe_with_chutes w audio_path api_token model language in
  if path_exists w audio_path then
    match read_bytes w audio_path with
    | Raise e =>
        r = if is_exception e then ([GwRead audio_path; GwLogError], Ok JNull)
            else ([GwRead audio_path], Raise e)
    | Ok bs =>
        let q := build_request api_token model language (b64encode bs) in
        let sent := [GwRead audio_path; GwLogInfo; GwPost q] in
        match post w q with
        | Raise e =>
            r = if is_exception e then (sent ++ [GwLogError], Ok JNull)
                else (sent, Raise e)
        | Ok resp =>
            if status resp =? 200 then
              match body_json resp with
              | Ok j => r = (sent ++ [GwLogInfo], Ok j)
              | Raise e =>
                  r = if is_exception e then (sent ++ [GwLogError], Ok JNull)
                      else (sent, Raise e)
              end
            else
              match body_text resp with
              | Ok _ => r = (sent ++ [GwLogError], Ok JNull)
              | Raise e =>
                  r = if is_exception e then (sent ++ [GwLogError], Ok JNull)
                      else (sent, Raise e)
              end
        end
    end
  else r = ([GwLogError], Ok JNull).
Proof.
  cbn zeta. unfold transcribe_with_chutes.
  destruct (path_exists w audio_path); cbn [negb]; [|reflexivity].
  destruct (read_bytes w audio_path) as [bs|e].
  2:{ cbn [IO.lift IO.emit IO.bind IO.catch app]. destruct (is_exception e); reflexivity. }
  cbn [IO.lift IO.emit IO.bind IO.catch app].
  destruct (post w _) as [resp|e].
  2:{ cbn [IO.catch]. destruct (is_exception e); reflexivity. }
  destruct (status resp =? 200).
  - destruct (body_json resp) as [j|e]; [reflexivity|].
    cbn [IO.catch]. destruct (is_exception e); reflexivity.
  - destruct (body_text resp) as [t|e]; [reflexivity|].
    cbn [IO.catch]. destruct (is_exception e); reflexivity.
Qed.



End GatewayFacts.

Module MentionFacts.
Import PyStr Mention.

Lemma starts_with_spec p : forall s,
  starts_with p s = true <-> exists b, s = p ++ b.
Proof.
  induction p as [|a p IH]; intros s; cbn [starts_with].
  - split; [intros _; exists s; reflexivity|reflexivity].
  - destruct s as [|c s].
    + split; [discriminate|intros [b E]; discriminate].
    + rewrite andb_true_iff, N.eqb_eq, IH. split.
      * intros [-> [b ->]]. exists b. reflexivity.
      * intros [b E]. inversion E; subst. eauto.
Qed.

(** [p in s] holds exactly when [p] occurs in [s] as a run of
    consecutive characters. *)
Lemma contains_spec p s :
  contains p s = true <-> exists a b, s = a ++ p ++ b.
Proof.
  induction s as [|c s IH]; cbn [contains]; rewrite orb_true_iff, starts_with_spec.
  - split.
    + intros [[b E]|H]; [exists [], b; exact E|discriminate].
    + intros (a & b & E). left. destruct a; [exists b; exact E|discriminate].
  - rewrite IH. split.
    + intros [[b E]|(a & b & E)].
      * exists [], b. exact E.
      * exists (c :: a), b. rewrite E. reflexivity.
    + intros (a & b & E). destruct a as [|x a].
      * left. exists b. exact E.
      * right. inversion E; subst. eauto.
Qed.

End MentionFacts.

Module AllowListFacts.
Import PyStr PyStrFacts AllowList.

Lemma int_of_str_of_int z : int_of_str (of_int z) = Some z.
Proof.
  unfold of_int. destruct (Z.ltb_spec z 0) as [Hn|Hp].
  - cbn [int_of_str]. rewrite N.eqb_refl.
    rewrite of_nonneg_to_nat by lia. cbn. f_equal. lia.
  - destruct (of_int_head_digit z Hp) as (c & r & E & Hc).
    pose proof (of_nonneg_to_nat z Hp) as Hv. rewrite E in *.
    cbn [int_of_str].
    unfold is_digit in Hc. apply andb_true_iff in Hc. destruct Hc as [Hc _].
    apply N.leb_le in Hc.
    destruct (N.eqb_spec c 45); [lia|]. destruct (N.eqb_spec c 43); [lia|].
    exact Hv.
Qed.

Lemma digit_not_space c : is_digit c = true -> is_space c = false.
Proof.
  unfold is_digit. intros H. apply andb_true_iff in H. destruct H as [H1 H2].
  apply N.leb_le in H1. apply N.leb_le in H2.
  unfold is_space.
  repeat match goal with
  | |- context [(?a <=? ?b)%N] => destruct (N.leb_spec a b); try lia
  | |- context [(?a =? ?b)%N] => destruct (N.eqb_spec a b); try lia
  end; reflexivity.
Qed.

(** [str(z)] starts and ends with a character that is not whitespace. *)
Lemma of_int_tight z :
  exists c t c' r, of_int z = c :: t /\ of_int z = r ++ [c']
                   /\ is_space c = false /\ is_space c' = false.
Proof.
  unfold of_int. destruct (Z.ltb_spec z 0) as [Hn|Hp].
  - destruct (of_int_last_digit (- z) ltac:(lia)) as (r & c' & E & Hc').
    exists 45%N, (of_nonneg (- z)), c', (45%N :: r).
    rewrite E. repeat split; auto using digit_not_space.
  - destruct (of_int_head_digit z Hp) as (c & t & E & Hc).
    destruct (of_int_last_digit z Hp) as (r & c' & E' & Hc').
    exists c, t, c', r. auto using digit_not_space.
Qed.

Lemma strip_padded_int l z r :
  forallb is_space l = true -> forallb is_space r = true ->
  strip (l ++ of_int z ++ r) = of_int z.
Proof.
  intros Hl Hr. destruct (of_int_tight z) as (c & t & c' & q & E & E' & Hc & Hc').
  apply (strip_pad l r c t c'); auto. exists q. exact E'.
Qed.

Lemma space_not_comma s :
  forallb is_space s = true -> Forall (fun c => c <> 44%N) s.
Proof.
  intros H. apply List.Forall_forall. intros x Hx ->.
  rewrite forallb_forall in H. specialize (H _ Hx). discriminate.
Qed.

Lemma of_int_no_comma z : Forall (fun c => c <> 44%N) (of_int z).
Proof.
  unfold of_int. destruct (Z.ltb_spec z 0).
  - constructor; [discriminate|].
    apply (ShapeFacts.digits_avoid 44%N); [reflexivity|apply of_nonneg_digits; lia].
  - apply (ShapeFacts.digits_avoid 44%N); [reflexivity|apply of_nonneg_digits; lia].
Qed.

(** The parse of a comma-joined list of tokens: each token is trimmed
    and converted on its own, in order. *)
Lemma parse_join toks :
  toks <> [] -> Forall (Forall (fun c => c <> 44%N)) toks ->
  get_allowed_group_ids (join 44%N toks)
  = omap (fun tok => int_of_str (strip tok)) toks.
Proof.
  intros Hne Hall. unfold get_allowed_group_ids. rewrite split_join; auto.
Qed.

End AllowListFacts.

(* ================================================================== *)
(** * Access control *)

(** C1. With an empty allow-list every chat identifier is admitted; with
    a non-empty allow-list a chat identifier is admitted exactly when it
    is a member of the list.  Membership is equality of integers: neither
    the sign nor the magnitude is normalised, and the chat type is not an
    input. *)
Theorem C1_is_group_allowed (chat_id : Z) (allowed : list Z) :
  (allowed = [] -> AllowList.is_group_allowed chat_id allowed = true)
  /\ (allowed <> [] ->
      (AllowList.is_group_allowed chat_id allowed = true <-> In chat_id allowed)).
Proof.
  unfold AllowList.is_group_allowed. split.
  - intros ->. reflexivity.
  - intros Hne. destruct allowed as [|a l]; [congruence|].
    rewrite bool_decide_eq_true. apply list_elem_of_In.
Qed.

Lemma C1_witness :
  [-100; 200] <> []
  /\ (AllowList.is_group_allowed (-999) [-100; 200] = true <-> In (-999) [-100; 200]).
Proof.
  split; [discriminate|].
  apply (proj2 (C1_is_group_allowed (-999) [-100; 200])). discriminate.
Defined.

(** The assertions of test_access_control.py, lines 78-106. *)
Lemma is_group_allowed_tests :
  AllowList.is_group_allowed (-1001234567890) [] = true
  /\ AllowList.is_group_allowed 123456 [] = true
  /\ AllowList.is_group_allowed (-999) [] = true
  /\ AllowList.is_group_allowed (-1001234567890) [-1001234567890; -1009876543210] = true
  /\ AllowList.is_group_allowed (-1009876543210) [-1001234567890; -1009876543210] = true
  /\ AllowList.is_group_allowed (-999) [-1001234567890; -1009876543210] = false
  /\ AllowList.is_group_allowed 123456 [-1001234567890; -1009876543210] = false
  /\ AllowList.is_group_allowed (-1111111111111) [-1001234567890; -1009876543210] = false
  /\ AllowList.is_group_allowed 123456 [123456; 789012] = true
  /\ AllowList.is_group_allowed 789012 [123456; 789012] = true
  /\ AllowList.is_group_allowed 999999 [123456; 789012] = false
  /\ AllowList.is_group_allowed 100 [-100] = false.
Proof. repeat (match goal with |- _ /\ _ => split end); vm_compute; reflexivity. Qed.

(* ================================================================== *)
(** * Mention resolution *)

Lemma entity_matches_spec text bot e :
  Mention.entity_matches text bot e = true <-> Mention.entity_match text bot e.
Proof.
  unfold Mention.entity_matches, Mention.entity_match.
  destruct (decide (e_type e = py "mention")) as [Em|Em].
  - rewrite bool_decide_eq_true_2 by exact Em. split.
    + destruct text as [t|]; [|discriminate].
      rewrite bool_decide_eq_true. intros H. left. eauto.
    + intros [[_ (t & -> & H)]|[Et _]].
      * apply bool_decide_eq_true. exact H.
      * rewrite Em in Et. discriminate.
  - rewrite bool_decide_eq_false_2 by exact Em.
    destruct (decide (e_type e = py "text_mention")) as [Et|Et].
    + rewrite bool_decide_eq_true_2 by exact Et. rewrite bool_decide_eq_true.
      split; [auto|]. intros [[? _]|[_ ?]]; [contradiction|assumption].
    + rewrite bool_decide_eq_false_2 by exact Et.
      split; [discriminate|]. intros [[? _]|[? _]]; contradiction.
Qed.

(** C2. A private chat is always addressed.  In any other chat the bot is
    addressed exactly when the text carries the literal ["@" + handle], or
    some entity is a ["mention"] whose slice of the text is that literal
    or a ["text_mention"] whose user is the bot.  A message is processed
    exactly when it is addressed, has a reply, and the reply carries a
    voice, audio or document payload; so a mention without a reply, and a
    reply without a mention outside private chats, are not processed. *)
Theorem C2_is_addressed_and_admission
    (chat_type : pystr) (text : option pystr) (entities : list entity)
    (bot : pystr) (r : option reply) :
  (chat_type = py "private" ->
   Mention.is_addressed chat_type text entities bot = true)
  /\ (chat_type <> py "private" ->
      (Mention.is_addressed chat_type text entities bot = true
       <-> Mention.literal_match text bot
           \/ exists e, In e entities /\ Mention.entity_match text bot e))
  /\ (Mention.should_process chat_type text entities bot r = true
      <-> Mention.is_addressed chat_type text entities bot = true
          /\ Mention.has_reply r = true
          /\ Mention.reply_payload_is_audio_like r = true)
  /\ (r = None -> Mention.should_process chat_type text entities bot r = false)
  /\ (Mention.is_addressed chat_type text entities bot = false ->
      Mention.should_process chat_type text entities bot r = false).
Proof.
  split; [|split; [|split; [|split]]].
  - intros ->. reflexivity.
  - intros Hne. unfold Mention.is_addressed.
    rewrite bool_decide_eq_false_2 by exact Hne.
    assert (Hlit : match text with
                   | Some t => negb (bool_decide (t = []))
                               && PyStr.contains (Mention.at_handle bot) t
                   | None => false
                   end = true <-> Mention.literal_match text bot).
    { unfold Mention.literal_match. destruct text as [t|].
      - rewrite andb_true_iff, MentionFacts.contains_spec. split.
        + intros [_ (a & b & E)]. eauto.
        + intros (t' & a & b & [= <-] & E). split; [|eauto].
          apply negb_true_iff, bool_decide_eq_false. intros ->.
          destruct a; discriminate.
      - split; [discriminate|]. intros (t & a & b & [=] & _). }
    destruct (match text with Some _ => _ | None => _ end) eqn:El.
    + split; [intros _; left; apply Hlit; reflexivity|reflexivity].
    + rewrite existsb_exists. split.
      * intros (e & He & Hm). right. exists e. split; [exact He|].
        apply entity_matches_spec. exact Hm.
      * intros [Hl|(e & He & Hm)].
        -- apply Hlit in Hl. discriminate.
        -- exists e. split; [exact He|]. apply entity_matches_spec. exact Hm.
  - unfold Mention.should_process. rewrite !andb_true_iff. tauto.
  - intros ->. unfold Mention.should_process. cbn. apply andb_false_r.
  - intros H. unfold Mention.should_process. rewrite H. reflexivity.
Qed.

Lemma C2_witness :
  py "group" <> py "private"
  /\ (Mention.is_addressed (py "group") (Some (py "@bot1 transcribe")) [] (py "bot1") = true
      <-> Mention.literal_match (Some (py "@bot1 transcribe")) (py "bot1")
          \/ exists e, In e [] /\ Mention.entity_match (Some (py "@bot1 transcribe")) (py "bot1") e).
Proof.
  split; [discriminate|].
  apply (proj1 (proj2 (C2_is_addressed_and_admission
                         (py "group") (Some (py "@bot1 transcribe")) [] (py "bot1") None))).
  discriminate.
Defined.

(** The cases of test_reply_handling.py and of the examples: a group
    message without the handle, with the handle, an entity mention at
    offset 0, a mention of another user, a text mention, a private chat;
    then the admission of a reply to a voice message. *)
Lemma is_addressed_tests :
  let mention o l := {| e_type := py "mention"; e_offset := o; e_length := l; e_user := None |} in
  let text_mention u := {| e_type := py "text_mention"; e_offset := 0; e_length := 0; e_user := Some u |} in
  let voice_reply := Some {| voice := true; audio := false; document := false |} in
  Mention.is_addressed (py "group") (Some (py "transcribe this")) [] (py "bot1") = false
  /\ Mention.is_addressed (py "group") (Some (py "@bot1 transcribe")) [] (py "bot1") = true
  /\ Mention.is_addressed (py "group") (Some (py "Hey @other_bot please transcribe this")) []
       (py "test_bot") = false
  /\ Mention.entity_matches (Some (py "@test_bot transcribe")) (py "test_bot") (mention 0%nat 9%nat) = true
  /\ Mention.entity_matches (Some (py "@other_user transcribe")) (py "test_bot") (mention 0%nat 11%nat) = false
  /\ Mention.entity_matches None (py "test_bot") (text_mention (py "test_bot")) = true
  /\ Mention.is_addressed (py "private") (Some (py "transcribe this")) [] (py "bot1") = true
  /\ Mention.should_process (py "group") (Some (py "please transcribe")) [] (py "test_bot")
       voice_reply = false
  /\ Mention.should_process (py "group") (Some (py "@test_bot please transcribe")) []
       (py "test_bot") voice_reply = true
  /\ Mention.should_process (py "group") (Some (py "@test_bot please transcribe")) []
       (py "test_bot") None = false.
Proof. cbv zeta. repeat (match goal with |- _ /\ _ => split end); vm_compute; reflexivity. Qed.

(* ================================================================== *)
(** * Parsing the allow-list *)

Lemma split_on_free sep s :
  PyStr.split_on sep s <> []
  /\ Forall (Forall (fun c => c <> sep)) (PyStr.split_on sep s).
Proof.
  induction s as [|c s [IH1 IH2]]; cbn [PyStr.split_on].
  - split; [discriminate|]. repeat constructor.
  - destruct (N.eqb_spec c sep) as [->|Hne].
    + split; [discriminate|]. constructor; [constructor|exact IH2].
    + destruct (PyStr.split_on sep s) as [|w ws]; [congruence|].
      split; [discriminate|]. inversion IH2; subst.
      constructor; [constructor; assumption|assumption].
Qed.

Lemma join_cons sep t w ws :
  PyStr.join sep (t :: w :: ws) = t ++ sep :: PyStr.join sep (w :: ws).
Proof. reflexivity. Qed.

Lemma join_split sep s : PyStr.join sep (PyStr.split_on sep s) = s.
Proof.
  induction s as [|c s IH]; [reflexivity|].
  cbn [PyStr.split_on]. destruct (split_on_free sep s) as [Hne _].
  destruct (PyStr.split_on sep s) as [|w ws]; [congruence|].
  destruct (N.eqb_spec c sep) as [->|Hc].
  - rewrite join_cons, IH. reflexivity.
  - destruct ws as [|w' ws'].
    + cbn [PyStr.join] in *. rewrite IH. reflexivity.
    + rewrite join_cons in *. rewrite <- IH. reflexivity.
Qed.

(** C3. Every raw string is a comma-joined list of comma-free tokens, and
    its parse is the list of the integers of those tokens, each trimmed
    and converted on its own: a token that does not convert is dropped and
    the others are kept, in order.  Integers written with any whitespace
    margin come back exactly; an input of whitespace-only tokens yields
    the empty list. *)
Theorem C3_get_allowed_group_ids :
  (forall raw, exists toks,
      raw = PyStr.join 44%N toks /\ toks <> []
      /\ Forall (Forall (fun c => c <> 44%N)) toks)
  /\ (forall toks, toks <> [] -> Forall (Forall (fun c => c <> 44%N)) toks ->
      AllowList.get_allowed_group_ids (PyStr.join 44%N toks)
      = omap (fun tok => AllowList.int_of_str (PyStr.strip tok)) toks)
  /\ (forall items, items <> [] -> Forall AllowList.margins_ok items ->
      AllowList.get_allowed_group_ids (PyStr.join 44%N (map AllowList.padded items))
      = map AllowList.value items)
  /\ (forall toks, toks <> [] -> Forall (fun t => forallb PyStr.is_space t = true) toks ->
      AllowList.get_allowed_group_ids (PyStr.join 44%N toks) = [])
  /\ AllowList.get_allowed_group_ids (py "invalid, not-a-number") = []
  /\ AllowList.get_allowed_group_ids (py "  -5 , 7  ") = [-5; 7]
  /\ AllowList.get_allowed_group_ids (py "12, x, -3,, 4") = [12; -3; 4].
Proof.
  split; [|split; [|split; [|split; [|split; [|split]]]]].
  - intros raw. exists (PyStr.split_on 44%N raw).
    destruct (split_on_free 44%N raw). rewrite join_split. auto.
  - exact AllowListFacts.parse_join.
  - intros items Hne Hm. rewrite AllowListFacts.parse_join.
    + clear Hne. induction Hm as [|[[l z] r] items [Hl Hr] _ IH]; [reflexivity|].
      cbn [map omap list_omap AllowList.padded AllowList.value].
      rewrite AllowListFacts.strip_padded_int by assumption.
      rewrite AllowListFacts.int_of_str_of_int. cbn. f_equal. exact IH.
    + destruct items; [congruence|discriminate].
    + clear Hne. induction Hm as [|[[l z] r] items [Hl Hr] _ IH]; constructor; [|exact IH].
      cbn [AllowList.padded]. rewrite !Forall_app.
      auto using AllowListFacts.space_not_comma, AllowListFacts.of_int_no_comma.
  - intros toks Hne Hs. rewrite AllowListFacts.parse_join; [|exact Hne|].
    + clear Hne. induction Hs as [|t toks Ht _ IH]; [reflexivity|].
      cbn [omap list_omap]. rewrite PyStrFacts.strip_spaces by exact Ht. exact IH.
    + eapply Forall_impl; [exact Hs|]. intros t. apply AllowListFacts.space_not_comma.
  - vm_compute. reflexivity.
  - vm_compute. reflexivity.
  - vm_compute. reflexivity.
Qed.

Lemma C3_witness :
  [py " 1"; py "x"; py "2 "] <> []
  /\ Forall (Forall (fun c => c <> 44%N)) [py " 1"; py "x"; py "2 "]
  /\ AllowList.get_allowed_group_ids (PyStr.join 44%N [py " 1"; py "x"; py "2 "])
     = omap (fun tok => AllowList.int_of_str (PyStr.strip tok)) [py " 1"; py "x"; py "2 "].
Proof.
  assert (H1 : [py " 1"; py "x"; py "2 "] <> []) by discriminate.
  assert (H2 : Forall (Forall (fun c => c <> 44%N)) [py " 1"; py "x"; py "2 "]).
  { repeat constructor; discriminate. }
  split; [exact H1|]. split; [exact H2|].
  exact (proj1 (proj2 C3_get_allowed_group_ids) _ H1 H2).
Defined.

(** The assertions of test_access_control.py, lines 28-76. *)
Lemma get_allowed_group_ids_tests :
  AllowList.get_allowed_group_ids (py "") = []
  /\ AllowList.get_allowed_group_ids (py "-1001234567890") = [-1001234567890]
  /\ AllowList.get_allowed_group_ids (py "-1001234567890, -1009876543210, 123456")
     = [-1001234567890; -1009876543210; 123456]
  /\ AllowList.get_allowed_group_ids (py "  -1001234567890  ,  -1009876543210  ")
     = [-1001234567890; -1009876543210]
  /\ AllowList.get_allowed_group_ids (py "invalid, not-a-number") = [].
Proof. repeat (match goal with |- _ /\ _ => split end); vm_compute; reflexivity. Qed.

(* ================================================================== *)
(** * Timestamps *)



(** Sample points of the binary64 model: the four operations agree with
    the Standard Library's IEEE-754 specification on the values the two
    examples go through and on values at the ends of the range, and the
    values of this file are what CPython prints. *)
Lemma binary64_samples :
  let d := F64.lit in
  let sfmul := SpecFloat.SFmul 53 1024 in
  let sfdiv := SpecFloat.SFdiv 53 1024 in
  let sfadd := SpecFloat.SFadd 53 1024 in
  let sfsub := SpecFloat.SFsub 53 1024 in
  forallb (fun '(a, b) =>
             F64.agrees F64.mul sfmul a b && F64.agrees F64.div sfdiv a b
             && F64.agrees F64.add sfadd a b && F64.agrees F64.sub sfsub a b)
    [ (d 37254567 (-4) mod F64.one, 1000 * F64.one);
      (d 37254567 (-4), 3600 * F64.one);
      (d 37254567 (-4), 3725 * F64.one);
      (d 1 20, 3600 * F64.one);
      (d 1 20, 2800 * F64.one);
      (d 1 (-1), d 3 0);
      (d 1 0, d 3 0);
      (d 17 300, d 2 10);
      (d 5 (-324), d 3 0);
      (d 1 (-310), d 7 5);
      (d (-15) (-1), d 1000 0);
      (d 1001 (-3), d 1 0) ] = true
  /\ format_timestamp (PFloat (F64.of_decimal 1 20)) (py ",")
     = Ok (py "27777777777777776:46:40,000")
  /\ format_timestamp (PFloat (F64.of_decimal (-15) (-1))) (py ",")
     = Ok (py "-1:59:58,-500")
  /\ format_timestamp (PFloat (F64.of_decimal 1001 (-3))) (py ",")
     = Ok (py "00:00:01,000")
  /\ format_timestamp (PFloat (F64.Inf false)) (py ",") = Raise ValueError
  /\ format_timestamp (PInt 3725) (py ".") = Ok (py "01:02:05.000").
Proof. cbv zeta. repeat (match goal with |- _ /\ _ => split end); vm_compute; reflexivity. Qed.

(* ================================================================== *)
(** * The subtitle files *)

Lemma content_open path l acc :
  Out.content path (EvOpen path :: l) acc = Out.content path l (Some []).
Proof. cbn [Out.content]. rewrite bool_decide_eq_true_2 by reflexivity. reflexivity. Qed.

Lemma content_write path c l a :
  Out.content path (EvWrite path c :: l) (Some a) = Out.content path l (Some (a ++ c)).
Proof. cbn [Out.content]. rewrite bool_decide_eq_true_2 by reflexivity. reflexivity. Qed.

Lemma content_of_save r dir base gs :
  let tr := Out.txt_events r dir base
            ++ (EvOpen (Out.srt_path dir base)
                :: Out.srt_writes (Out.srt_path dir base) 1 gs)
            ++ EvOpen (Out.vtt_path dir base)
               :: EvWrite (Out.vtt_path dir base) Out.vtt_header
               :: Out.vtt_writes (Out.vtt_path dir base) gs in
  Out.content (Out.srt_path dir base) tr None = Some (Out.to_srt gs)
  /\ Out.content (Out.vtt_path dir base) tr None = Some (Out.to_vtt gs).
Proof.
  cbv zeta. destruct (OutFacts.paths_differ dir base) as (Hts & Htv & Hsv).
  pose proof (OutFacts.txt_events_on r dir base) as Ht.
  split.
  - rewrite OutFacts.content_app.
    rewrite (OutFacts.content_other _ (Out.txt_events r dir base))
      by (eapply OutFacts.on_other; [exact Hts|exact Ht]).
    rewrite OutFacts.content_app, content_open, OutFacts.content_srt_writes.
    rewrite OutFacts.content_other; [reflexivity|].
    constructor; [cbn; congruence|]. constructor; [cbn; congruence|].
    eapply OutFacts.on_other; [|apply OutFacts.vtt_writes_on]. congruence.
  - rewrite OutFacts.content_app.
    rewrite (OutFacts.content_other _ (Out.txt_events r dir base))
      by (eapply OutFacts.on_other; [exact Htv|exact Ht]).
    rewrite OutFacts.content_app.
    rewrite (OutFacts.content_other _ (EvOpen _ :: Out.srt_writes _ 1 gs)).
    2:{ constructor; [cbn; congruence|].
        eapply OutFacts.on_other; [|apply OutFacts.srt_writes_on]. exact Hsv. }
    rewrite content_open, content_write, OutFacts.content_vtt_writes. reflexivity.
Qed.

(** C5. For a non-empty list of segments the SRT file holds, for each
    segment in input order, the index counted from 1, the line
    [start --> end] with comma timestamps, the trimmed text and a blank
    line; the VTT file holds the header [WEBVTT], a blank line, and the
    same blocks without the index and with dot timestamps.  On the two
    segments (0.0, 1.5, "Hi") and (1.5, 3.0, "there") the SRT file is the
    two numbered blocks, each closed by a blank line, and the VTT file
    begins with the header and the blank line. *)
Theorem C5_srt_and_vtt_blocks :
  (forall (w : pystr -> bool) (r : gmap pystr json) (dir base : pystr)
          (js : list json) (gs : list Out.segment),
     (forall p, w p = true) -> Out.text_ok r ->
     r !! py "segments" = Some (JArr js) -> js <> [] ->
     Forall2 Out.has_segment js gs -> Forall Out.usable gs ->
     exists tr m,
       Out.save_chutes_outputs w (JObj r) dir base = (tr, Ok m)
       /\ Out.content (Out.srt_path dir base) tr None = Some (Out.to_srt gs)
       /\ Out.content (Out.vtt_path dir base) tr None = Some (Out.to_vtt gs)
       /\ m !! py "srt" = Some (Out.srt_path dir base)
       /\ m !! py "vtt" = Some (Out.vtt_path dir base))
  /\ (let tr := fst (Out.save_chutes_outputs (fun _ => true) hi_there_result
                       (py "out") (py "a")) in
      Out.content (py "out/a.srt") tr None
      = Some (py "1" ++ Out.nl ++ py "00:00:00,000 --> 00:00:01,500" ++ Out.nl
              ++ py "Hi" ++ Out.nl ++ Out.nl
              ++ py "2" ++ Out.nl ++ py "00:00:01,500 --> 00:00:03,000" ++ Out.nl
              ++ py "there" ++ Out.nl ++ Out.nl)
      /\ Out.content (py "out/a.vtt") tr None
         = Some (py "WEBVTT" ++ Out.nl ++ Out.nl
                 ++ py "00:00:00.000 --> 00:00:01.500" ++ Out.nl
                 ++ py "Hi" ++ Out.nl ++ Out.nl
                 ++ py "00:00:01.500 --> 00:00:03.000" ++ Out.nl
                 ++ py "there" ++ Out.nl ++ Out.nl)).
Proof.
  split.
  - intros w r dir base js gs Hw Ht Hs Hne H2 Hu.
    eexists _, _. split; [apply (OutFacts.save_ok w r dir base js gs); assumption|].
    destruct (content_of_save r dir base gs) as [E1 E2].
    split; [exact E1|]. split; [exact E2|]. split.
    + rewrite lookup_insert_ne by discriminate. apply lookup_insert_eq.
    + apply lookup_insert_eq.
  - cbv zeta. split; vm_compute; reflexivity.
Qed.

Lemma hi_there_usable : Forall Out.usable hi_there.
Proof. repeat constructor; vm_compute; reflexivity. Qed.

Lemma hi_there_segments : Forall2 Out.has_segment (map Out.seg_json hi_there) hi_there.
Proof. repeat constructor; apply OutFacts.has_segment_json. Qed.

Lemma C5_witness :
  exists tr m,
    Out.save_chutes_outputs (fun _ => true) hi_there_result (py "out") (py "a") = (tr, Ok m)
    /\ Out.content (Out.srt_path (py "out") (py "a")) tr None = Some (Out.to_srt hi_there)
    /\ Out.content (Out.vtt_path (py "out") (py "a")) tr None = Some (Out.to_vtt hi_there)
    /\ m !! py "srt" = Some (Out.srt_path (py "out") (py "a"))
    /\ m !! py "vtt" = Some (Out.vtt_path (py "out") (py "a")).
Proof.
  apply (proj1 C5_srt_and_vtt_blocks (fun _ => true)
           (<[py "segments" := JArr (map Out.seg_json hi_there)]> ∅)
           (py "out") (py "a") (map Out.seg_json hi_there) hi_there).
  - reflexivity.
  - exact I.
  - apply lookup_insert_eq.
  - discriminate.
  - exact hi_there_segments.
  - exact hi_there_usable.
Defined.

(* ================================================================== *)
(** * The gateway *)




(* ================================================================== *)
(** * What is written, and what is reported *)

Lemma keys_differ :
  py "txt" <> py "srt" /\ py "txt" <> py "vtt" /\ py "srt" <> py "vtt".
Proof. repeat split; discriminate. Qed.

Ltac lookup_key :=
  repeat (rewrite lookup_insert_ne by congruence);
  rewrite ?lookup_insert_eq, ?lookup_empty; reflexivity.

(** The keys of the mapping a successful run returns. *)
Lemma save_keys w result dir base tr m :
  Out.save_chutes_outputs w result dir base = (tr, Ok m) ->
  exists r, result = JObj r
    /\ (m !! py "txt"
        = if Json.truthy (Out.text_value r) then Some (Out.txt_path dir base) else None)
    /\ (m !! py "srt"
        = if Json.truthy (Out.segments_value r) then Some (Out.srt_path dir base) else None)
    /\ (m !! py "vtt"
        = if Json.truthy (Out.segments_value r) then Some (Out.vtt_path dir base) else None)
    /\ (forall k p, m !! k = Some p ->
        In (EvOpen p) tr /\ (k = py "txt" \/ k = py "srt" \/ k = py "vtt")).
Proof.
  intros H. apply OutFacts.save_inv in H as (r & -> & H). cbv zeta in H.
  destruct H as (tr1 & m1 & tr2 & -> & Ht & Hs).
  exists r. split; [reflexivity|].
  unfold Out.text_value, Out.segments_value.
  destruct keys_differ as (K1 & K2 & K3).
  destruct (Json.truthy (default (JStr []) (r !! py "text")));
    destruct (Json.truthy (default (JArr []) (r !! py "segments")));
    [ destruct Ht as (s & _ & -> & ->); destruct Hs as (a & b & -> & _ & _ & ->)
    | destruct Ht as (s & _ & -> & ->); destruct Hs as (-> & ->)
    | destruct Ht as (-> & ->); destruct Hs as (a & b & -> & _ & _ & ->)
    | destruct Ht as (-> & ->); destruct Hs as (-> & ->) ];
    (split; [lookup_key|]); (split; [lookup_key|]); (split; [lookup_key|]);
    intros k p H;
    repeat (apply lookup_insert_Some in H as [[<- <-]|[_ H]]);
    try (rewrite lookup_empty in H; discriminate);
    (split; [rewrite ?in_app_iff; cbn [In]; intuition auto|auto]).
Qed.

Lemma save_nothing w r dir base :
  Json.truthy (Out.text_value r) = false ->
  Json.truthy (Out.segments_value r) = false ->
  Out.save_chutes_outputs w (JObj r) dir base = ([], Ok ∅).
Proof.
  unfold Out.text_value, Out.segments_value. intros Ht Hs.
  unfold Out.save_chutes_outputs. cbv zeta. cbn [Json.get].
  rewrite OutFacts.bind_lift_ok, Ht, OutFacts.bind_ret, OutFacts.bind_lift_ok, Hs.
  reflexivity.
Qed.

(** C7. The gateway hands the parsed body of a 200 answer on as it is,
    whatever keys it has; [save_chutes_outputs] reads a result without a
    [segments] key as it reads one whose [segments] is the empty list.
    The mapping of a run that returns has the key [txt] exactly when the
    text is non-empty, the keys [srt] and [vtt] exactly when the segments
    are non-empty, no other key, and every path in it was opened for
    writing: an absent or empty text gives no [txt], absent or empty
    segments give neither [srt] nor [vtt].  A result with neither text
    nor segments returns the empty mapping, writes nothing and does not
    raise. *)
Theorem C7_only_written_formats_are_reported :
  (forall w audio_path api_token model language bs resp j,
     path_exists w audio_path = true -> read_bytes w audio_path = Ok bs ->
     post w (Gateway.build_request api_token model language (Gateway.b64encode bs))
     = Ok resp ->
     status resp = 200 -> body_json resp = Ok j ->
     snd (Gateway.transcribe_with_chutes w audio_path api_token model language) = Ok j)
  /\ (forall w r dir base,
        r !! py "segments" = None ->
        Out.save_chutes_outputs w (JObj r) dir base
        = Out.save_chutes_outputs w (JObj (<[py "segments" := JArr []]> r)) dir base)
  /\ (forall w result dir base tr m,
        Out.save_chutes_outputs w result dir base = (tr, Ok m) ->
        exists r, result = JObj r
          /\ (is_Some (m !! py "txt") <-> Json.truthy (Out.text_value r) = true)
          /\ (is_Some (m !! py "srt") <-> Json.truthy (Out.segments_value r) = true)
          /\ (is_Some (m !! py "vtt") <-> Json.truthy (Out.segments_value r) = true)
          /\ (r !! py "text" = None \/ r !! py "text" = Some (JStr []) ->
              m !! py "txt" = None)
          /\ (r !! py "segments" = None \/ r !! py "segments" = Some (JArr []) ->
              m !! py "srt" = None /\ m !! py "vtt" = None)
          /\ (forall k p, m !! k = Some p ->
              In (EvOpen p) tr /\ (k = py "txt" \/ k = py "srt" \/ k = py "vtt")))
  /\ (forall w r dir base,
        Json.truthy (Out.text_value r) = false ->
        Json.truthy (Out.segments_value r) = false ->
        Out.save_chutes_outputs w (JObj r) dir base = ([], Ok ∅)).
Proof.
  split; [|split; [|split]].
  - intros w audio_path api_token model language bs resp j Ex Er Ep Es Ej.
    pose proof (GatewayFacts.outcome w audio_path api_token model language) as H.
    cbv zeta in H. rewrite Ex, Er, Ep, Es, Ej in H. cbn in H. rewrite H. reflexivity.
  - intros w r dir base Hs. unfold Out.save_chutes_outputs. cbv zeta. cbn [Json.get].
    rewrite lookup_insert_ne by discriminate. rewrite lookup_insert_eq, Hs. reflexivity.
  - intros w result dir base tr m H.
    apply save_keys in H as (r & -> & Ht & Hs & Hv & Hk).
    exists r. split; [reflexivity|]. rewrite Ht, Hs, Hv.
    split; [|split; [|split; [|split; [|split]]]].
    + destruct (Json.truthy (Out.text_value r));
        (split; [intros [? ?]|intros ?]; eauto; discriminate).
    + destruct (Json.truthy (Out.segments_value r));
        (split; [intros [? ?]|intros ?]; eauto; discriminate).
    + destruct (Json.truthy (Out.segments_value r));
        (split; [intros [? ?]|intros ?]; eauto; discriminate).
    + unfold Out.text_value. intros [->| ->]; reflexivity.
    + unfold Out.segments_value. intros [->| ->]; split; reflexivity.
    + exact Hk.
  - exact save_nothing.
Qed.

Lemma C7_witness :
  exists r, hi_there_result = JObj r
    /\ (is_Some (<[py "vtt" := Out.vtt_path (py "out") (py "a")]>
                   (<[py "srt" := Out.srt_path (py "out") (py "a")]>
                      (Out.txt_files (<[py "segments" := JArr (map Out.seg_json hi_there)]> ∅)
                         (py "out") (py "a"))) !! py "srt")
        <-> Json.truthy (Out.segments_value r) = true).
Proof.
  pose proof (OutFacts.save_ok (fun _ => true)
                (<[py "segments" := JArr (map Out.seg_json hi_there)]> ∅)
                (py "out") (py "a") (map Out.seg_json hi_there) hi_there
                (fun _ => eq_refl) I (lookup_insert_eq _ _ _) ltac:(discriminate)
                hi_there_segments hi_there_usable) as E.
  destruct (proj1 (proj2 (proj2 C7_only_written_formats_are_reported)) _ _ _ _ _ _ E)
    as (r & Er & _ & Hs & _).
  exists r. split; [exact Er|exact Hs].
Defined.

(** C10. In the mapping of a run that returns, [srt] is a key exactly
    when [vtt] is, and both exactly when the segments are non-empty.  The
    log of such a run splits in two: no event on the VTT file in the first
    part, no event on the SRT file in the second; with non-empty segments
    the SRT file is opened in the first part and the VTT file in the
    second, so the SRT file is complete before the VTT file is begun. *)
Theorem C10_srt_and_vtt_come_together
    (w : pystr -> bool) (result : json) (dir base : pystr)
    (tr : list fs_event) (m : gmap pystr pystr) :
  Out.save_chutes_outputs w result dir base = (tr, Ok m) ->
  exists r, result = JObj r
    /\ (is_Some (m !! py "srt") <-> is_Some (m !! py "vtt"))
    /\ (is_Some (m !! py "srt") <-> Json.truthy (Out.segments_value r) = true)
    /\ exists before after,
         tr = before ++ after
         /\ Forall (fun e => Out.event_path e <> Out.vtt_path dir base) before
         /\ Forall (fun e => Out.event_path e <> Out.srt_path dir base) after
         /\ (Json.truthy (Out.segments_value r) = true ->
             In (EvOpen (Out.srt_path dir base)) before
             /\ In (EvOpen (Out.vtt_path dir base)) after).
Proof.
  intros H. pose proof H as Hk.
  apply save_keys in Hk as (r & -> & _ & Hs & Hv & _).
  exists r. split; [reflexivity|]. rewrite Hs, Hv.
  split; [|split].
  - destruct (Json.truthy (Out.segments_value r)); split; intros [? ?]; eauto; discriminate.
  - destruct (Json.truthy (Out.segments_value r));
      (split; [intros [? ?]|intros ?]; eauto; discriminate).
  - apply OutFacts.save_inv in H as (r' & [= <-] & H). cbv zeta in H.
    destruct H as (tr1 & m1 & tr2 & -> & Ht & Hseg).
    destruct (OutFacts.paths_differ dir base) as (Hts & Htv & Hsv).
    fold (Out.text_value r) in Ht. fold (Out.segments_value r) in Hseg.
    assert (H1 : Forall (fun e => Out.event_path e <> Out.vtt_path dir base) tr1
                 /\ Forall (fun e => Out.event_path e <> Out.srt_path dir base) tr1).
    { destruct (Json.truthy (Out.text_value r)).
      - destruct Ht as (s & _ & -> & _). split; repeat constructor; cbn; congruence.
      - destruct Ht as (-> & _). split; constructor. }
    destruct H1 as [H1v H1s].
    destruct (Json.truthy (Out.segments_value r)).
    + destruct Hseg as (a & b & -> & Ha & Hb & _).
      exists (tr1 ++ EvOpen (Out.srt_path dir base) :: a),
             (EvOpen (Out.vtt_path dir base)
              :: EvWrite (Out.vtt_path dir base) Out.vtt_header :: b).
      split; [rewrite <- !app_assoc; reflexivity|]. split; [|split].
      * apply Forall_app. split; [exact H1v|].
        constructor; [cbn; congruence|].
        eapply OutFacts.on_other; [|exact Ha]. exact Hsv.
      * constructor; [cbn; congruence|]. constructor; [cbn; congruence|].
        eapply OutFacts.on_other; [|exact Hb]. congruence.
      * intros _. split; [apply in_app_iff; right; left; reflexivity|left; reflexivity].
    + destruct Hseg as (-> & _). exists tr1, [].
      split; [reflexivity|]. split; [exact H1v|]. split; [constructor|discriminate].
Qed.

Lemma C10_witness :
  exists tr m,
    Out.save_chutes_outputs (fun _ => true) hi_there_result (py "out") (py "a") = (tr, Ok m)
    /\ (is_Some (m !! py "srt") <-> is_Some (m !! py "vtt")).
Proof.
  pose proof (OutFacts.save_ok (fun _ => true)
                (<[py "segments" := JArr (map Out.seg_json hi_there)]> ∅)
                (py "out") (py "a") (map Out.seg_json hi_there) hi_there
                (fun _ => eq_refl) I (lookup_insert_eq _ _ _) ltac:(discriminate)
                hi_there_segments hi_there_usable) as E.
  destruct (C10_srt_and_vtt_come_together _ _ _ _ _ _ E) as (r & _ & Hiff & _).
  eexists _, _. split; [exact E|exact Hiff].
Defined.

Module SignedFacts.
Import F64 F64Facts.

(** ** Rounding values of either sign *)

(** A value within the magnitude of a double rounds to a finite double
    within it, on the same side of zero. *)
Lemma round_within a b B :
  0 < b -> dbl B -> B < top -> Z.abs a <= B * b ->
  exists r, round a b = Fin r /\ Z.abs r <= B
            /\ (0 <= a -> 0 <= r) /\ (a <= 0 -> r <= 0).
Proof.
  intros Hb HB Htop Ha. unfold round.
  pose proof (round_pos_nonneg (Z.abs a) b (Z.abs_nonneg a) Hb) as H0.
  pose proof (round_pos_le (Z.abs a) b B (Z.abs_nonneg a) Hb HB Ha) as H1.
  destruct (Z.leb_spec top (round_pos (Z.abs a) b)); [lia|].
  eexists. split; [reflexivity|].
  destruct (Z.sgn_spec a) as [[? ->]|[[? ->]|[? ->]]]; lia.
Qed.

(** A value beyond the magnitude of a double rounds beyond it. *)
Lemma round_beyond a b B r :
  0 < b -> dbl B -> B * b <= Z.abs a -> round a b = Fin r ->
  (a < 0 -> r <= - B) /\ (0 < a -> B <= r).
Proof.
  intros Hb HB Ha. unfold round.
  pose proof (round_pos_ge (Z.abs a) b B (Z.abs_nonneg a) Hb HB Ha) as H1.
  destruct (Z.leb_spec top (round_pos (Z.abs a) b)); [discriminate|]. intros [= <-].
  destruct (Z.sgn_spec a) as [[? ->]|[[? ->]|[? ->]]]; lia.
Qed.

Lemma round_signed_exact n : dbl (Z.abs n) -> Z.abs n < top -> round n 1 = Fin n.
Proof.
  intros Hd Ht. unfold round.
  pose proof (round_pos_exact 1 (Z.abs n) ltac:(lia) Hd) as E.
  rewrite Z.mul_1_r in E. rewrite E.
  destruct (Z.leb_spec top (Z.abs n)); [lia|]. f_equal.
  destruct (Z.sgn_spec n) as [[? ->]|[[? ->]|[? ->]]]; lia.
Qed.

Lemma dbl_one : dbl one.
Proof. rewrite <- (Z.mul_1_l one). apply dbl_int. lia. Qed.

Lemma dbl_pow2 k : 0 <= k -> dbl (2 ^ k).
Proof.
  intros Hk. pose proof (pow2_pos k Hk) as Hp. split; [lia|].
  apply (mod_pow2_weaken _ _ k).
  - unfold bits. destruct (Z.eqb_spec (2 ^ k) 0); [lia|].
    rewrite Z.log2_pow2 by lia. lia.
  - apply Z.mod_same. lia.
Qed.

Lemma representable_abs n : representable n = representable (Z.abs n).
Proof. unfold representable. rewrite Z.abs_idemp. reflexivity. Qed.

Lemma representable_neg n :
  n < 0 -> representable n = true -> dbl (- n) /\ - n < top.
Proof.
  intros Hn H. rewrite representable_abs in H.
  rewrite Z.abs_neq in H by lia. apply representable_dbl in H; [exact H|lia].
Qed.

(** ** Rounding keeps the order *)

Lemma rne_mono a a' d : 0 < d -> a <= a' -> rne a d <= rne a' d.
Proof.
  intros Hd Ha. destruct (Z.eq_dec (a / d) (a' / d)) as [E|E].
  - assert (Hr : a mod d <= a' mod d).
    { pose proof (Z.div_mod a d ltac:(lia)). pose proof (Z.div_mod a' d ltac:(lia)).
      rewrite E in *. lia. }
    unfold rne. rewrite <- E.
    destruct (Z.ltb_spec d (2 * (a mod d))), (Z.ltb_spec d (2 * (a' mod d)));
      destruct (Z.eqb_spec (2 * (a mod d)) d), (Z.eqb_spec (2 * (a' mod d)) d);
      destruct (Z.odd (a / d)); cbn [orb andb]; lia.
  - assert (a / d <= a' / d) by (apply Z.div_le_mono; lia).
    pose proof (rne_hi a d Hd). pose proof (rne_lo a' d Hd). lia.
Qed.

Lemma round_pos_mono a a' b :
  0 <= a <= a' -> 0 < b -> round_pos a b <= round_pos a' b.
Proof.
  intros Ha Hb.
  assert (Hq : 0 <= a / b <= a' / b).
  { split; [apply Z.div_pos; lia|apply Z.div_le_mono; lia]. }
  pose proof (bits_le_mono _ _ Hq) as Hbits.
  destruct (Z.eq_dec (bits (a / b)) (bits (a' / b))) as [E|E].
  - unfold round_pos. rewrite E.
    set (sh := Z.max 0 (bits (a' / b) - 53)).
    assert (Hsh : 0 < 2 ^ sh) by (apply pow2_pos; lia).
    apply Z.mul_le_mono_nonneg_r; [lia|]. apply rne_mono; [nia|lia].
  - set (k := bits (a / b)). pose proof (bits_nonneg (a / b)) as Hk. fold k in Hk.
    pose proof (pow2_pos k Hk) as Hp.
    assert (Hlo : a / b < 2 ^ k).
    { destruct (Z.eq_dec (a / b) 0) as [->|Hne]; [lia|].
      apply (bits_spec (a / b)). lia. }
    assert (Hhi : 2 ^ k <= a' / b).
    { assert (Hpos : 0 < a' / b).
      { destruct (Z.eq_dec (a' / b) 0) as [E0|]; [|lia].
        assert (a / b = 0) by lia. congruence. }
      pose proof (bits_spec (a' / b) Hpos) as [Hb1 _].
      assert (2 ^ k <= 2 ^ (bits (a' / b) - 1)) by (apply Z.pow_le_mono_r; lia).
      lia. }
    assert (H1 : round_pos a b <= 2 ^ k).
    { apply round_pos_le; auto using dbl_pow2; [lia|].
      pose proof (Z.div_mod a b ltac:(lia)). pose proof (Z.mod_pos_bound a b Hb). nia. }
    assert (H2 : 2 ^ k <= round_pos a' b).
    { apply round_pos_ge; auto using dbl_pow2; [lia|].
      pose proof (Z.div_mod a' b ltac:(lia)). pose proof (Z.mod_pos_bound a' b Hb). nia. }
    lia.
Qed.

(** ** [//] and [%] on negative doubles *)

Lemma rem_of_neg n W :
  n < 0 -> 0 < W ->
  Z.rem n W = - ((- n) mod W) /\ n - Z.rem n W = - (W * ((- n) / W)).
Proof.
  intros Hn HW.
  assert (E : Z.rem n W = - ((- n) mod W)).
  { replace n with (- - n) at 1 by lia.
    rewrite Z.rem_opp_l by lia. rewrite Z.rem_mod_nonneg by lia. reflexivity. }
  split; [exact E|]. rewrite E.
  pose proof (Z.div_mod (- n) W ltac:(lia)). lia.
Qed.

Lemma gt_zero_half : gt (Fin 0) half = false.
Proof.
  unfold gt, half. destruct (Z.ltb_spec (2 ^ 1073) 0); [|reflexivity].
  pose proof (pow2_pos 1073 ltac:(lia)). lia.
Qed.

(** The floor quotient of a negative double by a number of at least
    two is a finite double, at most [-1.0]. *)
Lemma floordiv_neg n w :
  n < 0 -> dbl (- n) -> - n < top -> 2 <= w < 2 ^ 53 ->
  exists r, floordiv (Fin n) (Fin (w * one)) = Ok (Fin r) /\ r <= - one.
Proof.
  intros Hn Hd Htop Hw. pose proof one_pos as H1.
  destruct big_facts as (Et & Hb2 & Hone & Hb1).
  set (W := w * one). assert (HW : 2 * one <= W) by (unfold W; nia).
  destruct (rem_of_neg n W Hn ltac:(lia)) as [Em Enm].
  pose proof (Z.mod_pos_bound (- n) W ltac:(lia)) as Hmb.
  pose proof (Z.div_mod (- n) W ltac:(lia)) as Hdm.
  assert (Hq : 0 <= - n / W) by (apply Z.div_pos; lia).
  unfold floordiv.
  assert (HnzW : nonzero (Fin W) = true).
  { simpl. destruct (Z.eqb_spec W 0); [lia|reflexivity]. }
  rewrite HnzW. change (negb true) with false. cbv iota zeta.
  assert (Hfm : fmod (Fin n) (Fin W) = Fin (Z.rem n W)).
  { simpl. destruct (Z.eqb_spec W 0); [lia|reflexivity]. }
  rewrite Hfm. set (m := Z.rem n W) in *.
  assert (Hm : - W < m <= 0) by lia.
  (* x - mod *)
  rewrite sub_fin.
  destruct (round_within (n - m) 1 (- n) ltac:(lia) Hd Htop ltac:(nia))
    as (r1 & E1 & Hr1 & _ & Hr1n).
  rewrite E1. specialize (Hr1n ltac:(nia)).
  (* (x - mod) / y *)
  rewrite div_fin_pos by lia.
  assert (Hr1W : Z.abs (r1 * one) <= big1 * W).
  { rewrite Z.abs_mul, (Z.abs_eq one) by lia.
    assert (Z.abs r1 * one <= 2 * big1 * one)
      by (apply Z.mul_le_mono_nonneg_r; lia).
    assert (big1 * (2 * one) <= big1 * W)
      by (apply Z.mul_le_mono_nonneg_l; lia).
    lia. }
  destruct (round_within (r1 * one) W big1 ltac:(lia) dbl_big1 ltac:(lia) Hr1W)
    as (r2 & E2 & Hr2 & _ & Hr2n).
  rewrite E2. specialize (Hr2n ltac:(nia)).
  (* the adjustment *)
  assert (Hd3 : exists dd,
    (if nonzero (Fin m) && negb (Bool.eqb (is_neg (Fin W)) (is_neg (Fin m)))
     then sub (Fin r2) f1 else Fin r2) = Fin dd /\ dd <= - one /\ - big2 <= dd).
  { destruct (Z.eq_dec m 0) as [E0|E0].
    - assert (Hz : nonzero (Fin m) = false).
      { simpl. destruct (Z.eqb_spec m 0); [reflexivity|contradiction]. }
      rewrite Hz. cbn [andb]. exists r2. split; [reflexivity|].
      assert (Er1 : r1 = n).
      { rewrite E0, Z.sub_0_r in E1.
        rewrite round_signed_exact in E1.
        - congruence.
        - rewrite Z.abs_neq by lia. exact Hd.
        - rewrite Z.abs_neq by lia. exact Htop. }
      subst r1.
      assert (Hbig : one * W <= Z.abs (n * one)).
      { rewrite Z.abs_mul, (Z.abs_eq one), (Z.abs_neq n) by lia.
        assert (1 <= - n / W) by nia.
        assert (W <= - n) by nia.
        rewrite (Z.mul_comm one W). apply Z.mul_le_mono_nonneg_r; lia. }
      destruct (round_beyond (n * one) W one r2 ltac:(lia) dbl_one Hbig E2) as [Hlo _].
      specialize (Hlo ltac:(nia)). lia.
    - assert (Hz : nonzero (Fin m) = true).
      { simpl. destruct (Z.eqb_spec m 0); [contradiction|reflexivity]. }
      assert (Hs : negb (Bool.eqb (is_neg (Fin W)) (is_neg (Fin m))) = true).
      { simpl. destruct (Z.ltb_spec W 0); [lia|].
        destruct (Z.ltb_spec m 0); [reflexivity|lia]. }
      rewrite Hz, Hs. cbn [andb]. unfold f1. rewrite sub_fin.
      destruct (round_within (r2 - one) 1 big2 ltac:(lia) dbl_big2 Hb2 ltac:(lia))
        as (r3 & E3 & Hr3 & _ & _).
      exists r3. split; [exact E3|].
      destruct (round_beyond (r2 - one) 1 one r3 ltac:(lia) dbl_one ltac:(lia) E3)
        as [Hlo _].
      specialize (Hlo ltac:(lia)). lia. }
  destruct Hd3 as (dd & -> & Hdd & Hddlo).
  assert (Hnz : nonzero (Fin dd) = true).
  { simpl. destruct (Z.eqb_spec dd 0); [lia|reflexivity]. }
  rewrite Hnz. unfold floor.
  set (fl := dd / one * one).
  pose proof (Z.div_mod dd one ltac:(lia)) as Hfd.
  pose proof (Z.mod_pos_bound dd one H1) as Hfm'.
  assert (Hfl : dd - one < fl <= dd) by (unfold fl; lia).
  destruct (Z.eq_dec fl dd) as [Ee|Ee].
  - rewrite sub_fin, Ee, Z.sub_diag, round_0, gt_zero_half.
    exists dd. split; [reflexivity|lia].
  - assert (Hfl2 : fl <= - (2 * one)).
    { assert (dd / one < - 1) by (unfold fl in *; nia). unfold fl. nia. }
    destruct (gt (sub (Fin dd) (Fin fl)) half).
    + unfold f1. cbn [add].
      destruct (round_within (fl + one) 1 big2 ltac:(lia) dbl_big2 Hb2 ltac:(lia))
        as (r4 & E4 & _).
      exists r4. split; [rewrite E4; reflexivity|].
      destruct (round_beyond (fl + one) 1 one r4 ltac:(lia) dbl_one ltac:(lia) E4)
        as [Hlo _].
      apply Hlo. lia.
    + exists fl. split; [reflexivity|lia].
Qed.

(** The remainder of a negative double by a positive number is between
    zero and that number, both included. *)
Lemma rem_neg n w :
  n < 0 -> 1 <= w < 2 ^ 53 ->
  exists r, rem (Fin n) (Fin (w * one)) = Ok (Fin r) /\ 0 <= r <= w * one.
Proof.
  intros Hn Hw. pose proof one_pos as H1.
  set (W := w * one). assert (HW : 0 < W) by (unfold W; nia).
  destruct (rem_of_neg n W Hn HW) as [Em _].
  pose proof (Z.mod_pos_bound (- n) W HW) as Hmb.
  unfold rem.
  assert (HnzW : nonzero (Fin W) = true).
  { simpl. destruct (Z.eqb_spec W 0); [lia|reflexivity]. }
  rewrite HnzW. change (negb true) with false. cbv iota zeta.
  assert (Hfm : fmod (Fin n) (Fin W) = Fin (Z.rem n W)).
  { simpl. destruct (Z.eqb_spec W 0); [lia|reflexivity]. }
  rewrite Hfm. set (m := Z.rem n W) in *.
  destruct (Z.eq_dec m 0) as [E0|E0].
  - assert (Hz : nonzero (Fin m) = false).
    { simpl. destruct (Z.eqb_spec m 0); [reflexivity|contradiction]. }
    rewrite Hz. exists 0. split; [reflexivity|lia].
  - assert (Hz : nonzero (Fin m) = true).
    { simpl. destruct (Z.eqb_spec m 0); [contradiction|reflexivity]. }
    assert (Hs : negb (Bool.eqb (is_neg (Fin W)) (is_neg (Fin m))) = true).
    { simpl. destruct (Z.ltb_spec W 0); [lia|].
      destruct (Z.ltb_spec m 0); [reflexivity|lia]. }
    rewrite Hz, Hs. cbn [add].
    destruct (round_within (m + W) 1 W ltac:(lia) (dbl_int w ltac:(lia))
                (int_lt_top w ltac:(lia)) ltac:(lia))
      as (r & E & Hr & Hr0 & _).
    rewrite E. exists r. split; [reflexivity|]. specialize (Hr0 ltac:(lia)). lia.
Qed.

End SignedFacts.

Module SignFacts.
Import F64 F64Facts SignedFacts Timestamp TimestampFacts PyStr PyStrFacts ShapeFacts.

(** ** [format_timestamp] on numbers below zero *)

Lemma format_any_int z sep :
  format_timestamp (PInt z) sep
  = Ok (render (z / 3600) (z mod 3600 / 60) (z mod 60) 0 sep).
Proof.
  unfold format_timestamp, PyNum.floordiv, PyNum.rem, PyNum.sub, PyNum.mul.
  cbn [rbind PyNum.to_int Z.eqb].
  rewrite Z.sub_diag. reflexivity.
Qed.

Lemma quot_neg r : r <= - one -> Z.quot r one <= -1.
Proof.
  intros Hr. pose proof one_pos.
  replace r with (- - r) by lia. rewrite Z.quot_opp_l by lia.
  rewrite Z.quot_div_nonneg by lia.
  assert (1 <= - r / one) by (apply Z.div_le_lower_bound; lia). lia.
Qed.

Lemma format_negative n sep :
  n < 0 -> representable n = true ->
  exists h m s ms,
    format_timestamp (PFloat (Fin n)) sep = Ok (render h m s ms sep)
    /\ h <= -1 /\ 0 <= m <= 60 /\ 0 <= s <= 60 /\ -1000 <= ms <= 0.
Proof.
  intros Hn Hrep. destruct (representable_neg n Hn Hrep) as [Hd Htop].
  pose proof one_pos as H1. pose proof one_lt_top as H1t.
  destruct (floordiv_neg n 3600 Hn Hd Htop ltac:(lia)) as (rh & Eh & Hrh).
  destruct (rem_neg n 3600 Hn ltac:(lia)) as (r36 & E36 & H36).
  destruct (rem_neg n 60 Hn ltac:(lia)) as (r60 & E60 & H60).
  (* int(seconds) and the fraction *)
  destruct (dbl_floor_frac (- n) Hd) as [HdI HdF].
  pose proof (Z.div_mod (- n) one ltac:(lia)) as Hdm.
  pose proof (Z.mod_pos_bound (- n) one H1) as HF.
  assert (Hq : 0 <= - n / one) by (apply Z.div_pos; lia).
  assert (Ei : Z.quot n one = - (- n / one)).
  { replace n with (- - n) at 1 by lia. rewrite Z.quot_opp_l by lia.
    rewrite Z.quot_div_nonneg by lia. reflexivity. }
  assert (Eoi : F64.of_int (Z.quot n one) = Ok (Fin (Z.quot n one * one))).
  { unfold F64.of_int. rewrite round_signed_exact; [reflexivity| |];
      rewrite Ei; replace (- (- n / one) * one) with (- (- n / one * one)) by ring;
      rewrite Z.abs_opp, Z.abs_eq by nia; [exact HdI|nia]. }
  assert (Esub : sub (Fin n) (Fin (Z.quot n one * one)) = Fin (- (- n mod one))).
  { rewrite sub_fin.
    replace (n - Z.quot n one * one) with (- (- n mod one)) by (rewrite Ei; lia).
    apply round_signed_exact; rewrite Z.abs_opp, Z.abs_eq by lia; [exact HdF|lia]. }
  assert (Hmag : Z.abs (- (- n mod one) * (1000 * one)) <= 1000 * one * one).
  { rewrite Z.abs_mul, Z.abs_opp, !Z.abs_eq by lia.
    rewrite (Z.mul_comm (- n mod one)). apply Z.mul_le_mono_nonneg_l; lia. }
  destruct (round_within _ one (1000 * one) H1 (dbl_int 1000 ltac:(lia))
              (int_lt_top 1000 ltac:(lia)) Hmag) as (P & EP & HP & _ & HPn).
  specialize (HPn ltac:(nia)).
  exists (Z.quot rh one), (r36 / (60 * one)), (r60 / one), (Z.quot P one).
  split.
  - unfold format_timestamp, PyNum.floordiv, PyNum.rem, PyNum.sub, PyNum.mul, PyNum.to_float.
    rewrite !of_int_small by lia. cbn [rbind].
    rewrite Eh. cbn [rbind PyNum.to_int F64.to_int].
    rewrite E36. cbn [rbind].
    rewrite floordiv_exact by lia. cbn [rbind PyNum.to_int].
    rewrite to_int_nonneg by (apply Z.mul_nonneg_nonneg; [apply Z.div_pos|]; lia).
    rewrite Z.div_mul by lia. cbn [rbind].
    rewrite E60. cbn [rbind PyNum.to_int].
    rewrite to_int_nonneg by lia. cbn [rbind F64.to_int].
    rewrite Eoi. cbn [rbind]. rewrite Esub. cbn [mul]. rewrite EP.
    cbn [rbind PyNum.to_int F64.to_int]. reflexivity.
  - split; [apply quot_neg; exact Hrh|].
    split; [split; [apply Z.div_pos; lia|apply Z.div_le_upper_bound; lia]|].
    split; [split; [apply Z.div_pos; lia|apply Z.div_le_upper_bound; lia]|].
    replace P with (- - P) by lia. rewrite Z.quot_opp_l by lia.
    rewrite Z.quot_div_nonneg by lia.
    assert (0 <= - P / one) by (apply Z.div_pos; lia).
    assert (- P / one <= 1000) by (apply Z.div_le_upper_bound; lia).
    lia.
Qed.

Lemma format_finite x sep :
  finite x = true -> exists s, format_timestamp x sep = Ok s.
Proof.
  destruct x as [z|[n| |]]; intros Hf; try discriminate.
  - eexists. apply format_any_int.
  - cbn [finite] in Hf. destruct (Z.lt_ge_cases n 0) as [Hn|Hn].
    + destruct (format_negative n sep Hn Hf) as (h & m & s & ms & E & _).
      eexists. exact E.
    + assert (Hok : seconds_ok (PFloat (Fin n)) = true).
      { cbn [seconds_ok]. rewrite Hf.
        destruct (Z.leb_spec 0 n); [reflexivity|lia]. }
      destruct (fields _ sep Hok) as (h & m & s & ms & E & _).
      eexists. exact E.
Qed.

Lemma format_inf b sep : format_timestamp (PFloat (Inf b)) sep = Raise ValueError.
Proof.
  unfold format_timestamp, PyNum.floordiv, PyNum.to_float.
  rewrite of_int_small by lia. destruct b; reflexivity.
Qed.

Lemma format_nan sep : format_timestamp (PFloat NaN) sep = Raise ValueError.
Proof.
  unfold format_timestamp, PyNum.floordiv, PyNum.to_float.
  rewrite of_int_small by lia. reflexivity.
Qed.

(** Of a number whose float is a double, only an infinity and a NaN are
    refused, with [ValueError]. *)
Lemma format_raise x sep e :
  is_double x = true -> format_timestamp x sep = Raise e ->
  e = ValueError /\ finite x = false.
Proof.
  destruct x as [z|[n| |]]; intros Hd E.
  - destruct (format_finite (PInt z) sep eq_refl) as (s & Es). congruence.
  - destruct (format_finite (PFloat (Fin n)) sep Hd) as (s & Es). congruence.
  - rewrite format_inf in E. split; [congruence|reflexivity].
  - rewrite format_nan in E. split; [congruence|reflexivity].
Qed.

Lemma render_head_minus h m s ms sep :
  h < 0 -> exists t, render h m s ms sep = 45%N :: t.
Proof.
  intros Hh. unfold render, zfill. destruct (Z.ltb_spec h 0); [|lia].
  eexists. reflexivity.
Qed.

Lemma render_head_digit h m s ms sep :
  0 <= h -> exists c t, render h m s ms sep = c :: t /\ is_digit c = true.
Proof.
  intros Hh. unfold render.
  pose proof (zfill_digits 2 h Hh) as Hd.
  pose proof (zfill_to_nat 2 h Hh) as Hv.
  destruct (zfill 2 h) as [|c t]; [discriminate|].
  cbn [forallb] in Hd. apply andb_true_iff in Hd. destruct Hd as [Hc _].
  exists c. eexists. split; [reflexivity|exact Hc].
Qed.

(** ** What a timestamp reads back to *)

Lemma hms_of_int z :
  0 <= z ->
  ((z / 3600 * 60 + z mod 3600 / 60) * 60 + z mod 60) = z
  /\ 0 <= z / 3600 /\ 0 <= z mod 3600 / 60 < 60 /\ 0 <= z mod 60 < 60.
Proof.
  intros Hz.
  pose proof (Z.div_mod z 3600 ltac:(lia)) as E1.
  pose proof (Z.mod_pos_bound z 3600 ltac:(lia)) as B1.
  pose proof (Z.div_mod (z mod 3600) 60 ltac:(lia)) as E2.
  pose proof (Z.mod_pos_bound (z mod 3600) 60 ltac:(lia)) as B2.
  pose proof (Z.mod_pos_bound z 60 ltac:(lia)) as B3.
  assert (E3 : z mod 60 = (z mod 3600) mod 60).
  { symmetry. apply (Z.mod_unique _ _ (z / 3600 * 60 + z mod 3600 / 60)); lia. }
  assert (0 <= z / 3600) by (apply Z.div_pos; lia).
  assert (0 <= z mod 3600 / 60 < 60).
  { split; [apply Z.div_pos; lia|apply Z.div_lt_upper_bound; lia]. }
  repeat split; lia.
Qed.

Lemma read_back_int z c :
  0 <= z -> c <> 58%N -> is_digit c = false ->
  exists s, format_timestamp (PInt z) [c] = Ok s
            /\ parse_timestamp c s = Some (z * 1000).
Proof.
  intros Hz Hc Hd. destruct (hms_of_int z Hz) as (E & Hh & Hm & Hs).
  eexists. split; [apply format_any_int|].
  rewrite parse_render by (auto; lia). rewrite E. f_equal. lia.
Qed.

Lemma millis_float n :
  dbl n -> n < top ->
  mul (Fin (n mod one)) (Fin (1000 * one))
  = Fin (round_pos (n mod one * (1000 * one)) one)
  /\ millis (PFloat (Fin n)) = round_pos (n mod one * (1000 * one)) one / one.
Proof.
  intros Hd Htop. pose proof one_pos as H1.
  pose proof (Z.mod_pos_bound n one H1) as HF.
  assert (E : mul (Fin (n mod one)) (Fin (1000 * one))
              = Fin (round_pos (n mod one * (1000 * one)) one)).
  { cbn [mul]. apply round_fin; [nia|lia|].
    assert (round_pos (n mod one * (1000 * one)) one <= 1000 * one).
    { apply round_pos_le; [nia|lia|apply dbl_int; lia|].
      rewrite (Z.mul_comm (n mod one)). apply Z.mul_le_mono_nonneg_l; lia. }
    pose proof (int_lt_top 1000 ltac:(lia)). lia. }
  split; [exact E|]. unfold millis. rewrite E. reflexivity.
Qed.

Lemma read_back x c :
  seconds_ok x = true -> units x < 2 ^ 53 * one ->
  c <> 58%N -> is_digit c = false ->
  exists s, format_timestamp x [c] = Ok s
    /\ parse_timestamp c s = Some (units x / one * 1000 + millis x)
    /\ 0 <= millis x < 1000.
Proof.
  intros Hok Hlt Hc Hdg. pose proof one_pos as H1.
  destruct x as [z|[n| |]]; try discriminate.
  - apply Z.leb_le in Hok.
    destruct (read_back_int z c Hok Hc Hdg) as (s & E & P).
    exists s. cbn [units millis]. rewrite Z.div_mul by lia.
    split; [exact E|]. split; [rewrite P; f_equal; lia|lia].
  - destruct (seconds_ok_float n Hok) as [Hd Htop]. pose proof Hd as [Hn _].
    cbn [units] in *.
    destruct (format_float n [c] Hd Htop) as (h & P & E & Hh & Hex & _ & EP & HP & _).
    destruct (millis_float n Hd Htop) as [EP' Em].
    rewrite EP' in EP. injection EP as EP. rewrite Em, EP.
    rewrite (Hex Hlt) in E.
    set (m := n mod (3600 * one) / (60 * one)) in *.
    set (s := n mod (60 * one) / one) in *.
    pose proof (Z.mod_pos_bound n (3600 * one) ltac:(lia)) as B1.
    pose proof (Z.mod_pos_bound n (60 * one) ltac:(lia)) as B3.
    pose proof (Z.mod_pos_bound n one ltac:(lia)) as B4.
    assert (Hm : 0 <= m < 60).
    { unfold m. split; [apply Z.div_pos; lia|apply Z.div_lt_upper_bound; lia]. }
    assert (Hs : 0 <= s < 60).
    { unfold s. split; [apply Z.div_pos; lia|apply Z.div_lt_upper_bound; lia]. }
    assert (Hfl : 0 <= 1000 * (n mod one) / one) by (apply Z.div_pos; lia).
    assert (HP0 : 0 <= P) by nia.
    assert (Hms : 0 <= P / one < 1000).
    { split; [apply Z.div_pos; lia|apply Z.div_lt_upper_bound; lia]. }
    assert (Hh0 : 0 <= n / (3600 * one)) by (apply Z.div_pos; lia).
    assert (Hval : (n / (3600 * one) * 60 + m) * 60 + s = n / one).
    { pose proof (Z.div_mod n (3600 * one) ltac:(lia)) as E1.
      pose proof (Z.div_mod (n mod (3600 * one)) (60 * one) ltac:(lia)) as E2.
      pose proof (Z.mod_pos_bound (n mod (3600 * one)) (60 * one) ltac:(lia)) as B2.
      fold m in E2.
      assert (E3 : n mod (60 * one) = (n mod (3600 * one)) mod (60 * one)).
      { symmetry. apply (Z.mod_unique _ _ (n / (3600 * one) * 60 + m)); lia. }
      pose proof (Z.div_mod (n mod (60 * one)) one ltac:(lia)) as E4.
      pose proof (Z.mod_pos_bound (n mod (60 * one)) one ltac:(lia)) as B5.
      fold s in E4.
      apply (Z.div_unique _ _ _ ((n mod (60 * one)) mod one)); lia. }
    eexists. split; [exact E|].
    rewrite parse_render by (auto; lia). rewrite Hval. auto.
Qed.

Lemma millis_nonneg x : seconds_ok x = true -> 0 <= millis x.
Proof.
  intros Hok. pose proof one_pos as H1.
  destruct x as [z|[n| |]]; try discriminate.
  destruct (seconds_ok_float n Hok) as [Hd Htop].
  destruct (millis_float n Hd Htop) as [_ Em]. rewrite Em.
  pose proof (Z.mod_pos_bound n one H1).
  apply Z.div_pos; [|lia]. apply round_pos_nonneg; [nia|lia].
Qed.

(** Within one second, a later value has no smaller milliseconds. *)
Lemma millis_mono x y :
  seconds_ok x = true -> seconds_ok y = true ->
  units x / one = units y / one -> units x <= units y ->
  millis x <= millis y.
Proof.
  intros Hx Hy Hfl Hle. pose proof one_pos as H1.
  pose proof (Z.div_mod (units x) one ltac:(lia)) as Dx.
  pose proof (Z.div_mod (units y) one ltac:(lia)) as Dy.
  pose proof (Z.mod_pos_bound (units x) one H1) as Bx.
  pose proof (Z.mod_pos_bound (units y) one H1) as By.
  assert (HF : units x mod one <= units y mod one) by (rewrite Hfl in Dx; lia).
  destruct x as [z|[n| |]]; try discriminate.
  - cbn [millis]. apply millis_nonneg. exact Hy.
  - destruct (seconds_ok_float n Hx) as [Hd Htop].
    destruct (millis_float n Hd Htop) as [_ Em]. rewrite Em.
    cbn [units] in *.
    destruct y as [z|[n'| |]]; try discriminate.
    + cbn [units] in HF. rewrite Z.mod_mul in HF by lia.
      assert (E0 : n mod one = 0) by lia. rewrite E0, Z.mul_0_l.
      assert (round_pos 0 one <= 0)
        by (apply round_pos_le; [lia|lia|apply dbl_0|lia]).
      pose proof (round_pos_nonneg 0 one ltac:(lia) H1).
      replace (round_pos 0 one) with 0 by lia. cbn [millis]. rewrite Z.div_0_l; lia.
    + destruct (seconds_ok_float n' Hy) as [Hd' Htop'].
      destruct (millis_float n' Hd' Htop') as [_ Em']. rewrite Em'.
      cbn [units] in *.
      apply Z.div_le_mono; [lia|]. apply round_pos_mono; [|lia].
      split; [nia|]. apply Z.mul_le_mono_nonneg_r; lia.
Qed.

End SignFacts.

(* ================================================================== *)
(** * More on [format_timestamp] *)

(** A finite [float] of either sign, and an [int] of either sign whose
    hours are within the digit limit of the conversion to a string, are
    formatted without an exception; an infinity and a NaN raise
    [ValueError] (from the [int()] of the NaN that [//] gives). *)
Theorem format_timestamp_raises_only_off_the_finite (sep : pystr) :
  (forall x, Timestamp.finite x = true -> Timestamp.printable x = true ->
             exists s, format_timestamp x sep = Ok s)
  /\ (forall b, format_timestamp (PFloat (F64.Inf b)) sep = Raise ValueError)
  /\ format_timestamp (PFloat F64.NaN) sep = Raise ValueError.
Proof.
  split; [|split].
  - intros x Hf _. apply SignFacts.format_finite. exact Hf.
  - intros b. apply SignFacts.format_inf.
  - apply SignFacts.format_nan.
Qed.

Lemma format_timestamp_raises_only_off_the_finite_witness :
  Timestamp.finite (PFloat (F64.of_decimal (-15) (-1))) = true
  /\ exists s, format_timestamp (PFloat (F64.of_decimal (-15) (-1))) (py ",") = Ok s.
Proof.
  assert (H : Timestamp.finite (PFloat (F64.of_decimal (-15) (-1))) = true)
    by (vm_compute; reflexivity).
  split; [exact H|].
  exact (proj1 (format_timestamp_raises_only_off_the_finite (py ",")) _ H eq_refl).
Defined.

(** A number below zero is not refused: its timestamp begins with a minus
    sign.  The timestamp of a number that is not below zero begins with a
    digit. *)
Theorem format_timestamp_sign (x : pynum) (sep : pystr) :
  Timestamp.finite x = true ->
  exists c t,
    format_timestamp x sep = Ok (c :: t)
    /\ (Timestamp.units x < 0 -> c = 45%N)
    /\ (0 <= Timestamp.units x -> PyStr.is_digit c = true).
Proof.
  intros Hf. pose proof F64Facts.one_pos as H1.
  destruct x as [z|[n| |]]; try discriminate; cbn [Timestamp.units].
  - rewrite SignFacts.format_any_int.
    destruct (Z.lt_ge_cases z 0) as [Hz|Hz].
    + destruct (SignFacts.render_head_minus (z / 3600) (z mod 3600 / 60) (z mod 60) 0 sep)
        as (t & ->).
      { apply Z.div_lt_upper_bound; lia. }
      exists 45%N, t. split; [reflexivity|]. split; [reflexivity|nia].
    + destruct (SignFacts.render_head_digit (z / 3600) (z mod 3600 / 60) (z mod 60) 0 sep)
        as (c & t & -> & Hc).
      { apply Z.div_pos; lia. }
      exists c, t. split; [reflexivity|]. split; [nia|auto].
  - cbn [Timestamp.finite] in Hf. destruct (Z.lt_ge_cases n 0) as [Hn|Hn].
    + destruct (SignFacts.format_negative n sep Hn Hf) as (h & m & s & ms & E & Hh & _).
      destruct (SignFacts.render_head_minus h m s ms sep ltac:(lia)) as (t & Et).
      exists 45%N, t. rewrite E, Et. split; [reflexivity|]. split; [reflexivity|lia].
    + assert (Hok : Timestamp.seconds_ok (PFloat (F64.Fin n)) = true).
      { cbn [Timestamp.seconds_ok]. rewrite Hf.
        destruct (Z.leb_spec 0 n); [reflexivity|lia]. }
      destruct (ShapeFacts.fields _ sep Hok) as (h & m & s & ms & E & Hh & _).
      destruct (SignFacts.render_head_digit h m s ms sep Hh) as (c & t & Et & Hc).
      exists c, t. rewrite E, Et. split; [reflexivity|]. split; [lia|auto].
Qed.

Lemma format_timestamp_sign_witness :
  exists c t,
    format_timestamp (PInt (-90)) (py ",") = Ok (c :: t)
    /\ (Timestamp.units (PInt (-90)) < 0 -> c = 45%N)
    /\ (0 <= Timestamp.units (PInt (-90)) -> PyStr.is_digit c = true).
Proof.
  apply (format_timestamp_sign (PInt (-90)) (py ",")). reflexivity.
Defined.

(** The separator is the only thing that depends on the separator: the
    comma timestamp and the dot timestamp of a value carry the same
    hours, minutes and seconds before it and the same milliseconds after
    it. *)
Theorem format_timestamp_separator (x : pynum) (sep s : pystr) :
  format_timestamp x sep = Ok s ->
  exists a b,
    s = a ++ sep ++ b
    /\ forall sep', format_timestamp x sep' = Ok (a ++ sep' ++ b).
Proof.
  unfold format_timestamp.
  repeat match goal with
  | |- context [rbind ?m _] => destruct m; cbn [rbind]; [|discriminate]
  end.
  match goal with
  | |- Ok (?h ++ ?c1 ++ ?m ++ ?c2 ++ ?t ++ sep ++ ?ms) = Ok s -> _ =>
      intros [= <-]; exists (h ++ c1 ++ m ++ c2 ++ t), ms
  end.
  split; [|intros sep']; rewrite <- !app_assoc; reflexivity.
Qed.

Lemma format_timestamp_separator_witness :
  exists a b,
    py "01:02:05,456" = a ++ py "," ++ b
    /\ forall sep', format_timestamp (PFloat (F64.of_decimal 37254567 (-4))) sep'
                    = Ok (a ++ sep' ++ b).
Proof.
  apply (format_timestamp_separator (PFloat (F64.of_decimal 37254567 (-4))) (py ",")).
  vm_compute. reflexivity.
Defined.

(** A whole number of seconds given as an [int] reads back exactly, far
    beyond the range of a [float]: up to the digit limit of the
    conversion of the hours to a string. *)
Theorem int_timestamps_read_back_exactly (z : Z) (c : N) :
  0 <= z -> Timestamp.printable (PInt z) = true -> c = 44%N \/ c = 46%N ->
  exists s, format_timestamp (PInt z) [c] = Ok s
            /\ Timestamp.parse_timestamp c s = Some (1000 * z).
Proof.
  intros Hz _ Hc.
  destruct (SignFacts.read_back_int z c Hz) as (s & E & P).
  - destruct Hc as [-> | ->]; discriminate.
  - destruct Hc as [-> | ->]; reflexivity.
  - exists s. split; [exact E|]. rewrite P. f_equal. lia.
Qed.

Lemma int_timestamps_read_back_exactly_witness :
  exists s, format_timestamp (PInt (10 ^ 20)) [44%N] = Ok s
            /\ Timestamp.parse_timestamp 44%N s = Some (1000 * 10 ^ 20).
Proof.
  apply (int_timestamps_read_back_exactly (10 ^ 20) 44%N).
  - vm_compute. discriminate.
  - vm_compute. reflexivity.
  - left. reflexivity.
Defined.

(** Below [2^53] seconds the written timestamps keep the order of the
    values: a value that is not larger reads back to a number of
    milliseconds that is not larger. *)
Theorem timestamps_keep_the_order (x y : pynum) (c : N) :
  Timestamp.seconds_ok x = true -> Timestamp.seconds_ok y = true ->
  Timestamp.units x <= Timestamp.units y ->
  Timestamp.units y < 2 ^ 53 * F64.one ->
  c = 44%N \/ c = 46%N ->
  exists s t a b,
    format_timestamp x [c] = Ok s /\ format_timestamp y [c] = Ok t
    /\ Timestamp.parse_timestamp c s = Some a
    /\ Timestamp.parse_timestamp c t = Some b
    /\ a <= b.
Proof.
  intros Hx Hy Hle Hlt Hc. pose proof F64Facts.one_pos as H1.
  assert (Hc' : c <> 58%N /\ PyStr.is_digit c = false)
    by (destruct Hc as [-> | ->]; split; [discriminate|reflexivity|discriminate|reflexivity]).
  destruct Hc' as [Hc1 Hc2].
  destruct (SignFacts.read_back x c Hx ltac:(lia) Hc1 Hc2) as (s & Es & Ps & Hms).
  destruct (SignFacts.read_back y c Hy Hlt Hc1 Hc2) as (t & Et & Pt & Hmt).
  exists s, t, (Timestamp.units x / F64.one * 1000 + Timestamp.millis x),
         (Timestamp.units y / F64.one * 1000 + Timestamp.millis y).
  split; [exact Es|]. split; [exact Et|]. split; [exact Ps|]. split; [exact Pt|].
  assert (Hdiv : Timestamp.units x / F64.one <= Timestamp.units y / F64.one)
    by (apply Z.div_le_mono; lia).
  destruct (Z.eq_dec (Timestamp.units x / F64.one) (Timestamp.units y / F64.one)) as [E|E].
  - pose proof (SignFacts.millis_mono x y Hx Hy E Hle). lia.
  - lia.
Qed.

Lemma timestamps_keep_the_order_witness :
  exists s t a b,
    format_timestamp (Out.seg_start an_hour_in) [44%N] = Ok s
    /\ format_timestamp (Out.seg_end an_hour_in) [44%N] = Ok t
    /\ Timestamp.parse_timestamp 44%N s = Some a
    /\ Timestamp.parse_timestamp 44%N t = Some b
    /\ a <= b.
Proof.
  apply (timestamps_keep_the_order (Out.seg_start an_hour_in) (Out.seg_end an_hour_in) 44%N).
  - vm_compute. reflexivity.
  - vm_compute. reflexivity.
  - vm_compute. discriminate.
  - vm_compute. reflexivity.
  - left. reflexivity.
Defined.

Module ReadableFacts.
Import Timestamp PyStr PyStrFacts Out OutFacts.

(** ** Timestamps of finite values of either sign *)

Lemma seconds_ok_finite x : seconds_ok x = true -> finite x = true.
Proof.
  destruct x as [z|[n| |]]; cbn [seconds_ok finite]; try discriminate; [reflexivity|].
  intros H. apply andb_true_iff in H. tauto.
Qed.

Lemma usable_readable g : usable g -> readable g.
Proof. intros (Ha & Hb & Ht). repeat split; auto using seconds_ok_finite. Qed.

Lemma zfill_encodable w v : encodable (zfill w v) = true.
Proof.
  unfold zfill. destruct (Z.ltb_spec v 0).
  - change (45%N :: ?l) with ([45%N] ++ l). rewrite !encodable_app.
    rewrite (digits_encodable (repeat _ _)) by (apply forallb_repeat; reflexivity).
    rewrite (digits_encodable (of_nonneg _)) by (apply of_nonneg_digits; lia).
    reflexivity.
  - rewrite encodable_app.
    rewrite (digits_encodable (repeat _ _)) by (apply forallb_repeat; reflexivity).
    rewrite (digits_encodable (of_nonneg _)) by (apply of_nonneg_digits; lia).
    reflexivity.
Qed.

Lemma format_encodable x sep s :
  format_timestamp x sep = Ok s -> encodable sep = true -> encodable s = true.
Proof.
  unfold format_timestamp, rbind.
  repeat match goal with
         | |- match ?m with Ok _ => _ | Raise _ => _ end = _ -> _ =>
             destruct m; [|discriminate]
         end.
  intros [= <-] Hsep.
  assert (Hcons : forall c l, encodable (c :: l) = negb (is_surrogate c) && encodable l)
    by reflexivity.
  repeat first [rewrite zfill_encodable | rewrite Hsep
               | rewrite encodable_app | rewrite Hcons].
  reflexivity.
Qed.

Lemma ts_fin x sep : finite x = true -> format_timestamp x sep = Ok (ts x sep).
Proof.
  intros Hx. destruct (SignFacts.format_finite x sep Hx) as (s & E).
  unfold ts. rewrite E. reflexivity.
Qed.

Lemma ts_encodable_fin x sep :
  finite x = true -> encodable sep = true -> encodable (ts x sep) = true.
Proof.
  intros Hx Hsep. eapply format_encodable; [apply ts_fin; exact Hx|exact Hsep].
Qed.

Lemma segment_fields_fin sep j g :
  has_segment j g ->
  finite (seg_start g) = true -> finite (seg_end g) = true ->
  segment_fields sep j
  = Ok (ts (seg_start g) sep, ts (seg_end g) sep, strip (seg_text g)).
Proof.
  intros (m & -> & E1 & E2 & E3) Ha Hb. unfold segment_fields.
  cbn [Json.getitem]. rewrite E1, E2, E3. cbn [rbind Json.as_num Json.strip].
  rewrite (ts_fin _ sep Ha). cbn [rbind]. rewrite (ts_fin _ sep Hb). reflexivity.
Qed.

Lemma srt_block_encodable_fin i g :
  0 <= i -> readable g -> encodable (srt_block i g) = true.
Proof.
  intros Hi (Ha & Hb & Ht). unfold srt_block.
  rewrite !encodable_app, of_int_nonneg by lia.
  rewrite digits_encodable by (apply of_nonneg_digits; lia).
  rewrite (ts_encodable_fin (seg_start g)) by (auto; reflexivity).
  rewrite (ts_encodable_fin (seg_end g)) by (auto; reflexivity).
  rewrite encodable_strip by exact Ht. reflexivity.
Qed.

Lemma vtt_block_encodable_fin g : readable g -> encodable (vtt_block g) = true.
Proof.
  intros (Ha & Hb & Ht). unfold vtt_block. rewrite !encodable_app.
  rewrite (ts_encodable_fin (seg_start g)) by (auto; reflexivity).
  rewrite (ts_encodable_fin (seg_end g)) by (auto; reflexivity).
  rewrite encodable_strip by exact Ht. reflexivity.
Qed.

(** ** The two loops and the whole function *)

Lemma srt_loop_fin path js : forall gs i,
  Forall2 has_segment js gs -> Forall readable gs -> 0 <= i ->
  srt_loop path i js = (srt_writes path i gs, Ok tt).
Proof.
  induction js as [|j js IH]; intros gs i H2 Hu Hi; inversion H2; subst.
  - reflexivity.
  - inversion Hu; subst. cbn [srt_loop srt_writes].
    match goal with H : readable _ |- _ => pose proof H as (Ha & Hb & Ht) end.
    rewrite (segment_fields_fin _ _ _ ltac:(eassumption) Ha Hb).
    unfold IO.lift, IO.bind at 1. cbn [app].
    change (srt_chunk i (ts (seg_start y) (py ","), ts (seg_end y) (py ","),
                         strip (seg_text y))) with (srt_block i y).
    unfold write. rewrite srt_block_encodable_fin by (auto; lia).
    unfold IO.emit, IO.bind. rewrite (IH l' (i + 1)) by (auto; lia).
    reflexivity.
Qed.

Lemma vtt_loop_fin path js : forall gs,
  Forall2 has_segment js gs -> Forall readable gs ->
  vtt_loop path js = (vtt_writes path gs, Ok tt).
Proof.
  induction js as [|j js IH]; intros gs H2 Hu; inversion H2; subst.
  - reflexivity.
  - inversion Hu; subst. cbn [vtt_loop vtt_writes map].
    match goal with H : readable _ |- _ => pose proof H as (Ha & Hb & Ht) end.
    rewrite (segment_fields_fin _ _ _ ltac:(eassumption) Ha Hb).
    unfold IO.lift, IO.bind at 1. cbn [app].
    change (vtt_chunk (ts (seg_start y) (py "."), ts (seg_end y) (py "."),
                       strip (seg_text y))) with (vtt_block y).
    unfold write. rewrite vtt_block_encodable_fin by auto.
    unfold IO.emit, IO.bind. rewrite (IH l') by auto.
    reflexivity.
Qed.

Lemma save_srt_fin w js gs dir base c :
  w (srt_path dir base) = true ->
  Forall2 has_segment js gs -> Forall readable gs ->
  save_srt w (JArr js) dir base c
  = (EvOpen (srt_path dir base) :: srt_writes (srt_path dir base) 1 gs,
     Ok (<[py "srt" := srt_path dir base]> c)).
Proof.
  intros Hw H2 Hu. unfold save_srt. fold (srt_path dir base).
  unfold open_w. rewrite Hw. cbn [Json.iter].
  erewrite bind_ok; [|reflexivity|].
  2:{ rewrite bind_lift_ok. erewrite bind_ok; [reflexivity| |reflexivity].
      apply srt_loop_fin; [exact H2|exact Hu|lia]. }
  rewrite app_nil_r. reflexivity.
Qed.

Lemma save_vtt_fin w js gs dir base c :
  w (vtt_path dir base) = true ->
  Forall2 has_segment js gs -> Forall readable gs ->
  save_vtt w (JArr js) dir base c
  = (EvOpen (vtt_path dir base) :: EvWrite (vtt_path dir base) vtt_header
       :: vtt_writes (vtt_path dir base) gs,
     Ok (<[py "vtt" := vtt_path dir base]> c)).
Proof.
  intros Hw H2 Hu. unfold save_vtt. fold (vtt_path dir base).
  unfold open_w. rewrite Hw. cbn [Json.iter].
  erewrite bind_ok; [|reflexivity|].
  2:{ erewrite bind_ok; [reflexivity|reflexivity|].
      rewrite bind_lift_ok. erewrite bind_ok; [reflexivity| |reflexivity].
      apply vtt_loop_fin; [exact H2|exact Hu]. }
  rewrite app_nil_r. reflexivity.
Qed.

Lemma save_fin w r dir base js gs :
  (forall p, w p = true) -> text_ok r ->
  r !! py "segments" = Some (JArr js) -> js <> [] ->
  Forall2 has_segment js gs -> Forall readable gs ->
  save_chutes_outputs w (JObj r) dir base
  = (txt_events r dir base
     ++ (EvOpen (srt_path dir base) :: srt_writes (srt_path dir base) 1 gs)
     ++ EvOpen (vtt_path dir base) :: EvWrite (vtt_path dir base) vtt_header
        :: vtt_writes (vtt_path dir base) gs,
     Ok (<[py "vtt" := vtt_path dir base]>
         (<[py "srt" := srt_path dir base]> (txt_files r dir base)))).
Proof.
  intros Hw Ht Hs Hne H2 Hu. unfold save_chutes_outputs. cbn zeta. cbn [Json.get].
  rewrite bind_lift_ok. rewrite Hs. cbn [default].
  destruct (truthy_text_of r Ht) as (Etr & Etx & Henc). rewrite Etr, Etx.
  assert (Hseg : Json.truthy (JArr js) = true).
  { cbn. destruct js; [congruence|reflexivity]. }
  assert (Htail : forall c,
    (if Json.truthy (JArr js)
     then IO.bind (save_srt w (JArr js) dir base c)
            (fun c' => save_vtt w (JArr js) dir base c')
     else IO.ret c)
    = ((EvOpen (srt_path dir base) :: srt_writes (srt_path dir base) 1 gs)
       ++ EvOpen (vtt_path dir base) :: EvWrite (vtt_path dir base) vtt_header
          :: vtt_writes (vtt_path dir base) gs,
       Ok (<[py "vtt" := vtt_path dir base]> (<[py "srt" := srt_path dir base]> c)))).
  { intros c. rewrite Hseg. eapply bind_ok.
    - apply save_srt_fin; auto.
    - apply save_vtt_fin; auto. }
  unfold txt_events, txt_files.
  destruct (text_of r) as [|c0 s] eqn:Es.
  - cbn [bool_decide negb]. rewrite bool_decide_eq_true_2 by reflexivity. cbn [negb].
    rewrite bind_ret, bind_lift_ok. apply Htail.
  - rewrite bool_decide_eq_false_2 by discriminate. cbn [negb].
    erewrite bind_ok; [reflexivity| |].
    + apply save_txt_ok; auto.
    + rewrite bind_lift_ok. apply Htail.
Qed.

(** A readable segment is a caption of zero length exactly when its two
    values are written as the same timestamp. *)
Lemma zero_length_iff g :
  readable g ->
  zero_length_caption g <-> ts (seg_start g) (py ",") = ts (seg_end g) (py ",").
Proof.
  intros (Ha & Hb & _). unfold zero_length_caption.
  rewrite (segment_fields_fin (py ",") _ g (has_segment_json g) Ha Hb).
  split.
  - intros (s & e & t & [= <- <- _] & E). exact E.
  - intros E. eauto.
Qed.

End ReadableFacts.

(* ================================================================== *)
(** * Segments that end before they start *)

(** The segment (5.0, 2.0, "x") is written with the timestamps
    [00:00:05,000] and [00:00:02,000]: it is not made a caption of zero
    length.  And a segment that starts after it ends can make the
    serialiser raise: (inf, 2.0, "x") raises [ValueError], and
    (5.0, 2.0, "\ud800") raises [UnicodeEncodeError], each with the SRT
    file opened and left empty. *)
Lemma C8_counterexample :
  (Out.readable five_two /\ Out.reversed five_two
   /\ Out.segment_fields (py ",") (Out.seg_json five_two)
      = Ok (py "00:00:05,000", py "00:00:02,000", py "x")
   /\ ~ Out.zero_length_caption five_two)
  /\ (Out.reversed inf_two
      /\ Out.save_chutes_outputs (fun _ => true)
           (JObj (<[py "segments" := JArr [Out.seg_json inf_two]]> ∅)) (py "out") (py "a")
         = ([EvOpen (Out.srt_path (py "out") (py "a"))], Raise ValueError))
  /\ (Out.reversed five_two_surrogate
      /\ Out.save_chutes_outputs (fun _ => true)
           (JObj (<[py "segments" := JArr [Out.seg_json five_two_surrogate]]> ∅))
           (py "out") (py "a")
         = ([EvOpen (Out.srt_path (py "out") (py "a"))], Raise UnicodeEncodeError)).
Proof.
  split; [|split; split; vm_compute; reflexivity].
  split; [repeat split; vm_compute; reflexivity|].
  split; [vm_compute; reflexivity|].
  assert (E : Out.segment_fields (py ",") (Out.seg_json five_two)
              = Ok (py "00:00:05,000", py "00:00:02,000", py "x"))
    by (vm_compute; reflexivity).
  split; [exact E|].
  intros (s & e & t & E' & Heq). rewrite E in E'. inversion E'; subst. discriminate.
Qed.

(** C8 (amended). Segments with [start > end] whose times are finite
    numbers, of either sign, and whose text UTF-8 can carry do not make
    the serialiser raise: every segment is written, in both files, with
    its start and its end formatted each from its own value and in the
    given order.  Nothing is reordered or clamped: a segment is a caption
    of zero length exactly when its two values are written as the same
    timestamp. *)
Theorem C8_reversed_segments_are_written_as_given
    (w : pystr -> bool) (r : gmap pystr json) (dir base : pystr)
    (js : list json) (gs : list Out.segment) :
  (forall p, w p = true) -> Out.text_ok r ->
  r !! py "segments" = Some (JArr js) ->
  Forall2 Out.has_segment js gs -> Forall Out.readable gs ->
  Exists Out.reversed gs ->
  exists tr m,
    Out.save_chutes_outputs w (JObj r) dir base = (tr, Ok m)
    /\ Out.content (Out.srt_path dir base) tr None = Some (Out.to_srt gs)
    /\ Out.content (Out.vtt_path dir base) tr None = Some (Out.to_vtt gs)
    /\ Forall2 (fun j g => forall sep,
                  Out.segment_fields sep j
                  = Ok (Out.ts (Out.seg_start g) sep, Out.ts (Out.seg_end g) sep,
                        PyStr.strip (Out.seg_text g))) js gs
    /\ Forall (fun g => Out.zero_length_caption g
                        <-> Out.ts (Out.seg_start g) (py ",")
                            = Out.ts (Out.seg_end g) (py ",")) gs.
Proof.
  intros Hw Ht Hs H2 Hu Hex.
  assert (Hne : js <> []).
  { intros ->. inversion H2; subst. inversion Hex. }
  eexists _, _. split; [apply (ReadableFacts.save_fin w r dir base js gs); assumption|].
  destruct (content_of_save r dir base gs) as [E1 E2].
  split; [exact E1|]. split; [exact E2|]. split.
  - clear - H2 Hu. induction H2 as [|j g js gs Hj _ IH]; constructor.
    + inversion Hu as [|? ? (Ha & Hb & _) _]; subst.
      intros sep. apply ReadableFacts.segment_fields_fin; assumption.
    + apply IH. inversion Hu; assumption.
  - eapply Forall_impl; [exact Hu|]. intros g Hg. apply ReadableFacts.zero_length_iff. exact Hg.
Qed.

Lemma C8_witness :
  exists tr m,
    Out.save_chutes_outputs (fun _ => true)
      (JObj (<[py "segments" := JArr [Out.seg_json same_millisecond]]> ∅)) (py "out") (py "a")
    = (tr, Ok m)
    /\ Out.content (Out.srt_path (py "out") (py "a")) tr None
       = Some (Out.to_srt [same_millisecond])
    /\ Out.zero_length_caption same_millisecond.
Proof.
  destruct (C8_reversed_segments_are_written_as_given (fun _ => true)
              (<[py "segments" := JArr [Out.seg_json same_millisecond]]> ∅)
              (py "out") (py "a") [Out.seg_json same_millisecond] [same_millisecond])
    as (tr & m & E & Hs & _ & _ & Hz).
  - reflexivity.
  - exact I.
  - apply lookup_insert_eq.
  - repeat constructor. apply OutFacts.has_segment_json.
  - repeat constructor; vm_compute; reflexivity.
  - left. vm_compute. reflexivity.
  - exists tr, m. split; [exact E|]. split; [exact Hs|].
    inversion Hz as [|? ? Hg _]; subst. apply Hg. vm_compute. reflexivity.
Defined.

(* ================================================================== *)
(** * Reading the timestamps back *)

(** The value [1e20] is written as [27777777777777776:46:40,000], which
    reads back 3600 seconds below it. *)
Lemma C9_counterexample :
  Out.usable far_future /\ Out.ordered far_future
  /\ format_timestamp (Out.seg_start far_future) [44%N]
     = Ok (py "27777777777777776:46:40,000")
  /\ Timestamp.parse_timestamp 44%N (py "27777777777777776:46:40,000")
     = Some (10 ^ 23 - 3600000)
  /\ ~ Timestamp.round_trips (Out.seg_start far_future) 44%N.
Proof.
  split; [repeat split; vm_compute; reflexivity|].
  split; [vm_compute; discriminate|].
  assert (E : format_timestamp (Out.seg_start far_future) [44%N]
              = Ok (py "27777777777777776:46:40,000")) by (vm_compute; reflexivity).
  assert (P : Timestamp.parse_timestamp 44%N (py "27777777777777776:46:40,000")
              = Some (10 ^ 23 - 3600000)) by (vm_compute; reflexivity).
  split; [exact E|]. split; [exact P|].
  intros (s & t & E' & P' & Hlt). rewrite E in E'. inversion E'; subst.
  rewrite P in P'. inversion P'; subst.
  vm_compute in Hlt. discriminate.
Qed.

(** C9 (amended). For every segment with [0 <= start <= end] and
    [end] below [2^53] seconds, each of the four timestamps written for
    it (start and end, with the comma and with the dot) reads back to a
    number of milliseconds less than one millisecond away from the
    value. *)
Theorem C9_timestamps_read_back_within_a_millisecond
    (g : Out.segment) (sep : N) :
  Out.usable g -> Out.ordered g ->
  Timestamp.units (Out.seg_end g) < 2 ^ 53 * F64.one ->
  sep = 44%N \/ sep = 46%N ->
  exists s e t ms_s ms_e,
    Out.segment_fields [sep] (Out.seg_json g) = Ok (s, e, t)
    /\ Timestamp.parse_timestamp sep s = Some ms_s
    /\ Timestamp.parse_timestamp sep e = Some ms_e
    /\ Z.abs (1000 * Timestamp.units (Out.seg_start g) - ms_s * F64.one) < F64.one
    /\ Z.abs (1000 * Timestamp.units (Out.seg_end g) - ms_e * F64.one) < F64.one.
Proof.
  intros (Ha & Hb & _) Hord Hlt Hsep. unfold Out.ordered in Hord.
  assert (Hc : sep <> 58%N /\ PyStr.is_digit sep = false)
    by (destruct Hsep as [-> | ->]; split; [discriminate|reflexivity|discriminate|reflexivity]).
  destruct Hc as [Hc Hd].
  destruct (ShapeFacts.round_trip (Out.seg_start g) sep Ha ltac:(lia) Hc Hd)
    as (s & ms_s & Es & Ps & Hs).
  destruct (ShapeFacts.round_trip (Out.seg_end g) sep Hb Hlt Hc Hd)
    as (e & ms_e & Ee & Pe & He).
  exists s, e, (PyStr.strip (Out.seg_text g)), ms_s, ms_e.
  split; [|auto].
  rewrite (OutFacts.segment_fields_ok [sep] _ g (OutFacts.has_segment_json g) Ha Hb).
  unfold Out.ts. rewrite Es, Ee. reflexivity.
Qed.

Lemma C9_witness :
  exists s e t ms_s ms_e,
    Out.segment_fields [44%N] (Out.seg_json an_hour_in) = Ok (s, e, t)
    /\ Timestamp.parse_timestamp 44%N s = Some ms_s
    /\ Timestamp.parse_timestamp 44%N e = Some ms_e
    /\ Z.abs (1000 * Timestamp.units (Out.seg_start an_hour_in) - ms_s * F64.one)
       < F64.one
    /\ Z.abs (1000 * Timestamp.units (Out.seg_end an_hour_in) - ms_e * F64.one)
       < F64.one.
Proof.
  apply (C9_timestamps_read_back_within_a_millisecond an_hour_in 44%N).
  - repeat split; vm_compute; reflexivity.
  - vm_compute. discriminate.
  - vm_compute. reflexivity.
  - left. reflexivity.
Defined.

Module Base64Facts.
Import Gateway.

Lemma list_ind3 {A} (P : list A -> Prop) :
  P [] -> (forall a, P [a]) -> (forall a b, P [a; b]) ->
  (forall a b c l, P l -> P (a :: b :: c :: l)) -> forall l, P l.
Proof.
  intros H0 H1 H2 H3.
  assert (H : forall l, P l /\ (forall a, P (a :: l)) /\ forall a b, P (a :: b :: l)).
  { induction l as [|x l (IH0 & IH1 & IH2)]; [auto|].
    split; [apply IH1|]. split; [intros; apply IH2|]. intros a b. apply H3. exact IH0. }
  intros l. apply H.
Qed.

Ltac n_cases :=
  repeat match goal with
  | |- context [(?a <? ?b)%N] => destruct (N.ltb_spec a b)
  | |- context [(?a <=? ?b)%N] => destruct (N.leb_spec a b)
  | |- context [(?a =? ?b)%N] => destruct (N.eqb_spec a b)
  end.

Lemma b64_index_char i : (i < 64)%N -> b64_index (b64_char i) = Some i.
Proof.
  intros Hi. unfold b64_char.
  destruct (N.ltb_spec i 26); [|destruct (N.ltb_spec i 52);
    [|destruct (N.ltb_spec i 62); [|destruct (N.eqb_spec i 62)]]];
    unfold b64_index; n_cases; cbn [andb]; try lia; f_equal; lia.
Qed.

Lemma b64_char_not_pad i : (i < 64)%N -> (b64_char i =? 61)%N = false.
Proof.
  intros Hi. destruct (N.eqb_spec (b64_char i) 61) as [E|]; [|reflexivity].
  pose proof (b64_index_char i Hi) as H. rewrite E in H. discriminate.
Qed.

Lemma b64_char_alphabet i : (i < 64)%N -> b64_alphabet (b64_char i) = true.
Proof. intros Hi. unfold b64_alphabet. rewrite b64_index_char by exact Hi. reflexivity. Qed.

Ltac euclid := zify; Z.to_euclidean_division_equations; lia.

(** The four characters of a group of three bytes, and what they read
    back to. *)
Lemma sextets a b c :
  (a < 256)%N -> (b < 256)%N -> (c < 256)%N ->
  let n := (a * 65536 + b * 256 + c)%N in
  (n / 262144 < 64 /\ (n / 4096) mod 64 < 64 /\ (n / 64) mod 64 < 64 /\ n mod 64 < 64
   /\ (n / 262144 * 64 + (n / 4096) mod 64) * 64 + (n / 64) mod 64 = n / 64
   /\ n / 262144 * 64 + (n / 4096) mod 64 = n / 4096
   /\ n / 64 * 64 + n mod 64 = n
   /\ n / 65536 = a /\ (n / 256) mod 256 = b /\ n mod 256 = c)%N.
Proof. intros Ha Hb Hc n. subst n. repeat split; euclid. Qed.

Ltac b64_step :=
  rewrite ?b64_index_char, ?b64_char_not_pad by assumption;
  change (61 =? 61)%N with true;
  cbn [mbind option_bind andb]; cbv iota.

Lemma decode_encode bs :
  Forall (fun b => (b < 256)%N) bs -> b64decode (b64encode bs) = Some bs.
Proof.
  induction bs as [|a|a b|a b c l IH] using list_ind3; intros Hall.
  - reflexivity.
  - inversion Hall as [|? ? Ha _]; subst.
    destruct (sextets a 0 0 Ha ltac:(lia) ltac:(lia)) as (H1 & H2 & _ & _ & _ & E & _).
    cbn [b64encode b64decode].
    replace (a * 65536 + 0 * 256 + 0)%N with (a * 65536)%N in * by lia.
    b64_step. rewrite E. f_equal. f_equal. euclid.
  - inversion Hall as [|? ? Ha Hall']; subst. inversion Hall' as [|? ? Hb _]; subst.
    destruct (sextets a b 0 Ha Hb ltac:(lia)) as (H1 & H2 & H3 & _ & E & _).
    cbn [b64encode b64decode].
    replace (a * 65536 + b * 256 + 0)%N with (a * 65536 + b * 256)%N in * by lia.
    b64_step. rewrite E. f_equal. f_equal; [|f_equal]; euclid.
  - inversion Hall as [|? ? Ha Hall']; subst. inversion Hall' as [|? ? Hb Hall'']; subst.
    inversion Hall'' as [|? ? Hc Hl]; subst.
    destruct (sextets a b c Ha Hb Hc) as (H1 & H2 & H3 & H4 & E & _ & E' & Ea & Eb & Ec).
    cbn [b64encode app b64decode].
    b64_step. rewrite (IH Hl). cbn [mbind option_bind].
    rewrite E, E', Ea, Eb, Ec. reflexivity.
Qed.

Lemma encode_shape bs :
  Forall (fun b => (b < 256)%N) bs ->
  Forall (fun c => b64_alphabet c = true) (b64encode bs)
  /\ Z.of_nat (length (b64encode bs)) = 4 * ((Z.of_nat (length bs) + 2) / 3).
Proof.
  induction bs as [|a|a b|a b c l IH] using list_ind3; intros Hall.
  - split; [constructor|reflexivity].
  - inversion Hall as [|? ? Ha _]; subst.
    destruct (sextets a 0 0 Ha ltac:(lia) ltac:(lia)) as (H1 & H2 & _).
    cbn [b64encode].
    replace (a * 65536 + 0 * 256 + 0)%N with (a * 65536)%N in * by lia.
    split; [|reflexivity].
    repeat constructor; auto using b64_char_alphabet.
  - inversion Hall as [|? ? Ha Hall']; subst. inversion Hall' as [|? ? Hb _]; subst.
    destruct (sextets a b 0 Ha Hb ltac:(lia)) as (H1 & H2 & H3 & _).
    cbn [b64encode].
    replace (a * 65536 + b * 256 + 0)%N with (a * 65536 + b * 256)%N in * by lia.
    split; [|reflexivity].
    repeat constructor; auto using b64_char_alphabet.
  - inversion Hall as [|? ? Ha Hall']; subst. inversion Hall' as [|? ? Hb Hall'']; subst.
    inversion Hall'' as [|? ? Hc Hl]; subst.
    destruct (sextets a b c Ha Hb Hc) as (H1 & H2 & H3 & H4 & _).
    destruct (IH Hl) as [IHa IHl].
    cbn [b64encode app]. split.
    + repeat (constructor; [apply b64_char_alphabet; assumption|]). exact IHa.
    + cbn [length]. rewrite !Nat2Z.inj_succ, IHl.
      replace (Z.succ (Z.succ (Z.succ (Z.of_nat (length l)))) + 2)
        with (Z.of_nat (length l) + 2 + 1 * 3) by lia.
      rewrite Z.div_add by lia. lia.
Qed.

End Base64Facts.

(* ================================================================== *)
(** * More on [transcribe_with_chutes] *)

(** The language ["auto"] is sent as no language: the run with it is the
    run without a language.  Any other language is sent as it is given,
    in the one request of the run. *)
Theorem auto_language_is_no_language
    (w : world) (audio_path api_token model : pystr) :
  Gateway.transcribe_with_chutes w audio_path api_token model (Some (py "auto"))
  = Gateway.transcribe_with_chutes w audio_path api_token model None
  /\ forall lang bs,
       lang <> py "auto" ->
       path_exists w audio_path = true -> read_bytes w audio_path = Ok bs ->
       exists q,
         Gateway.filter_posts
           (fst (Gateway.transcribe_with_chutes w audio_path api_token model (Some lang)))
         = [q]
         /\ req_language q = Some lang
         /\ req_audio_b64 q = Gateway.b64encode bs.
Proof.
  split.
  - reflexivity.
  - intros lang bs Hl Ex Er.
    pose proof (GatewayFacts.outcome w audio_path api_token model (Some lang)) as H.
    cbv zeta in H. rewrite Ex, Er in H.
    exists (Gateway.build_request api_token model (Some lang) (Gateway.b64encode bs)).
    split.
    + destruct (post w _) as [resp|e];
        [destruct (status resp =? 200);
         [destruct (body_json resp) as [?|e]|destruct (body_text resp) as [?|e]]|];
        try destruct (is_exception e); rewrite H; reflexivity.
    + cbn [Gateway.build_request req_language req_audio_b64].
      rewrite bool_decide_eq_false_2 by congruence. auto.
Qed.

Lemma auto_language_is_no_language_witness :
  py "en" <> py "auto"
  /\ exists q,
       Gateway.filter_posts
         (fst (Gateway.transcribe_with_chutes one_file (py "a.ogg") (py "k") (py "whisper")
                 (Some (py "en"))))
       = [q]
       /\ req_language q = Some (py "en")
       /\ req_audio_b64 q = Gateway.b64encode [79; 103; 103]%N.
Proof.
  split; [discriminate|].
  apply (proj2 (auto_language_is_no_language one_file (py "a.ogg") (py "k") (py "whisper"))
           (py "en") [79; 103; 103]%N).
  - discriminate.
  - reflexivity.
  - reflexivity.
Defined.



(** The payload of the request is ASCII text of the base64 alphabet, four
    characters for every three bytes of the file or part of three, and
    it reads back to the bytes of the file. *)
Theorem audio_payload_reads_back (bs : list N) :
  Forall (fun b => (b < 256)%N) bs ->
  Gateway.b64decode (Gateway.b64encode bs) = Some bs
  /\ Forall (fun c => Gateway.b64_alphabet c = true /\ (c < 128)%N) (Gateway.b64encode bs)
  /\ Z.of_nat (length (Gateway.b64encode bs)) = 4 * ((Z.of_nat (length bs) + 2) / 3).
Proof.
  intros Hall. split; [apply Base64Facts.decode_encode; exact Hall|].
  destruct (Base64Facts.encode_shape bs Hall) as [Ha Hl]. split; [|exact Hl].
  eapply Forall_impl; [exact Ha|]. intros c Hc. split; [exact Hc|].
  unfold Gateway.b64_alphabet, Gateway.b64_index in Hc.
  repeat match type of Hc with
  | context [(?a <=? ?b)%N] => destruct (N.leb_spec a b)
  | context [(?a =? ?b)%N] => destruct (N.eqb_spec a b)
  end; cbn [andb] in Hc; try discriminate; lia.
Qed.

Lemma audio_payload_reads_back_witness :
  Gateway.b64decode (Gateway.b64encode [79; 103; 103; 83]%N) = Some [79; 103; 103; 83]%N
  /\ Forall (fun c => Gateway.b64_alphabet c = true /\ (c < 128)%N)
       (Gateway.b64encode [79; 103; 103; 83]%N)
  /\ Z.of_nat (length (Gateway.b64encode [79; 103; 103; 83]%N))
     = 4 * ((Z.of_nat (length [79; 103; 103; 83]%N) + 2) / 3).
Proof.
  apply (audio_payload_reads_back [79; 103; 103; 83]%N).
  repeat constructor.
Defined.

Module SaveFacts.
Import Timestamp PyStr PyStrFacts ShapeFacts Out OutFacts.

(** ** The events of a run, whatever its outcome *)

Lemma bind_fst_forall {E A B} (P : E -> Prop) (m : io E A) (k : A -> io E B) :
  Forall P (fst m) -> (forall a, Forall P (fst (k a))) -> Forall P (fst (IO.bind m k)).
Proof.
  destruct m as [tr [a|e]]; cbn [fst IO.bind]; intros H1 H2; [|exact H1].
  specialize (H2 a). destruct (k a) as [tr' r]. cbn [fst] in *.
  apply Forall_app. auto.
Qed.

Lemma open_w_on w p : Forall (on p) (fst (open_w w p)).
Proof. unfold open_w. destruct (w p); repeat constructor. Qed.

Lemma write_on p s : Forall (on p) (fst (write p s)).
Proof. unfold write. destruct (encodable s); repeat constructor. Qed.

Lemma write_value_on p v : Forall (on p) (fst (write_value p v)).
Proof. destruct v; try constructor. apply write_on. Qed.

Lemma save_txt_on w text dir base c :
  Forall (on (txt_path dir base)) (fst (save_txt w text dir base c)).
Proof.
  unfold save_txt. fold (txt_path dir base).
  apply bind_fst_forall; [apply open_w_on|intros _].
  apply bind_fst_forall; [apply write_value_on|intros _]. constructor.
Qed.

Lemma save_srt_on w segments dir base c :
  Forall (on (srt_path dir base)) (fst (save_srt w segments dir base c)).
Proof.
  unfold save_srt. fold (srt_path dir base).
  apply bind_fst_forall; [apply open_w_on|intros _].
  apply bind_fst_forall; [constructor|intros items].
  apply bind_fst_forall; [|intros _; constructor].
  destruct (srt_loop (srt_path dir base) 1 items) as [tr r] eqn:E.
  eapply srt_loop_on. exact E.
Qed.

Lemma save_vtt_on w segments dir base c :
  Forall (on (vtt_path dir base)) (fst (save_vtt w segments dir base c)).
Proof.
  unfold save_vtt. fold (vtt_path dir base).
  apply bind_fst_forall; [apply open_w_on|intros _].
  apply bind_fst_forall; [apply write_on|intros _].
  apply bind_fst_forall; [constructor|intros items].
  apply bind_fst_forall; [|intros _; constructor].
  destruct (vtt_loop (vtt_path dir base) items) as [tr r] eqn:E.
  eapply vtt_loop_on. exact E.
Qed.

(** The subtitle part of a run touches neither the text file nor any
    file other than the two subtitle files. *)
Lemma subtitles_on w segments dir base c :
  Forall (fun e => event_path e = srt_path dir base \/ event_path e = vtt_path dir base)
    (fst (IO.bind (save_srt w segments dir base c)
            (fun c' => save_vtt w segments dir base c'))).
Proof.
  apply bind_fst_forall.
  - eapply Forall_impl; [apply save_srt_on|]. intros e He. left. exact He.
  - intros c'. eapply Forall_impl; [apply save_vtt_on|]. intros e He. right. exact He.
Qed.

(** ** A segment that cannot be read stops the SRT loop *)

Lemma srt_loop_fail path js1 bad js2 e : forall gs1 i,
  Forall2 has_segment js1 gs1 -> Forall usable gs1 -> 0 <= i ->
  segment_fields (py ",") bad = Raise e ->
  srt_loop path i (js1 ++ bad :: js2) = (srt_writes path i gs1, Raise e).
Proof.
  induction js1 as [|j js IH]; intros gs1 i H2 Hu Hi Hbad; inversion H2; subst.
  - cbn [app srt_loop srt_writes]. rewrite Hbad. reflexivity.
  - inversion Hu; subst. cbn [app srt_loop srt_writes].
    match goal with H : usable _ |- _ => pose proof H as (Ha & Hb & Ht) end.
    rewrite (segment_fields_ok _ _ _ ltac:(eassumption) Ha Hb).
    unfold IO.lift, IO.bind at 1. cbn [app].
    change (srt_chunk i (ts (seg_start y) (py ","), ts (seg_end y) (py ","),
                         strip (seg_text y))) with (srt_block i y).
    unfold write. rewrite srt_block_encodable by (auto; lia).
    unfold IO.emit, IO.bind. rewrite (IH l' (i + 1)) by (auto; lia).
    reflexivity.
Qed.

(** ** The outcome of reading one segment *)

Lemma segment_fields_inv sep j f :
  segment_fields sep j = Ok f ->
  exists m a b x y txt s e,
    j = JObj m
    /\ m !! py "start" = Some a /\ Json.as_num a = Ok x /\ format_timestamp x sep = Ok s
    /\ m !! py "end" = Some b /\ Json.as_num b = Ok y /\ format_timestamp y sep = Ok e
    /\ m !! py "text" = Some (JStr txt)
    /\ f = (s, e, strip txt).
Proof.
  unfold segment_fields. destruct j as [| | | | |m]; try discriminate.
  cbn [Json.getitem].
  destruct (m !! py "start") as [a|] eqn:E1; [|discriminate]. cbn [rbind].
  destruct (Json.as_num a) as [x|] eqn:E2; [|discriminate]. cbn [rbind].
  destruct (format_timestamp x sep) as [s|] eqn:E3; [|discriminate]. cbn [rbind].
  destruct (m !! py "end") as [b|] eqn:E4; [|discriminate]. cbn [rbind].
  destruct (Json.as_num b) as [y|] eqn:E5; [|discriminate]. cbn [rbind].
  destruct (format_timestamp y sep) as [e|] eqn:E6; [|discriminate]. cbn [rbind].
  destruct (m !! py "text") as [t|] eqn:E7; [|discriminate]. cbn [rbind].
  destruct t as [| | |txt| |]; try discriminate. cbn [Json.strip rbind].
  intros [= <-]. exists m, a, b, x, y, txt, s, e.
  repeat (split; [reflexivity || assumption|]). reflexivity.
Qed.

Lemma as_num_double v x :
  Json.as_num v = Ok x -> (forall n, v = JNum n -> is_double n = true) ->
  is_double x = true.
Proof.
  destruct v; try discriminate; cbn [Json.as_num]; intros [= <-] H; [reflexivity|].
  apply H. reflexivity.
Qed.

(** ** The whole function when a segment cannot be read *)

Lemma save_srt_fail w js1 bad js2 gs1 e dir base c :
  w (srt_path dir base) = true ->
  Forall2 has_segment js1 gs1 -> Forall usable gs1 ->
  segment_fields (py ",") bad = Raise e ->
  save_srt w (JArr (js1 ++ bad :: js2)) dir base c
  = (EvOpen (srt_path dir base) :: srt_writes (srt_path dir base) 1 gs1, Raise e).
Proof.
  intros Hw H2 Hu Hbad. unfold save_srt. fold (srt_path dir base).
  unfold open_w. rewrite Hw. cbn [Json.iter].
  rewrite bind_lift_ok.
  rewrite (srt_loop_fail _ js1 bad js2 e gs1 1 H2 Hu ltac:(lia) Hbad).
  reflexivity.
Qed.

Lemma subtitles_fail w js1 bad js2 gs1 e dir base c :
  w (srt_path dir base) = true ->
  Forall2 has_segment js1 gs1 -> Forall usable gs1 ->
  segment_fields (py ",") bad = Raise e ->
  (if Json.truthy (JArr (js1 ++ bad :: js2))
   then IO.bind (save_srt w (JArr (js1 ++ bad :: js2)) dir base c)
          (fun c' => save_vtt w (JArr (js1 ++ bad :: js2)) dir base c')
   else IO.ret c)
  = (EvOpen (srt_path dir base) :: srt_writes (srt_path dir base) 1 gs1, Raise e).
Proof.
  intros Hw H2 Hu Hbad.
  assert (Hseg : Json.truthy (JArr (js1 ++ bad :: js2)) = true).
  { cbn. destruct js1; reflexivity. }
  rewrite Hseg, (save_srt_fail w js1 bad js2 gs1 e dir base c Hw H2 Hu Hbad).
  reflexivity.
Qed.

End SaveFacts.

(* ================================================================== *)
(** * More on [save_chutes_outputs] *)

(** The text is written first and as it is: the run opens the text file,
    writes the whole text, not trimmed, and never touches that file
    again; so the file holds the text whatever happens to the subtitles
    afterwards, also when the run ends in an exception. *)
Theorem text_is_written_first_and_whole
    (w : pystr -> bool) (r : gmap pystr json) (dir base s : pystr) :
  r !! py "text" = Some (JStr s) -> s <> [] -> PyStr.encodable s = true ->
  w (Out.txt_path dir base) = true ->
  exists rest res,
    Out.save_chutes_outputs w (JObj r) dir base
    = (EvOpen (Out.txt_path dir base) :: EvWrite (Out.txt_path dir base) s :: rest, res)
    /\ Forall (fun e => Out.event_path e <> Out.txt_path dir base) rest
    /\ Out.content (Out.txt_path dir base)
         (EvOpen (Out.txt_path dir base) :: EvWrite (Out.txt_path dir base) s :: rest) None
       = Some s.
Proof.
  intros Ht Hne He Hw.
  destruct (OutFacts.paths_differ dir base) as (Hts & Htv & Hsv).
  unfold Out.save_chutes_outputs. cbv zeta. cbn [Json.get].
  rewrite OutFacts.bind_lift_ok, Ht. cbn [default from_option id Json.truthy].
  rewrite bool_decide_eq_false_2 by exact Hne. cbn [negb].
  rewrite (OutFacts.save_txt_ok w s dir base ∅ Hw He).
  match goal with |- context [IO.bind (?tr, Ok ?a) ?k] =>
    destruct (k a) as [rest res] eqn:E;
    rewrite (OutFacts.bind_ok (tr, Ok a) k tr a rest res eq_refl E)
  end.
  cbv beta in E. rewrite OutFacts.bind_lift_ok in E.
  assert (Hrest : Forall (fun e => Out.event_path e <> Out.txt_path dir base) rest).
  { destruct (Json.truthy (default (JArr []) (r !! py "segments"))).
    - pose proof (SaveFacts.subtitles_on w (default (JArr []) (r !! py "segments")) dir base
                    (<[py "txt" := Out.txt_path dir base]> ∅)) as H.
      rewrite E in H. cbn [fst] in H.
      eapply Forall_impl; [exact H|]. intros e [-> | ->]; congruence.
    - inversion E. constructor. }
  exists rest, res. split; [reflexivity|]. split; [exact Hrest|].
  cbn [Out.content]. rewrite !bool_decide_eq_true_2 by reflexivity.
  cbn [fmap option_fmap option_map app]. apply OutFacts.content_other. exact Hrest.
Qed.

Lemma text_is_written_first_and_whole_witness :
  exists rest res,
    Out.save_chutes_outputs (fun _ => true) (JObj (<[py "text" := JStr (py " hi ")]> ∅))
      (py "out") (py "a")
    = (EvOpen (Out.txt_path (py "out") (py "a"))
         :: EvWrite (Out.txt_path (py "out") (py "a")) (py " hi ") :: rest, res)
    /\ Forall (fun e => Out.event_path e <> Out.txt_path (py "out") (py "a")) rest
    /\ Out.content (Out.txt_path (py "out") (py "a"))
         (EvOpen (Out.txt_path (py "out") (py "a"))
            :: EvWrite (Out.txt_path (py "out") (py "a")) (py " hi ") :: rest) None
       = Some (py " hi ").
Proof.
  apply (text_is_written_first_and_whole (fun _ => true)
           (<[py "text" := JStr (py " hi ")]> ∅) (py "out") (py "a") (py " hi ")).
  - apply lookup_insert_eq.
  - discriminate.
  - reflexivity.
  - reflexivity.
Defined.

(** A segment that cannot be read (a missing key, a time that is not a
    number, a text that is not a string) ends the run with its exception
    in the middle of the SRT file: the text file is already written, the
    SRT file holds the blocks of the segments before it, the VTT file is
    never opened, and no mapping is returned. *)
Theorem a_bad_segment_leaves_a_partial_srt
    (w : pystr -> bool) (r : gmap pystr json) (dir base : pystr)
    (js1 js2 : list json) (bad : json) (gs1 : list Out.segment) (e : exn) :
  (forall p, w p = true) -> Out.text_ok r ->
  r !! py "segments" = Some (JArr (js1 ++ bad :: js2)) ->
  Forall2 Out.has_segment js1 gs1 -> Forall Out.usable gs1 ->
  Out.segment_fields (py ",") bad = Raise e ->
  let tr := Out.txt_events r dir base
            ++ EvOpen (Out.srt_path dir base)
               :: Out.srt_writes (Out.srt_path dir base) 1 gs1 in
  Out.save_chutes_outputs w (JObj r) dir base = (tr, Raise e)
  /\ Out.content (Out.txt_path dir base) tr None
     = match Out.text_of r with [] => None | s => Some s end
  /\ Out.content (Out.srt_path dir base) tr None = Some (Out.to_srt gs1)
  /\ Out.content (Out.vtt_path dir base) tr None = None.
Proof.
  intros Hw Ht Hs H2 Hu Hbad tr.
  destruct (OutFacts.paths_differ dir base) as (Hts & Htv & Hsv).
  pose proof (OutFacts.txt_events_on r dir base) as Hon.
  assert (Htail : forall c,
    IO.bind (IO.lift (Json.get (JObj r) (py "segments") (JArr [])))
      (fun segments =>
         if Json.truthy segments
         then IO.bind (Out.save_srt w segments dir base c)
                (fun c' => Out.save_vtt w segments dir base c')
         else IO.ret c)
    = (EvOpen (Out.srt_path dir base) :: Out.srt_writes (Out.srt_path dir base) 1 gs1,
       Raise e)).
  { intros c. cbn [Json.get]. rewrite OutFacts.bind_lift_ok, Hs. cbn [default].
    apply SaveFacts.subtitles_fail; auto. }
  split; [|split; [|split]].
  - unfold Out.save_chutes_outputs. cbv zeta.
    change (Json.get (JObj r) (py "text") (JStr [])) with (Ok (default (JStr []) (r !! py "text"))).
    rewrite OutFacts.bind_lift_ok.
    destruct (OutFacts.truthy_text_of r Ht) as (Etr & Etx & Henc). rewrite Etr, Etx.
    subst tr. unfold Out.txt_events.
    destruct (Out.text_of r) as [|c0 s] eqn:Es.
    + rewrite bool_decide_eq_true_2 by reflexivity. cbn [negb].
      rewrite OutFacts.bind_ret. apply Htail.
    + rewrite bool_decide_eq_false_2 by discriminate. cbn [negb].
      erewrite OutFacts.bind_ok; [reflexivity| |].
      * apply OutFacts.save_txt_ok; auto.
      * apply Htail.
  - subst tr. rewrite OutFacts.content_app.
    rewrite (OutFacts.content_other _ (EvOpen _ :: _)).
    2:{ constructor; [cbn; congruence|].
        eapply OutFacts.on_other; [|apply OutFacts.srt_writes_on]. congruence. }
    unfold Out.txt_events. destruct (Out.text_of r) as [|c0 s]; [reflexivity|].
    cbn [Out.content]. rewrite !bool_decide_eq_true_2 by reflexivity. reflexivity.
  - subst tr. rewrite OutFacts.content_app.
    rewrite (OutFacts.content_other _ (Out.txt_events r dir base))
      by (eapply OutFacts.on_other; [exact Hts|exact Hon]).
    cbn [Out.content]. rewrite bool_decide_eq_true_2 by reflexivity.
    rewrite OutFacts.content_srt_writes. reflexivity.
  - subst tr. apply OutFacts.content_other. apply Forall_app. split.
    + eapply OutFacts.on_other; [exact Htv|exact Hon].
    + constructor; [cbn; congruence|].
      eapply OutFacts.on_other; [|apply OutFacts.srt_writes_on]. exact Hsv.
Qed.

Lemma a_bad_segment_leaves_a_partial_srt_witness :
  let r : gmap pystr json :=
    <[py "segments" := JArr (map Out.seg_json hi_there ++ [JObj ∅])]> ∅ in
  let tr := Out.txt_events r (py "out") (py "a")
            ++ EvOpen (Out.srt_path (py "out") (py "a"))
               :: Out.srt_writes (Out.srt_path (py "out") (py "a")) 1 hi_there in
  Out.save_chutes_outputs (fun _ => true) (JObj r) (py "out") (py "a") = (tr, Raise KeyError)
  /\ Out.content (Out.txt_path (py "out") (py "a")) tr None
     = match Out.text_of r with [] => None | s => Some s end
  /\ Out.content (Out.srt_path (py "out") (py "a")) tr None = Some (Out.to_srt hi_there)
  /\ Out.content (Out.vtt_path (py "out") (py "a")) tr None = None.
Proof.
  apply (a_bad_segment_leaves_a_partial_srt (fun _ => true)
           (<[py "segments" := JArr (map Out.seg_json hi_there ++ [JObj ∅])]> ∅)
           (py "out") (py "a") (map Out.seg_json hi_there) [] (JObj ∅) hi_there KeyError).
  - reflexivity.
  - exact I.
  - apply lookup_insert_eq.
  - repeat constructor; apply OutFacts.has_segment_json.
  - repeat constructor; vm_compute; reflexivity.
  - reflexivity.
Defined.

Module SegmentFacts.
Import Timestamp Out.

Lemma format_ok_finite x sep s :
  is_double x = true -> format_timestamp x sep = Ok s -> finite x = true.
Proof.
  destruct x as [z|[n| |]]; intros Hd E.
  - reflexivity.
  - exact Hd.
  - rewrite SignFacts.format_inf in E. discriminate.
  - rewrite SignFacts.format_nan in E. discriminate.
Qed.

Lemma segment_fields_finite sep m a b x y txt :
  m !! py "start" = Some a -> Json.as_num a = Ok x -> finite x = true ->
  m !! py "end" = Some b -> Json.as_num b = Ok y -> finite y = true ->
  m !! py "text" = Some (JStr txt) ->
  exists s e,
    segment_fields sep (JObj m) = Ok (s, e, PyStr.strip txt)
    /\ format_timestamp x sep = Ok s /\ format_timestamp y sep = Ok e.
Proof.
  intros E1 E2 Hx E3 E4 Hy E5.
  destruct (SignFacts.format_finite x sep Hx) as (s & Es).
  destruct (SignFacts.format_finite y sep Hy) as (e & Ee).
  exists s, e. split; [|auto].
  unfold segment_fields. cbn [Json.getitem].
  rewrite E1. cbn [rbind]. rewrite E2. cbn [rbind]. rewrite Es. cbn [rbind].
  rewrite E3. cbn [rbind]. rewrite E4. cbn [rbind]. rewrite Ee. cbn [rbind].
  rewrite E5. reflexivity.
Qed.

End SegmentFacts.

(* ================================================================== *)
(** * Reading one segment *)

(** A segment is read exactly when it is a dict whose [start] and [end]
    are numbers ([int], [bool] or a finite [float], of any sign and in any
    order) and whose [text] is a string: times below zero and an end
    before the start are read like any other. *)
Theorem segment_fields_succeeds_exactly (sep : pystr) (j : json) :
  (forall m k n, j = JObj m -> m !! k = Some (JNum n) -> Timestamp.is_double n = true) ->
  ((exists f, Out.segment_fields sep j = Ok f)
   <-> exists m a b x y txt,
         j = JObj m
         /\ m !! py "start" = Some a /\ Json.as_num a = Ok x /\ Timestamp.finite x = true
         /\ m !! py "end" = Some b /\ Json.as_num b = Ok y /\ Timestamp.finite y = true
         /\ m !! py "text" = Some (JStr txt)).
Proof.
  intros Hd. split.
  - intros (f & E).
    apply SaveFacts.segment_fields_inv in E
      as (m & a & b & x & y & txt & s & e & -> & E1 & E2 & E3 & E4 & E5 & E6 & E7 & _).
    exists m, a, b, x, y, txt.
    assert (Hx : Timestamp.is_double x = true).
    { apply (SaveFacts.as_num_double a x E2). intros n ->. exact (Hd m _ n eq_refl E1). }
    assert (Hy : Timestamp.is_double y = true).
    { apply (SaveFacts.as_num_double b y E5). intros n ->. exact (Hd m _ n eq_refl E4). }
    repeat (split; [reflexivity || assumption
                    || (eapply SegmentFacts.format_ok_finite; eassumption)|]).
    exact E7.
  - intros (m & a & b & x & y & txt & -> & E1 & E2 & Hx & E3 & E4 & Hy & E5).
    destruct (SegmentFacts.segment_fields_finite sep m a b x y txt E1 E2 Hx E3 E4 Hy E5)
      as (s & e & E & _).
    eexists. exact E.
Qed.

Lemma segment_fields_succeeds_exactly_witness :
  (exists f, Out.segment_fields (py ",") (Out.seg_json five_two) = Ok f)
  <-> exists m a b x y txt,
        Out.seg_json five_two = JObj m
        /\ m !! py "start" = Some a /\ Json.as_num a = Ok x /\ Timestamp.finite x = true
        /\ m !! py "end" = Some b /\ Json.as_num b = Ok y /\ Timestamp.finite y = true
        /\ m !! py "text" = Some (JStr txt).
Proof.
  apply (segment_fields_succeeds_exactly (py ",") (Out.seg_json five_two)).
  intros m k n [= <-] H.
  repeat (apply lookup_insert_Some in H as [[_ H]|[_ H]];
          [first [discriminate H|injection H as <-; vm_compute; reflexivity]|]).
  rewrite lookup_empty in H. discriminate.
Defined.

(** Reading a segment raises one of four exceptions, each for its own
    defect: [TypeError] for a segment that is not a dict or a time that is
    not a number, [KeyError] for a missing key, [ValueError] for a time
    that is an infinity or a NaN, [AttributeError] for a text that is not
    a string. *)
Theorem segment_fields_raises_four_kinds (sep : pystr) (j : json) (e : exn) :
  (forall m k n, j = JObj m -> m !! k = Some (JNum n) -> Timestamp.is_double n = true) ->
  Out.segment_fields sep j = Raise e ->
  (e = TypeError
   /\ ((forall m, j <> JObj m)
       \/ exists m k v, j = JObj m /\ (k = py "start" \/ k = py "end")
                        /\ m !! k = Some v /\ Json.as_num v = Raise TypeError))
  \/ (e = KeyError
      /\ exists m k, j = JObj m /\ (k = py "start" \/ k = py "end" \/ k = py "text")
                     /\ m !! k = None)
  \/ (e = ValueError
      /\ exists m k n, j = JObj m /\ (k = py "start" \/ k = py "end")
                       /\ m !! k = Some (JNum n) /\ Timestamp.finite n = false)
  \/ (e = AttributeError
      /\ exists m v, j = JObj m /\ m !! py "text" = Some v /\ forall s, v <> JStr s).
Proof.
  intros Hd. unfold Out.segment_fields.
  destruct j as [| | | | |m];
    try (intros [= <-]; left; split; [reflexivity|left; intros m; discriminate]).
  cbn [Json.getitem].
  assert (Hnum : forall k v x, m !! k = Some v -> Json.as_num v = Ok x ->
                               Timestamp.is_double x = true).
  { intros k v x Ek Ev. apply (SaveFacts.as_num_double v x Ev).
    intros n ->. exact (Hd m k n eq_refl Ek). }
  assert (Hbad : forall k v e', m !! k = Some v -> Json.as_num v = Raise e' ->
                                e' = TypeError).
  { intros k v e' _. destruct v; cbn [Json.as_num]; congruence. }
  assert (Hval : forall k v x e', m !! k = Some v -> Json.as_num v = Ok x ->
                   format_timestamp x sep = Raise e' ->
                   e' = ValueError /\ exists n, v = JNum n /\ Timestamp.finite n = false).
  { intros k v x e' Ek Ev Ef.
    destruct (SignFacts.format_raise x sep e' (Hnum k v x Ek Ev) Ef) as [-> Hf].
    split; [reflexivity|].
    destruct v; cbn [Json.as_num] in Ev; try discriminate; injection Ev as <-.
    - destruct b; discriminate.
    - eauto. }
  assert (Hnone : forall k, m !! k = None ->
                  (k = py "start" \/ k = py "end" \/ k = py "text") ->
                  exists m' k', JObj m = JObj m'
                    /\ (k' = py "start" \/ k' = py "end" \/ k' = py "text")
                    /\ m' !! k' = None).
  { intros k Ek Hk. exists m, k. auto. }
  assert (Htype : forall k v, m !! k = Some v -> Json.as_num v = Raise TypeError ->
                  (k = py "start" \/ k = py "end") ->
                  exists m' k' v', JObj m = JObj m' /\ (k' = py "start" \/ k' = py "end")
                    /\ m' !! k' = Some v' /\ Json.as_num v' = Raise TypeError).
  { intros k v Ek Ev Hk. exists m, k, v. auto. }
  assert (Hinf : forall k n, m !! k = Some (JNum n) -> Timestamp.finite n = false ->
                 (k = py "start" \/ k = py "end") ->
                 exists m' k' n', JObj m = JObj m' /\ (k' = py "start" \/ k' = py "end")
                   /\ m' !! k' = Some (JNum n') /\ Timestamp.finite n' = false).
  { intros k n Ek Hf Hk. exists m, k, n. auto. }
  destruct (m !! py "start") as [a|] eqn:E1; cbn [rbind].
  2:{ intros [= <-]. right. left. split; [reflexivity|]. apply (Hnone _ E1). auto. }
  destruct (Json.as_num a) as [x|e1] eqn:E2; cbn [rbind].
  2:{ intros [= <-]. pose proof (Hbad _ _ _ E1 E2) as ->. left. split; [reflexivity|].
      right. apply (Htype _ _ E1 E2). auto. }
  destruct (format_timestamp x sep) as [s|e1] eqn:E3; cbn [rbind].
  2:{ intros [= <-]. destruct (Hval _ _ _ _ E1 E2 E3) as (-> & n & -> & Hf).
      right. right. left. split; [reflexivity|]. apply (Hinf _ _ E1 Hf). auto. }
  destruct (m !! py "end") as [b|] eqn:E4; cbn [rbind].
  2:{ intros [= <-]. right. left. split; [reflexivity|]. apply (Hnone _ E4). auto. }
  destruct (Json.as_num b) as [y|e1] eqn:E5; cbn [rbind].
  2:{ intros [= <-]. pose proof (Hbad _ _ _ E4 E5) as ->. left. split; [reflexivity|].
      right. apply (Htype _ _ E4 E5). auto. }
  destruct (format_timestamp y sep) as [t|e1] eqn:E6; cbn [rbind].
  2:{ intros [= <-]. destruct (Hval _ _ _ _ E4 E5 E6) as (-> & n & -> & Hf).
      right. right. left. split; [reflexivity|]. apply (Hinf _ _ E4 Hf). auto. }
  destruct (m !! py "text") as [v|] eqn:E7; cbn [rbind].
  2:{ intros [= <-]. right. left. split; [reflexivity|]. apply (Hnone _ E7). auto. }
  destruct v; cbn [Json.strip rbind]; try discriminate;
    intros [= <-]; right; right; right; (split; [reflexivity|]);
    eexists m, _; (split; [reflexivity|]); (split; [exact E7|]); discriminate.
Qed.

Lemma segment_fields_raises_four_kinds_witness :
  (KeyError = TypeError
   /\ ((forall m, JObj ∅ <> JObj m)
       \/ exists m k v, JObj ∅ = JObj m /\ (k = py "start" \/ k = py "end")
                        /\ m !! k = Some v /\ Json.as_num v = Raise TypeError))
  \/ (KeyError = KeyError
      /\ exists m k, JObj ∅ = JObj m /\ (k = py "start" \/ k = py "end" \/ k = py "text")
                     /\ m !! k = None)
  \/ (KeyError = ValueError
      /\ exists m k n, JObj ∅ = JObj m /\ (k = py "start" \/ k = py "end")
                       /\ m !! k = Some (JNum n) /\ Timestamp.finite n = false)
  \/ (KeyError = AttributeError
      /\ exists m v, JObj ∅ = JObj m /\ m !! py "text" = Some v /\ forall s, v <> JStr s).
Proof.
  apply (segment_fields_raises_four_kinds (py ",") (JObj ∅) KeyError).
  - intros m k n [= <-] H. rewrite lookup_empty in H. discriminate.
  - reflexivity.
Defined.

Module OpenFacts.
Import Out.

Lemma path_chars dir b c :
  In c (path_join dir b) -> In c dir \/ c = 47%N \/ In c b.
Proof.
  unfold path_join. destruct (PyStr.starts_with _ _); [auto|].
  destruct (_ || _); intros H.
  - apply in_app_or in H as [?|?]; auto.
  - apply in_app_or in H as [?|H]; [auto|].
    apply in_app_or in H as [[<-|[]]|?]; auto.
Qed.

Lemma base_in_path dir b c : In c b -> In c (path_join dir b).
Proof.
  unfold path_join. destruct (PyStr.starts_with _ _); [auto|].
  destruct (_ || _); intros H; repeat (apply in_or_app; right); exact H.
Qed.

Lemma not_refused p :
  (forall c, In c p -> PyStr.is_surrogate c = false) -> existsb fs_refused p = false.
Proof.
  intros H. destruct (existsb fs_refused p) eqn:E; [|reflexivity].
  apply existsb_exists in E as (c & Hin & Hr).
  unfold fs_refused in Hr. rewrite (H c Hin) in Hr. discriminate.
Qed.

Lemma open_error_os p :
  (forall c, In c p -> c <> 0%N /\ PyStr.is_surrogate c = false) ->
  open_error p = OSError.
Proof.
  intros H. unfold open_error.
  rewrite not_refused by (intros c Hc; apply H; exact Hc).
  destruct (existsb (N.eqb 0) p) eqn:E; [|reflexivity].
  exfalso. apply existsb_exists in E as (c & Hin & Hr).
  apply N.eqb_eq in Hr. subst c. exact (proj1 (H _ Hin) eq_refl).
Qed.

Lemma open_error_nul p :
  In 0%N p -> (forall c, In c p -> PyStr.is_surrogate c = false) ->
  open_error p = ValueError.
Proof.
  intros H0 H. unfold open_error. rewrite not_refused by exact H.
  assert (E : existsb (N.eqb 0) p = true).
  { apply existsb_exists. exists 0%N. split; [exact H0|reflexivity]. }
  rewrite E. reflexivity.
Qed.

End OpenFacts.

(* ================================================================== *)
(** * Results that are not a dict, destinations, files that do not open *)



(** The three destinations are one stem with the three extensions, and
    no two of them are the same file.  The stem is the base name alone
    when the base name begins with a slash (the directory is then left
    out); otherwise it is the directory and the base name, with a slash
    between them exactly when the directory is neither empty nor ends
    with one. *)
Theorem output_paths (dir base : pystr) :
  let stem := Out.path_join dir base in
  Out.txt_path dir base = stem ++ py ".txt"
  /\ Out.srt_path dir base = stem ++ py ".srt"
  /\ Out.vtt_path dir base = stem ++ py ".vtt"
  /\ Out.txt_path dir base <> Out.srt_path dir base
  /\ Out.txt_path dir base <> Out.vtt_path dir base
  /\ Out.srt_path dir base <> Out.vtt_path dir base
  /\ (PyStr.starts_with (py "/") base = true -> stem = base)
  /\ (PyStr.starts_with (py "/") base = false ->
      (dir = [] \/ (exists d, dir = d ++ py "/") -> stem = dir ++ base)
      /\ (dir <> [] -> (forall d, dir <> d ++ py "/") -> stem = dir ++ py "/" ++ base)).
Proof.
  cbv zeta. unfold Out.txt_path, Out.srt_path, Out.vtt_path.
  change (py ".txt") with (46%N :: py "txt").
  change (py ".srt") with (46%N :: py "srt").
  change (py ".vtt") with (46%N :: py "vtt").
  rewrite !OutFacts.path_join_suffix by discriminate.
  repeat match goal with |- _ /\ _ => split end; try reflexivity.
  - intros H. apply app_inv_head in H. discriminate.
  - intros H. apply app_inv_head in H. discriminate.
  - intros H. apply app_inv_head in H. discriminate.
  - intros H. unfold Out.path_join. rewrite H. reflexivity.
  - intros H. split.
    + intros [->|(d & ->)]; unfold Out.path_join; rewrite H; [reflexivity|].
      rewrite rev_app_distr. cbn [rev app PyStr.starts_with].
      rewrite orb_true_r. reflexivity.
    + intros Hne Hd. unfold Out.path_join. rewrite H.
      rewrite bool_decide_eq_false_2 by exact Hne. cbn [orb].
      destruct (PyStr.starts_with (py "/") (rev dir)) eqn:Es; [|reflexivity].
      exfalso. destruct (rev dir) as [|c l] eqn:Er; [discriminate|].
      change (py "/") with [47%N] in Es. cbn [PyStr.starts_with] in Es.
      apply andb_true_iff in Es as [Ec _]. apply N.eqb_eq in Ec. subst c.
      apply (Hd (rev l)). rewrite <- (rev_involutive dir), Er. reflexivity.
Qed.

Lemma output_paths_witness :
  PyStr.starts_with (py "/") (py "a") = false
  /\ Out.path_join (py "out") (py "a") = py "out" ++ py "/" ++ py "a"
  /\ Out.path_join (py "out/") (py "a") = py "out/" ++ py "a".
Proof.
  split; [reflexivity|]. split.
  - apply (proj2 (proj2 (proj2 (proj2 (proj2 (proj2 (proj2 (proj2
             (output_paths (py "out") (py "a")))))))) eq_refl)).
    + discriminate.
    + intros d H. apply (f_equal (@rev N)) in H. rewrite rev_app_distr in H.
      discriminate H.
  - apply (proj1 (proj2 (proj2 (proj2 (proj2 (proj2 (proj2 (proj2
             (output_paths (py "out/") (py "a")))))))) eq_refl)).
    right. exists (py "out"). reflexivity.
Defined.

(** When no file can be opened nothing is written: the run raises at
    the first file it needs, the text file if there is a text and else
    the SRT file, and a result with neither text nor segments, which
    needs none, returns the empty mapping.  The exception is that of the
    failed [open]: [OSError] when neither the directory nor the base name
    holds a NUL or a surrogate, [ValueError] when the base name holds a
    NUL and neither holds a surrogate. *)
Theorem nothing_is_written_when_no_file_opens
    (w : pystr -> bool) (r : gmap pystr json) (dir base : pystr) :
  (forall p, w p = false) ->
  Out.save_chutes_outputs w (JObj r) dir base
  = ([], if Json.truthy (Out.text_value r)
         then Raise (Out.open_error (Out.txt_path dir base))
         else if Json.truthy (Out.segments_value r)
              then Raise (Out.open_error (Out.srt_path dir base))
              else Ok ∅)
  /\ ((forall c, In c (dir ++ base) -> c <> 0%N /\ PyStr.is_surrogate c = false) ->
      Out.open_error (Out.txt_path dir base) = OSError
      /\ Out.open_error (Out.srt_path dir base) = OSError)
  /\ (In 0%N base -> (forall c, In c (dir ++ base) -> PyStr.is_surrogate c = false) ->
      Out.open_error (Out.txt_path dir base) = ValueError
      /\ Out.open_error (Out.srt_path dir base) = ValueError).
Proof.
  intros Hw. split; [|split].
  - unfold Out.save_chutes_outputs, Out.text_value, Out.segments_value.
    cbv zeta. cbn [Json.get]. rewrite OutFacts.bind_lift_ok.
    destruct (Json.truthy (default (JStr []) (r !! py "text"))).
    + unfold Out.save_txt, Out.open_w. rewrite Hw. reflexivity.
    + rewrite OutFacts.bind_ret, OutFacts.bind_lift_ok.
      destruct (Json.truthy (default (JArr []) (r !! py "segments"))); [|reflexivity].
      unfold Out.save_srt, Out.open_w. rewrite Hw. reflexivity.
  - intros Hc. split; apply OpenFacts.open_error_os; intros c Hin;
      apply OpenFacts.path_chars in Hin as [Hin|[->|Hin]];
      try (split; [discriminate|reflexivity]);
      try (apply Hc, in_or_app; auto; fail);
      (apply in_app_or in Hin as [Hin|Hin]; [apply Hc, in_or_app; auto|]);
      repeat (destruct Hin as [<-|Hin]; [split; [discriminate|reflexivity]|]);
      destruct Hin.
  - intros H0 Hc. split; apply OpenFacts.open_error_nul;
      try (apply OpenFacts.base_in_path, in_or_app; left; exact H0);
      intros c Hin; apply OpenFacts.path_chars in Hin as [Hin|[->|Hin]];
      try reflexivity;
      try (apply Hc, in_or_app; auto; fail);
      (apply in_app_or in Hin as [Hin|Hin]; [apply Hc, in_or_app; auto|]);
      repeat (destruct Hin as [<-|Hin]; [reflexivity|]);
      destruct Hin.
Qed.

Lemma nothing_is_written_when_no_file_opens_witness :
  Out.save_chutes_outputs (fun _ => false) hi_there_result (py "out") (py "a")
  = ([], Raise OSError)
  /\ Out.open_error (Out.srt_path (py "out") [97; 0]%N) = ValueError.
Proof.
  split.
  - exact (proj1 (nothing_is_written_when_no_file_opens (fun _ => false)
             (<[py "segments" := JArr (map Out.seg_json hi_there)]> ∅) (py "out") (py "a")
             (fun _ => eq_refl))).
  - apply (proj2 (proj2 (nothing_is_written_when_no_file_opens (fun _ => false)
             ∅ (py "out") [97; 0]%N (fun _ => eq_refl)))).
    + right. left. reflexivity.
    + intros c Hin. cbn in Hin.
      repeat (destruct Hin as [<-|Hin]; [reflexivity|]). destruct Hin.
Defined.

(* ================================================================== *)
(** * The mention rule on handles that extend the bot's *)

(** The literal test is a substring test: a message that mentions a
    handle which only begins with the bot's handle addresses the bot as
    well, in every chat and whatever the entities say. *)
Theorem a_longer_handle_addresses_the_bot
    (chat_type bot ext a b : pystr) (entities : list entity) (r : option reply) :
  Mention.is_addressed chat_type (Some (a ++ Mention.at_handle (bot ++ ext) ++ b))
    entities bot = true
  /\ Mention.should_process chat_type (Some (a ++ Mention.at_handle (bot ++ ext) ++ b))
       entities bot r
     = Mention.reply_payload_is_audio_like r.
Proof.
  assert (H : Mention.is_addressed chat_type
                (Some (a ++ Mention.at_handle (bot ++ ext) ++ b)) entities bot = true).
  { unfold Mention.is_addressed.
    destruct (bool_decide (chat_type = py "private")); [reflexivity|].
    assert (Hc : PyStr.contains (Mention.at_handle bot)
                   (a ++ Mention.at_handle (bot ++ ext) ++ b) = true).
    { apply MentionFacts.contains_spec. exists a, (ext ++ b).
      unfold Mention.at_handle. rewrite <- !app_assoc. reflexivity. }
    rewrite Hc.
    rewrite bool_decide_eq_false_2; [reflexivity|].
    unfold Mention.at_handle. destruct a; discriminate. }
  split; [exact H|].
  unfold Mention.should_process. rewrite H.
  destruct r; reflexivity.
Qed.

Module RerunFacts.
Import Out OutFacts.

(** A file that is opened holds nothing of what it held before. *)
Lemma content_fresh p l1 l2 acc acc' :
  Forall (fun e => event_path e <> p) l1 ->
  content p (l1 ++ EvOpen p :: l2) acc = content p (l1 ++ EvOpen p :: l2) acc'.
Proof.
  intros H. rewrite !content_app, !(content_other p l1) by exact H.
  cbn [content]. rewrite bool_decide_eq_true_2 by reflexivity. reflexivity.
Qed.

End RerunFacts.

(* ================================================================== *)
(** * Running again *)

(** A run that returns leaves in each file it names exactly what it wrote
    there, whatever the file held before, and leaves every other file as
    it was: the files are opened for writing, not for appending. *)
Theorem a_run_overwrites_its_files
    (w : pystr -> bool) (result : json) (dir base : pystr)
    (tr before : list fs_event) (m : gmap pystr pystr) :
  Out.save_chutes_outputs w result dir base = (tr, Ok m) ->
  (forall k p, m !! k = Some p ->
     Out.content p (before ++ tr) None = Out.content p tr None)
  /\ (forall p, (forall k, m !! k <> Some p) ->
        Out.content p (before ++ tr) None = Out.content p before None).
Proof.
  intros H. apply OutFacts.save_inv in H as (r & -> & H). cbv zeta in H.
  destruct H as (tr1 & m1 & tr2 & -> & Ht & Hs).
  destruct (OutFacts.paths_differ dir base) as (Hts & Htv & Hsv).
  set (txt := Out.txt_path dir base) in *.
  set (srt := Out.srt_path dir base) in *.
  set (vtt := Out.vtt_path dir base) in *.
  assert (Ht' : Forall (Out.on txt) tr1
                /\ ((tr1 = [] /\ m1 = ∅)
                    \/ ((exists l, tr1 = EvOpen txt :: l) /\ m1 = <[py "txt" := txt]> ∅))).
  { destruct (Json.truthy (default (JStr []) (r !! py "text"))).
    - destruct Ht as (s & _ & -> & ->). split; [repeat constructor|right; eauto].
    - destruct Ht as [-> ->]. split; [constructor|left; auto]. }
  clear Ht. destruct Ht' as [Hon1 Hm1].
  assert (Hs' : (tr2 = [] /\ m = m1)
                \/ exists a b,
                     tr2 = (EvOpen srt :: a) ++ EvOpen vtt :: EvWrite vtt Out.vtt_header :: b
                     /\ Forall (Out.on srt) a /\ Forall (Out.on vtt) b
                     /\ m = <[py "vtt" := vtt]> (<[py "srt" := srt]> m1)).
  { destruct (Json.truthy (default (JArr []) (r !! py "segments"))); [right|left]; exact Hs. }
  clear Hs.
  assert (Hfresh_txt : forall l acc acc', tr1 = EvOpen txt :: l ->
            Out.content txt (tr1 ++ tr2) acc = Out.content txt (tr1 ++ tr2) acc').
  { intros l acc acc' ->. apply (RerunFacts.content_fresh txt [] (l ++ tr2)). constructor. }
  assert (Hm1' : forall k p acc acc', m1 !! k = Some p ->
            Out.content p (tr1 ++ tr2) acc = Out.content p (tr1 ++ tr2) acc').
  { intros k p acc acc' Hk. destruct Hm1 as [[_ ->]|[[l El] ->]].
    - rewrite lookup_empty in Hk. discriminate.
    - apply lookup_insert_Some in Hk as [[_ <-]|[_ Hk]].
      + eapply Hfresh_txt. exact El.
      + rewrite lookup_empty in Hk. discriminate. }
  split.
  - intros k p Hk. rewrite OutFacts.content_app.
    destruct Hs' as [[-> ->]|(a & b & -> & Ha & Hb & ->)].
    + eapply Hm1'. exact Hk.
    + apply lookup_insert_Some in Hk as [[_ <-]|[_ Hk]];
        [|apply lookup_insert_Some in Hk as [[_ <-]|[_ Hk]]].
      * rewrite (app_assoc tr1).
        apply (RerunFacts.content_fresh vtt (tr1 ++ EvOpen srt :: a)).
        apply Forall_app. split.
        -- eapply OutFacts.on_other; [exact Htv|exact Hon1].
        -- constructor; [cbn; congruence|].
           eapply OutFacts.on_other; [exact Hsv|exact Ha].
      * cbn [app]. apply (RerunFacts.content_fresh srt tr1).
        eapply OutFacts.on_other; [exact Hts|exact Hon1].
      * eapply Hm1'. exact Hk.
  - intros p Hp. rewrite OutFacts.content_app. apply OutFacts.content_other.
    apply Forall_app. split.
    + destruct Hm1 as [[-> _]|[_ Em1]]; [constructor|].
      eapply OutFacts.on_other; [|exact Hon1]. intros <-.
      destruct Hs' as [[_ ->]|(a & b & _ & _ & _ & ->)].
      * apply (Hp (py "txt")). rewrite Em1. apply lookup_insert_eq.
      * apply (Hp (py "txt")). rewrite Em1.
        rewrite !lookup_insert_ne by discriminate. apply lookup_insert_eq.
    + destruct Hs' as [[-> _]|(a & b & -> & Ha & Hb & ->)]; [constructor|].
      assert (Hps : p <> srt).
      { intros ->. apply (Hp (py "srt")).
        rewrite lookup_insert_ne by discriminate. apply lookup_insert_eq. }
      assert (Hpv : p <> vtt).
      { intros ->. apply (Hp (py "vtt")). apply lookup_insert_eq. }
      apply Forall_app. split.
      * constructor; [cbn; congruence|].
        eapply OutFacts.on_other; [|exact Ha]. congruence.
      * constructor; [cbn; congruence|]. constructor; [cbn; congruence|].
        eapply OutFacts.on_other; [|exact Hb]. congruence.
Qed.

Lemma a_run_overwrites_its_files_witness :
  exists tr m,
    Out.save_chutes_outputs (fun _ => true) hi_there_result (py "out") (py "a") = (tr, Ok m)
    /\ forall k p, m !! k = Some p ->
         Out.content p ([EvOpen p; EvWrite p (py "old")] ++ tr) None = Out.content p tr None.
Proof.
  destruct (Out.save_chutes_outputs (fun _ => true) hi_there_result (py "out") (py "a"))
    as [tr [m|e]] eqn:E; [|vm_compute in E; discriminate].
  exists tr, m. split; [reflexivity|]. intros k p Hk.
  exact (proj1 (a_run_overwrites_its_files _ _ _ _ tr [EvOpen p; EvWrite p (py "old")] m E)
           k p Hk).
Defined.

Module ShapeOfResult.
Import Out OutFacts.

(** The first item a truthy value that is not a list offers to the SRT
    loop cannot be read as a segment, when there is an item at all. *)
Lemma iter_not_list v :
  (forall l, v <> JArr l) -> Json.truthy v = true ->
  Json.iter v = Raise TypeError
  \/ exists c items, Json.iter v = Ok (JStr c :: items).
Proof.
  intros Hv Ht. destruct v as [|b|n|s|l|m]; cbn [Json.iter]; auto.
  - right. destruct s as [|c s]; [discriminate|]. cbn [map]. eauto.
  - exfalso. exact (Hv l eq_refl).
  - right. cbn [Json.truthy] in Ht.
    destruct (map_to_list m) as [|[k x] kvs] eqn:E.
    + apply map_to_list_empty_iff in E. subst m.
      rewrite map_size_empty in Ht. discriminate.
    + cbn [map fst]. eauto.
Qed.

Lemma save_srt_not_list w v dir base c :
  w (srt_path dir base) = true ->
  (forall l, v <> JArr l) -> Json.truthy v = true ->
  save_srt w v dir base c = ([EvOpen (srt_path dir base)], Raise TypeError).
Proof.
  intros Hw Hv Ht. unfold save_srt. fold (srt_path dir base).
  unfold open_w. rewrite Hw.
  destruct (iter_not_list v Hv Ht) as [E|(k & items & E)]; rewrite E; reflexivity.
Qed.

End ShapeOfResult.

(* ================================================================== *)
(** * A text that is not a string, segments that are not a list *)

(** A [text] that is not a string is passed over when it is falsy
    ([None], [0], [False], an empty list or dict): the run is the run
    without the key.  When it is truthy the text file is opened and the
    write raises [TypeError]: an empty file is left, and the segments are
    not looked at. *)
Theorem a_text_that_is_not_a_string
    (w : pystr -> bool) (r : gmap pystr json) (dir base : pystr) (v : json) :
  r !! py "text" = Some v -> (forall s, v <> JStr s) ->
  (Json.truthy v = false ->
   Out.save_chutes_outputs w (JObj r) dir base
   = Out.save_chutes_outputs w (JObj (delete (py "text") r)) dir base)
  /\ (Json.truthy v = true -> w (Out.txt_path dir base) = true ->
      Out.save_chutes_outputs w (JObj r) dir base
      = ([EvOpen (Out.txt_path dir base)], Raise TypeError)
      /\ Out.content (Out.txt_path dir base) [EvOpen (Out.txt_path dir base)] None
         = Some []).
Proof.
  intros Hr Hv. split.
  - intros Hf. unfold Out.save_chutes_outputs. cbv zeta. cbn [Json.get].
    rewrite !OutFacts.bind_lift_ok.
    rewrite lookup_delete_eq, Hr. cbn [default from_option id Json.truthy].
    rewrite Hf, bool_decide_eq_true_2 by reflexivity. cbn [negb].
    rewrite !OutFacts.bind_ret.
    rewrite lookup_delete_ne by discriminate. reflexivity.
  - intros Ht Hw. split.
    + unfold Out.save_chutes_outputs. cbv zeta. cbn [Json.get].
      rewrite OutFacts.bind_lift_ok, Hr. cbn [default from_option id]. rewrite Ht.
      unfold Out.save_txt. fold (Out.txt_path dir base).
      unfold Out.open_w. rewrite Hw.
      destruct v; try reflexivity. exfalso. exact (Hv _ eq_refl).
    + cbn [Out.content]. rewrite bool_decide_eq_true_2 by reflexivity. reflexivity.
Qed.

Lemma a_text_that_is_not_a_string_witness :
  Out.save_chutes_outputs (fun _ => true)
    (JObj (<[py "text" := JNum (PInt 7)]> ∅)) (py "out") (py "a")
  = ([EvOpen (Out.txt_path (py "out") (py "a"))], Raise TypeError)
  /\ Out.content (Out.txt_path (py "out") (py "a"))
       [EvOpen (Out.txt_path (py "out") (py "a"))] None
     = Some [].
Proof.
  apply (proj2 (a_text_that_is_not_a_string (fun _ => true)
                  (<[py "text" := JNum (PInt 7)]> ∅) (py "out") (py "a") (JNum (PInt 7))
                  (lookup_insert_eq _ _ _) ltac:(discriminate))).
  - reflexivity.
  - reflexivity.
Defined.

(** Segments that are truthy but not a list (a number, [True], a
    non-empty string or dict) end the run with [TypeError] right after
    the SRT file was opened: the text is written, the SRT file is left
    empty, and the VTT file is never opened. *)
Theorem segments_that_are_not_a_list
    (w : pystr -> bool) (r : gmap pystr json) (dir base : pystr) (v : json) :
  (forall p, w p = true) -> Out.text_ok r ->
  r !! py "segments" = Some v -> (forall l, v <> JArr l) -> Json.truthy v = true ->
  let tr := Out.txt_events r dir base ++ [EvOpen (Out.srt_path dir base)] in
  Out.save_chutes_outputs w (JObj r) dir base = (tr, Raise TypeError)
  /\ Out.content (Out.srt_path dir base) tr None = Some []
  /\ Out.content (Out.vtt_path dir base) tr None = None.
Proof.
  intros Hw Ht Hs Hv Htr tr.
  destruct (OutFacts.paths_differ dir base) as (Hts & Htv & Hsv).
  pose proof (OutFacts.txt_events_on r dir base) as Hon.
  assert (Htail : forall c,
    IO.bind (IO.lift (Json.get (JObj r) (py "segments") (JArr [])))
      (fun segments =>
         if Json.truthy segments
         then IO.bind (Out.save_srt w segments dir base c)
                (fun c' => Out.save_vtt w segments dir base c')
         else IO.ret c)
    = ([EvOpen (Out.srt_path dir base)], Raise TypeError)).
  { intros c. cbn [Json.get]. rewrite OutFacts.bind_lift_ok, Hs.
    cbn [default from_option id]. rewrite Htr.
    rewrite (ShapeOfResult.save_srt_not_list w v dir base c (Hw _) Hv Htr). reflexivity. }
  split; [|split].
  - unfold Out.save_chutes_outputs. cbv zeta.
    change (Json.get (JObj r) (py "text") (JStr []))
      with (Ok (default (JStr []) (r !! py "text"))).
    rewrite OutFacts.bind_lift_ok.
    destruct (OutFacts.truthy_text_of r Ht) as (Etr & Etx & Henc). rewrite Etr, Etx.
    subst tr. unfold Out.txt_events.
    destruct (Out.text_of r) as [|c0 s] eqn:Es.
    + rewrite bool_decide_eq_true_2 by reflexivity. cbn [negb].
      rewrite OutFacts.bind_ret. apply Htail.
    + rewrite bool_decide_eq_false_2 by discriminate. cbn [negb].
      erewrite OutFacts.bind_ok; [reflexivity| |].
      * apply OutFacts.save_txt_ok; auto.
      * apply Htail.
  - subst tr. rewrite OutFacts.content_app.
    rewrite (OutFacts.content_other _ (Out.txt_events r dir base))
      by (eapply OutFacts.on_other; [exact Hts|exact Hon]).
    cbn [Out.content]. rewrite bool_decide_eq_true_2 by reflexivity. reflexivity.
  - subst tr. apply OutFacts.content_other. apply Forall_app. split.
    + eapply OutFacts.on_other; [exact Htv|exact Hon].
    + constructor; [cbn; congruence|constructor].
Qed.

Lemma segments_that_are_not_a_list_witness :
  let r : gmap pystr json := <[py "segments" := JStr (py "none")]> ∅ in
  let tr := Out.txt_events r (py "out") (py "a")
            ++ [EvOpen (Out.srt_path (py "out") (py "a"))] in
  Out.save_chutes_outputs (fun _ => true) (JObj r) (py "out") (py "a")
  = (tr, Raise TypeError)
  /\ Out.content (Out.srt_path (py "out") (py "a")) tr None = Some []
  /\ Out.content (Out.vtt_path (py "out") (py "a")) tr None = None.
Proof.
  apply (segments_that_are_not_a_list (fun _ => true)
           (<[py "segments" := JStr (py "none")]> ∅) (py "out") (py "a")
           (JStr (py "none"))).
  - reflexivity.
  - exact I.
  - apply lookup_insert_eq.
  - discriminate.
  - reflexivity.
Defined.

